(** * Tableau data preparation: a relational model of [prepare_tableau_data.py]

    The script runs five analytical SQL queries against two tables
    ([player_merged_stats], [player_salaries]) and writes each result to a
    CSV file.  This development embeds

    - the SQL value layer the queries rely on (NULL, three-valued logic,
      division with the "Division by 0" warning, ROUND, aggregates,
      LEFT JOIN, GROUP BY, ORDER BY);
    - the five queries, column by column;
    - the orchestrator [main] with its try / except / finally structure,

    and proves properties of the query results and of the orchestrator.

    Modelling conventions.  Every column is nullable ([None] is NULL).
    Numbers are exact rationals, so numeric results are stated up to [Qeq];
    the column types of the schema are not part of the script.  Text is
    compared under the collation of the tables' columns, which the schema
    declares and the script does not: the model takes it as a parameter
    ([collation]), and the theorems hold for every collation.  Log records
    carry a level and a message; the time stamp added by the logging format
    is not modelled. *)

From Stdlib Require Import QArith Qround ZArith NArith List String Ascii Bool.
From Stdlib Require Import Lia Lqa Permutation Sorted DecimalString.
Import ListNotations.

Local Open Scope string_scope.
Local Open Scope list_scope.
Local Open Scope Q_scope.

(* ================================================================== *)
(** ** SQL values and operators *)
(* ================================================================== *)

(** A nullable numeric column and a nullable text column. *)
Definition num : Type := option Q.
Definition text : Type := option string.

(** SQL truth values: [Some true], [Some false], and [None] for UNKNOWN. *)
Definition tri : Type := option bool.

(** A WHEN / WHERE / ON condition holds only when it is TRUE. *)
Definition is_true (t : tri) : bool :=
  match t with
  | Some true => true
  | _ => false
  end.

Definition sql_and (a b : tri) : tri :=
  match a, b with
  | Some false, _ => Some false
  | _, Some false => Some false
  | Some true, Some true => Some true
  | _, _ => None
  end.

Definition sql_or (a b : tri) : tri :=
  match a, b with
  | Some true, _ => Some true
  | _, Some true => Some true
  | Some false, Some false => Some false
  | _, _ => None
  end.

Definition Qlt_bool (x y : Q) : bool := negb (Qle_bool y x).

Definition sql_cmp (op : Q -> Q -> bool) (a b : num) : tri :=
  match a, b with
  | Some x, Some y => Some (op x y)
  | _, _ => None
  end.

Definition sql_gt (a b : num) : tri := sql_cmp (fun x y => Qlt_bool y x) a b.
Definition sql_ge (a b : num) : tri := sql_cmp (fun x y => Qle_bool y x) a b.
Definition sql_lt (a b : num) : tri := sql_cmp Qlt_bool a b.
Definition sql_le (a b : num) : tri := sql_cmp Qle_bool a b.

(** *** Collation

    [=], LIKE, GROUP BY, ORDER BY and COUNT(DISTINCT) compare text under the
    collation of the columns.  The queries name none, so the one declared
    with the tables applies; the server's default collations ignore letter
    case.  A collation gives every text its weight (MySQL's WEIGHT_STRING):
    two texts are equal when their weights are, and are ordered as their
    weights are.  LIKE compares character by character, which need not
    agree with [=] (trailing blanks): [like_eqb pat s] tells whether the
    text [s] matches the wildcard-free pattern [pat]. *)
Class collation : Type := {
  weight : string -> string;
  like_eqb : string -> string -> bool
}.

(** [a = b] on text; [text_lit_eq] is the comparison with a literal. *)
Definition text_eq {coll : collation} (a b : text) : tri :=
  match a, b with
  | Some x, Some y => Some (String.eqb (weight x) (weight y))
  | _, _ => None
  end.

Definition text_lit_eq {coll : collation} (a : text) (lit : string) : tri :=
  text_eq a (Some lit).

Definition is_not_null {A : Type} (a : option A) : tri :=
  match a with
  | Some _ => Some true
  | None => Some false
  end.

Definition IFNULL {A : Type} (a : option A) (dflt : A) : option A :=
  match a with
  | Some x => Some x
  | None => Some dflt
  end.

(** A numeric literal of the query text. *)
Definition lit (q : Q) : num := Some q.

Definition sql_bin (op : Q -> Q -> Q) (a b : num) : num :=
  match a, b with
  | Some x, Some y => Some (op x y)
  | _, _ => None
  end.

Definition sql_add : num -> num -> num := sql_bin Qplus.
Definition sql_sub : num -> num -> num := sql_bin Qminus.
Definition sql_mul : num -> num -> num := sql_bin Qmult.

(** *** Evaluation with warnings

    MySQL evaluates [x / 0] to NULL and records a "Division by 0" warning;
    a NULL operand gives NULL without a warning.  An expression is evaluated
    to its value together with the number of such warnings. *)
Definition W (A : Type) : Type := (A * nat)%type.

Definition wret {A : Type} (a : A) : W A := (a, 0%nat).

Definition wbind {A B : Type} (m : W A) (f : A -> W B) : W B :=
  let (a, n) := m in
  let (b, k) := f a in
  (b, (n + k)%nat).

Declare Scope warn_scope.
Notation "x <- m ;; k" := (wbind m (fun x => k))
  (at level 61, m at next level, right associativity) : warn_scope.
Local Open Scope warn_scope.

Definition value {A : Type} (m : W A) : A := fst m.
Definition division_warnings {A : Type} (m : W A) : nat := snd m.

Fixpoint wmap {A B : Type} (f : A -> W B) (l : list A) : W (list B) :=
  match l with
  | [] => wret []
  | x :: l' =>
      y <- f x ;;
      ys <- wmap f l' ;;
      wret (y :: ys)
  end.

Definition sql_div (a b : num) : W num :=
  match a, b with
  | Some x, Some y =>
      if Qeq_bool y 0 then (None, 1%nat) else (Some (x / y), 0%nat)
  | _, _ => (None, 0%nat)
  end.

(** ROUND(x, d) on exact values: to [d] decimals, halves away from zero. *)
Definition pow10 (d : nat) : Q := inject_Z (10 ^ Z.of_nat d).

Definition round_half_away (x : Q) : Z :=
  if Qle_bool 0 x then Qfloor (x + (1 # 2))
  else (- Qfloor (- x + (1 # 2)))%Z.

Definition round_q (x : Q) (d : nat) : Q :=
  inject_Z (round_half_away (x * pow10 d)) / pow10 d.

Definition ROUND (a : num) (d : nat) : num :=
  option_map (fun x => round_q x d) a.

(** *** Text functions *)

(** Does [s] start with a text accepted by [m]? *)
Fixpoint some_prefix (m : string -> bool) (s : string) : bool :=
  m EmptyString ||
  match s with
  | EmptyString => false
  | String c s' => some_prefix (fun mid => m (String c mid)) s'
  end.

(** [s LIKE '%pat%']: some stretch of [s] matches [pat]. *)
Fixpoint contains {coll : collation} (pat s : string) : bool :=
  some_prefix (like_eqb pat) s ||
  match s with
  | EmptyString => false
  | String _ s' => contains pat s'
  end.

Definition like_contains {coll : collation} (a : text) (pat : string) : tri :=
  option_map (contains pat) a.

Definition digit_of (c : ascii) : option N :=
  let n := N_of_ascii c in
  if ((48 <=? n) && (n <=? 57))%N then Some (n - 48)%N else None.

Fixpoint leading_digits (s : string) (acc : N) : N :=
  match s with
  | EmptyString => acc
  | String c s' =>
      match digit_of c with
      | Some d => leading_digits s' (10 * acc + d)%N
      | None => acc
      end
  end.

(** [CAST(SUBSTRING(s, 1, 4) AS UNSIGNED)]: the number written by the leading
    digits of the first four characters, 0 when there is none.  Season
    labels start with the four digits of a year; signs and leading blanks
    are not modelled. *)
Definition season_year_of (season : text) : num :=
  option_map
    (fun s => inject_Z (Z.of_N (leading_digits (String.substring 0 4 s) 0)))
    season.

(** *** Aggregates (NULLs are skipped; an empty input gives NULL) *)

Fixpoint non_null {A : Type} (l : list (option A)) : list A :=
  match l with
  | [] => []
  | Some x :: l' => x :: non_null l'
  | None :: l' => non_null l'
  end.

Definition Qsum (l : list Q) : Q := fold_right Qplus 0 l.

Definition Qmax (x y : Q) : Q := if Qle_bool x y then y else x.
Definition Qmin (x y : Q) : Q := if Qle_bool x y then x else y.

Definition agg (f : Q -> list Q -> Q) (l : list num) : num :=
  match non_null l with
  | [] => None
  | x :: xs => Some (f x xs)
  end.

Definition SUM : list num -> num := agg (fun x xs => Qsum (x :: xs)).
Definition AVG : list num -> num :=
  agg (fun x xs =>
         Qsum (x :: xs) / inject_Z (Z.of_nat (List.length (x :: xs)))).
Definition MAX : list num -> num := agg (fun x xs => fold_left Qmax xs x).
Definition MIN : list num -> num := agg (fun x xs => fold_left Qmin xs x).

(** COUNT(DISTINCT x): values of equal weight count once. *)
Definition COUNT_DISTINCT {coll : collation} (l : list text) : num :=
  Some (inject_Z
          (Z.of_nat
             (List.length (nodup string_dec (map weight (non_null l)))))).

(** *** LEFT JOIN, GROUP BY, ORDER BY *)

Definition col {R A : Type} (f : R -> option A) (o : option R) : option A :=
  match o with
  | Some r => f r
  | None => None
  end.

(** Each left row is paired with every right row satisfying [on]; a left row
    without a partner is kept once, with a NULL right side. *)
Definition left_join {L R : Type} (on : L -> R -> tri)
    (left : list L) (right : list R) : list (L * option R) :=
  flat_map
    (fun l =>
       match filter (fun r => is_true (on l r)) right with
       | [] => [(l, None)]
       | ms => map (fun r => (l, Some r)) ms
       end)
    left.

Definition where_ {A : Type} (p : A -> tri) (l : list A) : list A :=
  filter (fun x => is_true (p x)) l.

(** GROUP BY puts NULL keys in one group, and texts of equal weight in one
    group: keys are compared by their weights, NULL being equal to NULL,
    not with the three-valued [text_eq]. *)
Definition key_eqb {coll : collation} (a b : text) : bool :=
  match a, b with
  | Some x, Some y => String.eqb (weight x) (weight y)
  | None, None => true
  | _, _ => false
  end.

Definition key2_eqb {coll : collation} (a b : text * text) : bool :=
  key_eqb (fst a) (fst b) && key_eqb (snd a) (snd b).

Fixpoint add_to_group {K A : Type} (eqb : K -> K -> bool) (k : K) (x : A)
    (gs : list (K * list A)) : list (K * list A) :=
  match gs with
  | [] => [(k, [x])]
  | (k', xs) :: gs' =>
      if eqb k k' then (k', xs ++ [x]) :: gs'
      else (k', xs) :: add_to_group eqb k x gs'
  end.

Definition group_by {K A : Type} (eqb : K -> K -> bool) (key : A -> K)
    (rows : list A) : list (K * list A) :=
  fold_left (fun gs x => add_to_group eqb (key x) x gs) rows [].

(** Texts are ordered by their weights.  NULL sorts below every value, so
    it comes last in a descending order. *)
Definition text_compare {coll : collation} (a b : text) : comparison :=
  match a, b with
  | None, None => Eq
  | None, Some _ => Lt
  | Some _, None => Gt
  | Some x, Some y => String.compare (weight x) (weight y)
  end.

Definition num_compare (a b : num) : comparison :=
  match a, b with
  | None, None => Eq
  | None, Some _ => Lt
  | Some _, None => Gt
  | Some x, Some y => x ?= y
  end.

(** [ORDER BY k1 DESC, k2 DESC]: may [x] stand before [y]? *)
Definition desc_desc {coll : collation} {A : Type} (k1 : A -> text)
    (k2 : A -> num) (x y : A) : bool :=
  match text_compare (k1 x) (k1 y) with
  | Gt => true
  | Lt => false
  | Eq =>
      match num_compare (k2 x) (k2 y) with
      | Lt => false
      | _ => true
      end
  end.

Fixpoint insert_sorted {A : Type} (before : A -> A -> bool) (x : A)
    (l : list A) : list A :=
  match l with
  | [] => [x]
  | y :: l' => if before x y then x :: l else y :: insert_sorted before x l'
  end.

(** The order of rows with equal keys is left open by SQL; the model keeps
    them in the order they were produced. *)
Definition order_by {A : Type} (before : A -> A -> bool) (l : list A)
    : list A :=
  fold_right (insert_sorted before) [] l.

(* ================================================================== *)
(** ** The two source tables *)
(* ================================================================== *)

(** [player_merged_stats]: the columns the five queries read. *)
Module Stats.
Record row : Type := {
  player_name : text;
  season : text;
  team : text;
  position : text;
  age : num;
  games_played : num;
  games_started : num;
  games_started_percentage : num;
  awards : text;
  pg_minutes_played : num;
  pg_points : num;
  pg_rebounds : num;
  pg_assists : num;
  pg_steals : num;
  pg_blocks : num;
  pg_turnovers : num;
  pg_personal_fouls : num;
  pg_field_goal_pct : num;
  pg_three_point_pct : num;
  pg_free_throw_pct : num;
  pg_effective_fg_pct : num;
  pg_three_pointers : num;
  pg_three_point_attempts : num;
  total_points : num;
  total_rebounds : num;
  total_assists : num;
  total_steals : num;
  total_blocks : num;
  adv_player_efficiency_rating : num;
  adv_true_shooting_pct : num;
  adv_usage_pct : num;
  adv_offensive_rebound_pct : num;
  adv_defensive_rebound_pct : num;
  adv_total_rebound_pct : num;
  adv_assist_pct : num;
  adv_steal_pct : num;
  adv_block_pct : num;
  adv_turnover_pct : num;
  adv_offensive_win_shares : num;
  adv_defensive_win_shares : num;
  adv_win_shares : num;
  adv_win_shares_per_48 : num;
  adv_offensive_box_plus_minus : num;
  adv_defensive_box_plus_minus : num;
  adv_box_plus_minus : num;
  adv_value_over_replacement : num
}.
End Stats.

(** [player_salaries]. *)
Module Salaries.
Record row : Type := {
  player_name : text;
  season : text;
  salary : num;
  salary_formatted : text;
  salary_rank : num
}.
End Salaries.

(** The join used by every query:
    [ON pms.player_name = ps.player_name AND pms.season = ps.season]. *)
Definition salary_join {coll : collation} (pms : Stats.row)
    (ps : Salaries.row) : tri :=
  sql_and (text_eq (Stats.player_name pms) (Salaries.player_name ps))
          (text_eq (Stats.season pms) (Salaries.season ps)).

(** [player_merged_stats pms LEFT JOIN player_salaries ps ON ...]. *)
Definition stats_with_salary {coll : collation}
    (stats : list Stats.row) (salaries : list Salaries.row)
    : list (Stats.row * option Salaries.row) :=
  left_join salary_join stats salaries.

(* ================================================================== *)
(** ** Derived columns shared by the player-level queries *)
(* ================================================================== *)

(** [CASE WHEN pg_points > 0 AND salary > 0
          THEN ROUND(pg_points / (salary / 1000000), 2) ELSE NULL END]. *)
Definition points_per_million (pg_points salary : num) : W num :=
  if is_true (sql_and (sql_gt pg_points (lit 0)) (sql_gt salary (lit 0)))
  then
    millions <- sql_div salary (lit 1000000) ;;
    q <- sql_div pg_points millions ;;
    wret (ROUND q 2)
  else wret None.

(** [CASE WHEN adv_win_shares > 0 AND salary > 0
          THEN ROUND(salary / adv_win_shares, 0) ELSE NULL END]. *)
Definition salary_per_win_share (adv_win_shares salary : num) : W num :=
  if is_true (sql_and (sql_gt adv_win_shares (lit 0)) (sql_gt salary (lit 0)))
  then
    q <- sql_div salary adv_win_shares ;;
    wret (ROUND q 0)
  else wret None.

(** [CASE WHEN adv_value_over_replacement > 0 AND salary > 0
          THEN ROUND(salary / adv_value_over_replacement, 0)
          ELSE NULL END]. *)
Definition salary_per_vorp (adv_value_over_replacement salary : num) : W num :=
  if is_true (sql_and (sql_gt adv_value_over_replacement (lit 0))
                      (sql_gt salary (lit 0)))
  then
    q <- sql_div salary adv_value_over_replacement ;;
    wret (ROUND q 0)
  else wret None.

(** [CASE WHEN adv_value_over_replacement > 0 AND salary > 0
          THEN ROUND((adv_value_over_replacement * 1000000) / salary * 100, 2)
          ELSE NULL END]. *)
Definition value_score (adv_value_over_replacement salary : num) : W num :=
  if is_true (sql_and (sql_gt adv_value_over_replacement (lit 0))
                      (sql_gt salary (lit 0)))
  then
    q <- sql_div (sql_mul adv_value_over_replacement (lit 1000000)) salary ;;
    wret (ROUND (sql_mul q (lit 100)) 2)
  else wret None.

Definition salary_tier (salary_rank : num) : string :=
  if is_true (sql_le salary_rank (lit 10)) then "Top 10 (Supermax)"
  else if is_true (sql_le salary_rank (lit 30)) then "Top 30 (Max)"
  else if is_true (sql_le salary_rank (lit 50)) then "Top 50"
  else if is_true (sql_le salary_rank (lit 100)) then "Top 100"
  else if is_true (sql_le salary_rank (lit 200)) then "Top 200"
  else "Other".

Definition scoring_tier (pg_points : num) : string :=
  if is_true (sql_ge pg_points (lit 25)) then "Elite Scorer (25+ PPG)"
  else if is_true (sql_ge pg_points (lit 20)) then "All-Star (20-25 PPG)"
  else if is_true (sql_ge pg_points (lit 15)) then "Starter (15-20 PPG)"
  else if is_true (sql_ge pg_points (lit 10)) then "Role Player (10-15 PPG)"
  else "Bench Player (<10 PPG)".

Definition impact_tier (vorp : num) : string :=
  if is_true (sql_ge vorp (lit 6.0)) then "Superstar (6+ VORP)"
  else if is_true (sql_ge vorp (lit 4.0)) then "Star (4-6 VORP)"
  else if is_true (sql_ge vorp (lit 2.0)) then "Above Average (2-4 VORP)"
  else if is_true (sql_ge vorp (lit 0)) then "Average (0-2 VORP)"
  else "Below Average (<0 VORP)".

(** [CASE WHEN awards LIKE '%pat%' THEN 1 ELSE 0 END]. *)
Definition award_flag {coll : collation} (awards : text) (pat : string)
    : num :=
  if is_true (like_contains awards pat) then lit 1 else lit 0.

Definition value_category (salary_rank vorp : num) : string :=
  if is_true (sql_and (sql_le salary_rank (lit 50)) (sql_ge vorp (lit 4.0)))
  then "Star - Excellent Value"
  else if is_true (sql_and (sql_le salary_rank (lit 50))
                           (sql_ge vorp (lit 2.0)))
  then "Star - Fair Value"
  else if is_true (sql_and (sql_le salary_rank (lit 50))
                           (sql_lt vorp (lit 2.0)))
  then "Star - Overpaid"
  else if is_true (sql_and (sql_gt salary_rank (lit 50))
                           (sql_ge vorp (lit 4.0)))
  then "Hidden Gem"
  else if is_true (sql_and (sql_gt salary_rank (lit 50))
                           (sql_ge vorp (lit 2.0)))
  then "Good Value"
  else if is_true (sql_and (sql_gt salary_rank (lit 50))
                           (sql_ge vorp (lit 0)))
  then "Fair Value"
  else "Below Average".

(* ================================================================== *)
(** ** Query 1: the query of [create_main_dashboard_data] *)
(* ================================================================== *)

Module MainDashboard.
Record row : Type := {
  player_name : text;
  season : text;
  team : text;
  position : text;
  age : num;
  games_played : num;
  games_started : num;
  games_started_percentage : num;
  awards : text;
  salary : num;
  salary_formatted : text;
  salary_rank : num;
  mpg : num;
  ppg : num;
  rpg : num;
  apg : num;
  spg : num;
  bpg : num;
  tov_pg : num;
  pf_pg : num;
  fg_pct : num;
  three_pt_pct : num;
  ft_pct : num;
  efg_pct : num;
  three_pm_pg : num;
  three_pa_pg : num;
  total_points : num;
  total_rebounds : num;
  total_assists : num;
  total_steals : num;
  total_blocks : num;
  PER : num;
  TS_pct : num;
  usage_pct : num;
  ORB_pct : num;
  DRB_pct : num;
  TRB_pct : num;
  AST_pct : num;
  STL_pct : num;
  BLK_pct : num;
  TOV_pct : num;
  OWS : num;
  DWS : num;
  WS : num;
  WS_per_48 : num;
  OBPM : num;
  DBPM : num;
  BPM : num;
  VORP : num;
  points_per_million : num;
  salary_per_win_share : num;
  salary_per_vorp : num;
  salary_tier : string;
  scoring_tier : string;
  impact_tier : string;
  is_mvp_candidate : num;
  is_allstar : num;
  is_all_nba_first : num;
  is_dpoy_candidate : num;
  season_year : num
}.
End MainDashboard.

(** The SELECT list of query 1 on one row of the join. *)
Definition main_dashboard_select {coll : collation}
    (j : Stats.row * option Salaries.row)
    : W MainDashboard.row :=
  let (pms, ps) := j in
  ppm <- points_per_million (Stats.pg_points pms) (col Salaries.salary ps) ;;
  spw <- salary_per_win_share (Stats.adv_win_shares pms)
           (col Salaries.salary ps) ;;
  spv <- salary_per_vorp (Stats.adv_value_over_replacement pms)
           (col Salaries.salary ps) ;;
  wret {|
    MainDashboard.player_name := Stats.player_name pms;
    MainDashboard.season := Stats.season pms;
    MainDashboard.team := Stats.team pms;
    MainDashboard.position := Stats.position pms;
    MainDashboard.age := Stats.age pms;
    MainDashboard.games_played := Stats.games_played pms;
    MainDashboard.games_started := Stats.games_started pms;
    MainDashboard.games_started_percentage :=
      Stats.games_started_percentage pms;
    MainDashboard.awards := Stats.awards pms;
    MainDashboard.salary := col Salaries.salary ps;
    MainDashboard.salary_formatted := col Salaries.salary_formatted ps;
    MainDashboard.salary_rank := col Salaries.salary_rank ps;
    MainDashboard.mpg := Stats.pg_minutes_played pms;
    MainDashboard.ppg := Stats.pg_points pms;
    MainDashboard.rpg := Stats.pg_rebounds pms;
    MainDashboard.apg := Stats.pg_assists pms;
    MainDashboard.spg := Stats.pg_steals pms;
    MainDashboard.bpg := Stats.pg_blocks pms;
    MainDashboard.tov_pg := Stats.pg_turnovers pms;
    MainDashboard.pf_pg := Stats.pg_personal_fouls pms;
    MainDashboard.fg_pct := Stats.pg_field_goal_pct pms;
    MainDashboard.three_pt_pct := Stats.pg_three_point_pct pms;
    MainDashboard.ft_pct := Stats.pg_free_throw_pct pms;
    MainDashboard.efg_pct := Stats.pg_effective_fg_pct pms;
    MainDashboard.three_pm_pg := Stats.pg_three_pointers pms;
    MainDashboard.three_pa_pg := Stats.pg_three_point_attempts pms;
    MainDashboard.total_points := Stats.total_points pms;
    MainDashboard.total_rebounds := Stats.total_rebounds pms;
    MainDashboard.total_assists := Stats.total_assists pms;
    MainDashboard.total_steals := Stats.total_steals pms;
    MainDashboard.total_blocks := Stats.total_blocks pms;
    MainDashboard.PER := Stats.adv_player_efficiency_rating pms;
    MainDashboard.TS_pct := Stats.adv_true_shooting_pct pms;
    MainDashboard.usage_pct := Stats.adv_usage_pct pms;
    MainDashboard.ORB_pct := Stats.adv_offensive_rebound_pct pms;
    MainDashboard.DRB_pct := Stats.adv_defensive_rebound_pct pms;
    MainDashboard.TRB_pct := Stats.adv_total_rebound_pct pms;
    MainDashboard.AST_pct := Stats.adv_assist_pct pms;
    MainDashboard.STL_pct := Stats.adv_steal_pct pms;
    MainDashboard.BLK_pct := Stats.adv_block_pct pms;
    MainDashboard.TOV_pct := Stats.adv_turnover_pct pms;
    MainDashboard.OWS := Stats.adv_offensive_win_shares pms;
    MainDashboard.DWS := Stats.adv_defensive_win_shares pms;
    MainDashboard.WS := Stats.adv_win_shares pms;
    MainDashboard.WS_per_48 := Stats.adv_win_shares_per_48 pms;
    MainDashboard.OBPM := Stats.adv_offensive_box_plus_minus pms;
    MainDashboard.DBPM := Stats.adv_defensive_box_plus_minus pms;
    MainDashboard.BPM := Stats.adv_box_plus_minus pms;
    MainDashboard.VORP := Stats.adv_value_over_replacement pms;
    MainDashboard.points_per_million := ppm;
    MainDashboard.salary_per_win_share := spw;
    MainDashboard.salary_per_vorp := spv;
    MainDashboard.salary_tier := salary_tier (col Salaries.salary_rank ps);
    MainDashboard.scoring_tier := scoring_tier (Stats.pg_points pms);
    MainDashboard.impact_tier :=
      impact_tier (Stats.adv_value_over_replacement pms);
    MainDashboard.is_mvp_candidate := award_flag (Stats.awards pms) "MVP";
    MainDashboard.is_allstar := award_flag (Stats.awards pms) "AS";
    MainDashboard.is_all_nba_first := award_flag (Stats.awards pms) "NBA1";
    MainDashboard.is_dpoy_candidate := award_flag (Stats.awards pms) "DPOY";
    MainDashboard.season_year := season_year_of (Stats.season pms)
  |}.

(** [WHERE pms.games_played >= 10]. *)
Definition main_dashboard_where (j : Stats.row * option Salaries.row) : tri :=
  sql_ge (Stats.games_played (fst j)) (lit 10).

(** Query 1, with [ORDER BY pms.season DESC, ps.salary DESC]. *)
Definition main_dashboard_query {coll : collation}
    (stats : list Stats.row) (salaries : list Salaries.row)
    : W (list MainDashboard.row) :=
  rows <- wmap main_dashboard_select
            (where_ main_dashboard_where (stats_with_salary stats salaries)) ;;
  wret (order_by (desc_desc MainDashboard.season MainDashboard.salary) rows).

(* ================================================================== *)
(** ** Query 2: the query of [create_team_summary_data] *)
(* ================================================================== *)

Module TeamSummary.
Record row : Type := {
  season : text;
  team : text;
  roster_count : num;
  total_payroll : num;
  avg_salary : num;
  max_salary : num;
  min_salary : num;
  avg_ppg : num;
  avg_rpg : num;
  avg_apg : num;
  avg_spg : num;
  avg_bpg : num;
  avg_fg_pct : num;
  avg_3pt_pct : num;
  avg_ts_pct : num;
  avg_efg_pct : num;
  avg_PER : num;
  total_WS : num;
  avg_WS : num;
  total_VORP : num;
  avg_VORP : num;
  avg_BPM : num;
  avg_OBPM : num;
  avg_DBPM : num;
  team_total_points : num;
  team_total_rebounds : num;
  team_total_assists : num;
  payroll_per_WS : num;
  payroll_per_VORP : num;
  season_year : num
}.
End TeamSummary.

(** A group of joined rows, and the column of values an aggregate ranges
    over. *)
Definition joined : Type := (Stats.row * option Salaries.row)%type.

Definition pms_column {A : Type} (f : Stats.row -> option A)
    (members : list joined) : list (option A) :=
  map (fun j => f (fst j)) members.

Definition ps_column {A : Type} (f : Salaries.row -> option A)
    (members : list joined) : list (option A) :=
  map (fun j => col f (snd j)) members.

(** [CASE WHEN SUM(d) > 0 THEN ROUND(SUM(ps.salary) / SUM(d), 0)
          ELSE NULL END], for [d] the win shares or the value over
    replacement. *)
Definition payroll_per (sum_salary sum_d : num) : W num :=
  if is_true (sql_gt sum_d (lit 0))
  then
    q <- sql_div sum_salary sum_d ;;
    wret (ROUND q 0)
  else wret None.

Definition team_summary_select {coll : collation}
    (g : (text * text) * list joined)
    : W TeamSummary.row :=
  let (key, members) := g in
  ppw <- payroll_per (SUM (ps_column Salaries.salary members))
           (SUM (pms_column Stats.adv_win_shares members)) ;;
  ppv <- payroll_per (SUM (ps_column Salaries.salary members))
           (SUM (pms_column Stats.adv_value_over_replacement members)) ;;
  wret {|
    TeamSummary.season := fst key;
    TeamSummary.team := snd key;
    TeamSummary.roster_count :=
      COUNT_DISTINCT (pms_column Stats.player_name members);
    TeamSummary.total_payroll := SUM (ps_column Salaries.salary members);
    TeamSummary.avg_salary :=
      ROUND (AVG (ps_column Salaries.salary members)) 0;
    TeamSummary.max_salary := MAX (ps_column Salaries.salary members);
    TeamSummary.min_salary := MIN (ps_column Salaries.salary members);
    TeamSummary.avg_ppg := ROUND (AVG (pms_column Stats.pg_points members)) 2;
    TeamSummary.avg_rpg :=
      ROUND (AVG (pms_column Stats.pg_rebounds members)) 2;
    TeamSummary.avg_apg := ROUND (AVG (pms_column Stats.pg_assists members)) 2;
    TeamSummary.avg_spg := ROUND (AVG (pms_column Stats.pg_steals members)) 2;
    TeamSummary.avg_bpg := ROUND (AVG (pms_column Stats.pg_blocks members)) 2;
    TeamSummary.avg_fg_pct :=
      ROUND (AVG (pms_column Stats.pg_field_goal_pct members)) 3;
    TeamSummary.avg_3pt_pct :=
      ROUND (AVG (pms_column Stats.pg_three_point_pct members)) 3;
    TeamSummary.avg_ts_pct :=
      ROUND (AVG (pms_column Stats.adv_true_shooting_pct members)) 3;
    TeamSummary.avg_efg_pct :=
      ROUND (AVG (pms_column Stats.pg_effective_fg_pct members)) 3;
    TeamSummary.avg_PER :=
      ROUND (AVG (pms_column Stats.adv_player_efficiency_rating members)) 2;
    TeamSummary.total_WS :=
      ROUND (SUM (pms_column Stats.adv_win_shares members)) 2;
    TeamSummary.avg_WS :=
      ROUND (AVG (pms_column Stats.adv_win_shares members)) 2;
    TeamSummary.total_VORP :=
      ROUND (SUM (pms_column Stats.adv_value_over_replacement members)) 2;
    TeamSummary.avg_VORP :=
      ROUND (AVG (pms_column Stats.adv_value_over_replacement members)) 2;
    TeamSummary.avg_BPM :=
      ROUND (AVG (pms_column Stats.adv_box_plus_minus members)) 2;
    TeamSummary.avg_OBPM :=
      ROUND (AVG (pms_column Stats.adv_offensive_box_plus_minus members)) 2;
    TeamSummary.avg_DBPM :=
      ROUND (AVG (pms_column Stats.adv_defensive_box_plus_minus members)) 2;
    TeamSummary.team_total_points :=
      SUM (pms_column Stats.total_points members);
    TeamSummary.team_total_rebounds :=
      SUM (pms_column Stats.total_rebounds members);
    TeamSummary.team_total_assists :=
      SUM (pms_column Stats.total_assists members);
    TeamSummary.payroll_per_WS := ppw;
    TeamSummary.payroll_per_VORP := ppv;
    TeamSummary.season_year := season_year_of (fst key)
  |}.

(** [WHERE pms.games_played >= 10]. *)
Definition team_summary_where (j : joined) : tri :=
  sql_ge (Stats.games_played (fst j)) (lit 10).

(** [GROUP BY pms.season, pms.team]. *)
Definition team_summary_key (j : joined) : text * text :=
  (Stats.season (fst j), Stats.team (fst j)).

Definition team_summary_groups {coll : collation}
    (stats : list Stats.row) (salaries : list Salaries.row)
    : list ((text * text) * list joined) :=
  group_by key2_eqb team_summary_key
    (where_ team_summary_where (stats_with_salary stats salaries)).

(** Query 2, with [ORDER BY pms.season DESC, total_VORP DESC]. *)
Definition team_summary_query {coll : collation}
    (stats : list Stats.row) (salaries : list Salaries.row)
    : W (list TeamSummary.row) :=
  rows <- wmap team_summary_select (team_summary_groups stats salaries) ;;
  wret (order_by (desc_desc TeamSummary.season TeamSummary.total_VORP) rows).

(* ================================================================== *)
(** ** Query 3: the query of [create_player_comparison_data] *)
(* ================================================================== *)

Module PlayerComparison.
Record row : Type := {
  player_name : text;
  current_season : text;
  current_team : text;
  current_age : num;
  current_salary : num;
  current_salary_formatted : text;
  current_salary_rank : num;
  current_games : num;
  current_ppg : num;
  current_rpg : num;
  current_apg : num;
  current_PER : num;
  current_TS_pct : num;
  current_WS : num;
  current_VORP : num;
  current_BPM : num;
  previous_season : text;
  previous_team : text;
  previous_salary : num;
  previous_salary_rank : num;
  previous_games : num;
  previous_ppg : num;
  previous_rpg : num;
  previous_apg : num;
  previous_PER : num;
  previous_TS_pct : num;
  previous_WS : num;
  previous_VORP : num;
  previous_BPM : num;
  salary_change : num;
  salary_change_pct : num;
  ppg_change : num;
  rpg_change : num;
  apg_change : num;
  vorp_change : num;
  ws_change : num;
  performance_trend : string;
  impact_trend : string;
  season_year : num
}.
End PlayerComparison.

(** One row of the four-way join: [curr], [curr_sal], [prev], [prev_sal]. *)
Record comparison_join : Type := {
  curr : Stats.row;
  curr_sal : option Salaries.row;
  prev : option Stats.row;
  prev_sal : option Salaries.row
}.

(** [ON curr.player_name = prev.player_name
       AND ((curr.season = '2023-24' AND prev.season = '2022-23')
         OR (curr.season = '2024-25' AND prev.season = '2023-24'))]. *)
Definition previous_season_join {coll : collation} (c : joined)
    (p : Stats.row) : tri :=
  sql_and
    (text_eq (Stats.player_name (fst c)) (Stats.player_name p))
    (sql_or
       (sql_and (text_lit_eq (Stats.season (fst c)) "2023-24")
                (text_lit_eq (Stats.season p) "2022-23"))
       (sql_and (text_lit_eq (Stats.season (fst c)) "2024-25")
                (text_lit_eq (Stats.season p) "2023-24"))).

(** [ON prev.player_name = prev_sal.player_name
       AND prev.season = prev_sal.season]. *)
Definition previous_salary_join {coll : collation}
    (cp : joined * option Stats.row)
    (s : Salaries.row) : tri :=
  sql_and
    (text_eq (col Stats.player_name (snd cp)) (Salaries.player_name s))
    (text_eq (col Stats.season (snd cp)) (Salaries.season s)).

Definition comparison_joins {coll : collation}
    (stats : list Stats.row) (salaries : list Salaries.row)
    : list comparison_join :=
  map
    (fun x =>
       {| curr := fst (fst (fst x));
          curr_sal := snd (fst (fst x));
          prev := snd (fst x);
          prev_sal := snd x |})
    (left_join previous_salary_join
       (left_join previous_season_join (stats_with_salary stats salaries)
          stats)
       salaries).

(** [(curr_sal.salary - IFNULL(prev_sal.salary, 0))]. *)
Definition salary_change (current_salary previous_salary : num) : num :=
  sql_sub current_salary (IFNULL previous_salary 0).

(** [ROUND(((curr_sal.salary - IFNULL(prev_sal.salary, 1))
           / IFNULL(prev_sal.salary, 1) * 100), 1)]. *)
Definition salary_change_pct (current_salary previous_salary : num) : W num :=
  q <- sql_div (sql_sub current_salary (IFNULL previous_salary 1))
         (IFNULL previous_salary 1) ;;
  wret (ROUND (sql_mul q (lit 100)) 1).

(** [ROUND((c - IFNULL(p, 0)), 2)]. *)
Definition stat_change (c p : num) : num :=
  ROUND (sql_sub c (IFNULL p 0)) 2.

Definition performance_trend (current_ppg previous_ppg : num) : string :=
  if is_true (sql_gt current_ppg (sql_add (IFNULL previous_ppg 0) (lit 2)))
  then "Significantly Improved"
  else if is_true (sql_gt current_ppg (IFNULL previous_ppg 0))
  then "Improved"
  else if is_true (sql_lt current_ppg
                     (sql_sub (IFNULL previous_ppg 0) (lit 2)))
  then "Significantly Declined"
  else if is_true (sql_lt current_ppg (IFNULL previous_ppg 0))
  then "Declined"
  else "Stable".

Definition impact_trend (current_vorp previous_vorp : num) : string :=
  if is_true (sql_gt current_vorp (sql_add (IFNULL previous_vorp 0) (lit 1)))
  then "Breakout"
  else if is_true (sql_gt current_vorp (IFNULL previous_vorp 0))
  then "Improving"
  else if is_true (sql_lt current_vorp
                     (sql_sub (IFNULL previous_vorp 0) (lit 1)))
  then "Regression"
  else if is_true (sql_lt current_vorp (IFNULL previous_vorp 0))
  then "Declining"
  else "Consistent".

Definition player_comparison_select (j : comparison_join)
    : W PlayerComparison.row :=
  pct <- salary_change_pct (col Salaries.salary (curr_sal j))
           (col Salaries.salary (prev_sal j)) ;;
  wret {|
    PlayerComparison.player_name := Stats.player_name (curr j);
    PlayerComparison.current_season := Stats.season (curr j);
    PlayerComparison.current_team := Stats.team (curr j);
    PlayerComparison.current_age := Stats.age (curr j);
    PlayerComparison.current_salary := col Salaries.salary (curr_sal j);
    PlayerComparison.current_salary_formatted :=
      col Salaries.salary_formatted (curr_sal j);
    PlayerComparison.current_salary_rank :=
      col Salaries.salary_rank (curr_sal j);
    PlayerComparison.current_games := Stats.games_played (curr j);
    PlayerComparison.current_ppg := Stats.pg_points (curr j);
    PlayerComparison.current_rpg := Stats.pg_rebounds (curr j);
    PlayerComparison.current_apg := Stats.pg_assists (curr j);
    PlayerComparison.current_PER := Stats.adv_player_efficiency_rating (curr j);
    PlayerComparison.current_TS_pct := Stats.adv_true_shooting_pct (curr j);
    PlayerComparison.current_WS := Stats.adv_win_shares (curr j);
    PlayerComparison.current_VORP := Stats.adv_value_over_replacement (curr j);
    PlayerComparison.current_BPM := Stats.adv_box_plus_minus (curr j);
    PlayerComparison.previous_season := col Stats.season (prev j);
    PlayerComparison.previous_team := col Stats.team (prev j);
    PlayerComparison.previous_salary := col Salaries.salary (prev_sal j);
    PlayerComparison.previous_salary_rank :=
      col Salaries.salary_rank (prev_sal j);
    PlayerComparison.previous_games := col Stats.games_played (prev j);
    PlayerComparison.previous_ppg := col Stats.pg_points (prev j);
    PlayerComparison.previous_rpg := col Stats.pg_rebounds (prev j);
    PlayerComparison.previous_apg := col Stats.pg_assists (prev j);
    PlayerComparison.previous_PER :=
      col Stats.adv_player_efficiency_rating (prev j);
    PlayerComparison.previous_TS_pct :=
      col Stats.adv_true_shooting_pct (prev j);
    PlayerComparison.previous_WS := col Stats.adv_win_shares (prev j);
    PlayerComparison.previous_VORP :=
      col Stats.adv_value_over_replacement (prev j);
    PlayerComparison.previous_BPM := col Stats.adv_box_plus_minus (prev j);
    PlayerComparison.salary_change :=
      salary_change (col Salaries.salary (curr_sal j))
        (col Salaries.salary (prev_sal j));
    PlayerComparison.salary_change_pct := pct;
    PlayerComparison.ppg_change :=
      stat_change (Stats.pg_points (curr j)) (col Stats.pg_points (prev j));
    PlayerComparison.rpg_change :=
      stat_change (Stats.pg_rebounds (curr j))
        (col Stats.pg_rebounds (prev j));
    PlayerComparison.apg_change :=
      stat_change (Stats.pg_assists (curr j)) (col Stats.pg_assists (prev j));
    PlayerComparison.vorp_change :=
      stat_change (Stats.adv_value_over_replacement (curr j))
        (col Stats.adv_value_over_replacement (prev j));
    PlayerComparison.ws_change :=
      stat_change (Stats.adv_win_shares (curr j))
        (col Stats.adv_win_shares (prev j));
    PlayerComparison.performance_trend :=
      performance_trend (Stats.pg_points (curr j))
        (col Stats.pg_points (prev j));
    PlayerComparison.impact_trend :=
      impact_trend (Stats.adv_value_over_replacement (curr j))
        (col Stats.adv_value_over_replacement (prev j));
    PlayerComparison.season_year := season_year_of (Stats.season (curr j))
  |}.

(** [WHERE curr.games_played >= 20]. *)
Definition player_comparison_where (j : comparison_join) : tri :=
  sql_ge (Stats.games_played (curr j)) (lit 20).

(** Query 3, with [ORDER BY curr.season DESC, vorp_change DESC]. *)
Definition player_comparison_query {coll : collation}
    (stats : list Stats.row) (salaries : list Salaries.row)
    : W (list PlayerComparison.row) :=
  rows <- wmap player_comparison_select
            (where_ player_comparison_where
               (comparison_joins stats salaries)) ;;
  wret (order_by
          (desc_desc PlayerComparison.current_season
             PlayerComparison.vorp_change)
          rows).

(* ================================================================== *)
(** ** Query 4: the query of [create_value_analysis_data] *)
(* ================================================================== *)

Module ValueAnalysis.
Record row : Type := {
  player_name : text;
  season : text;
  team : text;
  position : text;
  age : num;
  games_played : num;
  salary : num;
  salary_formatted : text;
  salary_rank : num;
  pg_points : num;
  pg_rebounds : num;
  pg_assists : num;
  pg_steals : num;
  pg_blocks : num;
  PER : num;
  TS_pct : num;
  usage_pct : num;
  WS : num;
  VORP : num;
  BPM : num;
  OBPM : num;
  DBPM : num;
  points_per_million : num;
  salary_per_WS : num;
  salary_per_VORP : num;
  value_score : num;
  value_category : string;
  season_year : num
}.
End ValueAnalysis.

Definition value_analysis_select (j : joined) : W ValueAnalysis.row :=
  let (pms, ps) := j in
  ppm <- points_per_million (Stats.pg_points pms) (col Salaries.salary ps) ;;
  spw <- salary_per_win_share (Stats.adv_win_shares pms)
           (col Salaries.salary ps) ;;
  spv <- salary_per_vorp (Stats.adv_value_over_replacement pms)
           (col Salaries.salary ps) ;;
  vs <- value_score (Stats.adv_value_over_replacement pms)
          (col Salaries.salary ps) ;;
  wret {|
    ValueAnalysis.player_name := Stats.player_name pms;
    ValueAnalysis.season := Stats.season pms;
    ValueAnalysis.team := Stats.team pms;
    ValueAnalysis.position := Stats.position pms;
    ValueAnalysis.age := Stats.age pms;
    ValueAnalysis.games_played := Stats.games_played pms;
    ValueAnalysis.salary := col Salaries.salary ps;
    ValueAnalysis.salary_formatted := col Salaries.salary_formatted ps;
    ValueAnalysis.salary_rank := col Salaries.salary_rank ps;
    ValueAnalysis.pg_points := Stats.pg_points pms;
    ValueAnalysis.pg_rebounds := Stats.pg_rebounds pms;
    ValueAnalysis.pg_assists := Stats.pg_assists pms;
    ValueAnalysis.pg_steals := Stats.pg_steals pms;
    ValueAnalysis.pg_blocks := Stats.pg_blocks pms;
    ValueAnalysis.PER := Stats.adv_player_efficiency_rating pms;
    ValueAnalysis.TS_pct := Stats.adv_true_shooting_pct pms;
    ValueAnalysis.usage_pct := Stats.adv_usage_pct pms;
    ValueAnalysis.WS := Stats.adv_win_shares pms;
    ValueAnalysis.VORP := Stats.adv_value_over_replacement pms;
    ValueAnalysis.BPM := Stats.adv_box_plus_minus pms;
    ValueAnalysis.OBPM := Stats.adv_offensive_box_plus_minus pms;
    ValueAnalysis.DBPM := Stats.adv_defensive_box_plus_minus pms;
    ValueAnalysis.points_per_million := ppm;
    ValueAnalysis.salary_per_WS := spw;
    ValueAnalysis.salary_per_VORP := spv;
    ValueAnalysis.value_score := vs;
    ValueAnalysis.value_category :=
      value_category (col Salaries.salary_rank ps)
        (Stats.adv_value_over_replacement pms);
    ValueAnalysis.season_year := season_year_of (Stats.season pms)
  |}.

(** [WHERE pms.games_played >= 20 AND ps.salary IS NOT NULL]. *)
Definition value_analysis_where (j : joined) : tri :=
  sql_and (sql_ge (Stats.games_played (fst j)) (lit 20))
          (is_not_null (col Salaries.salary (snd j))).

(** Query 4, with [ORDER BY pms.season DESC, value_score DESC]. *)
Definition value_analysis_query {coll : collation}
    (stats : list Stats.row) (salaries : list Salaries.row)
    : W (list ValueAnalysis.row) :=
  rows <- wmap value_analysis_select
            (where_ value_analysis_where (stats_with_salary stats salaries)) ;;
  wret (order_by (desc_desc ValueAnalysis.season ValueAnalysis.value_score)
          rows).

(* ================================================================== *)
(** ** Query 5: the query of [create_position_analysis_data] *)
(* ================================================================== *)

Module PositionAnalysis.
Record row : Type := {
  position : text;
  season : text;
  player_count : num;
  avg_salary : num;
  max_salary : num;
  min_salary : num;
  avg_ppg : num;
  avg_rpg : num;
  avg_apg : num;
  avg_spg : num;
  avg_bpg : num;
  avg_TS_pct : num;
  avg_PER : num;
  avg_usage_pct : num;
  avg_WS : num;
  avg_VORP : num;
  avg_BPM : num;
  season_year : num
}.
End PositionAnalysis.

Definition position_analysis_select {coll : collation}
    (g : (text * text) * list joined)
    : W PositionAnalysis.row :=
  let (key, members) := g in
  wret {|
    PositionAnalysis.position := fst key;
    PositionAnalysis.season := snd key;
    PositionAnalysis.player_count :=
      COUNT_DISTINCT (pms_column Stats.player_name members);
    PositionAnalysis.avg_salary :=
      ROUND (AVG (ps_column Salaries.salary members)) 0;
    PositionAnalysis.max_salary := MAX (ps_column Salaries.salary members);
    PositionAnalysis.min_salary := MIN (ps_column Salaries.salary members);
    PositionAnalysis.avg_ppg :=
      ROUND (AVG (pms_column Stats.pg_points members)) 2;
    PositionAnalysis.avg_rpg :=
      ROUND (AVG (pms_column Stats.pg_rebounds members)) 2;
    PositionAnalysis.avg_apg :=
      ROUND (AVG (pms_column Stats.pg_assists members)) 2;
    PositionAnalysis.avg_spg :=
      ROUND (AVG (pms_column Stats.pg_steals members)) 2;
    PositionAnalysis.avg_bpg :=
      ROUND (AVG (pms_column Stats.pg_blocks members)) 2;
    PositionAnalysis.avg_TS_pct :=
      ROUND (AVG (pms_column Stats.adv_true_shooting_pct members)) 3;
    PositionAnalysis.avg_PER :=
      ROUND (AVG (pms_column Stats.adv_player_efficiency_rating members)) 2;
    PositionAnalysis.avg_usage_pct :=
      ROUND (AVG (pms_column Stats.adv_usage_pct members)) 2;
    PositionAnalysis.avg_WS :=
      ROUND (AVG (pms_column Stats.adv_win_shares members)) 2;
    PositionAnalysis.avg_VORP :=
      ROUND (AVG (pms_column Stats.adv_value_over_replacement members)) 2;
    PositionAnalysis.avg_BPM :=
      ROUND (AVG (pms_column Stats.adv_box_plus_minus members)) 2;
    PositionAnalysis.season_year := season_year_of (snd key)
  |}.

(** [WHERE pms.games_played >= 40 AND pms.position IS NOT NULL]. *)
Definition position_analysis_where (j : joined) : tri :=
  sql_and (sql_ge (Stats.games_played (fst j)) (lit 40))
          (is_not_null (Stats.position (fst j))).

(** [GROUP BY pms.position, pms.season]. *)
Definition position_analysis_key (j : joined) : text * text :=
  (Stats.position (fst j), Stats.season (fst j)).

Definition position_analysis_groups {coll : collation}
    (stats : list Stats.row) (salaries : list Salaries.row)
    : list ((text * text) * list joined) :=
  group_by key2_eqb position_analysis_key
    (where_ position_analysis_where (stats_with_salary stats salaries)).

(** Query 5, with [ORDER BY pms.season DESC, avg_VORP DESC]. *)
Definition position_analysis_query {coll : collation}
    (stats : list Stats.row) (salaries : list Salaries.row)
    : W (list PositionAnalysis.row) :=
  rows <- wmap position_analysis_select
            (position_analysis_groups stats salaries) ;;
  wret (order_by
          (desc_desc PositionAnalysis.season PositionAnalysis.avg_VORP) rows).

Local Close Scope warn_scope.

(* ================================================================== *)
(** ** The script: connection, the five [create_*] functions, [main] *)
(* ================================================================== *)

Inductive level : Type := INFO | ERROR.

(** The five derivations, named after the queries they run. *)
Inductive derivation : Type :=
  | MainDashboardData
  | TeamSummaryData
  | PlayerComparisonData
  | ValueAnalysisData
  | PositionAnalysisData.

Inductive dataframe : Type :=
  | MainDashboardFrame (rows : list MainDashboard.row)
  | TeamSummaryFrame (rows : list TeamSummary.row)
  | PlayerComparisonFrame (rows : list PlayerComparison.row)
  | ValueAnalysisFrame (rows : list ValueAnalysis.row)
  | PositionAnalysisFrame (rows : list PositionAnalysis.row).

Definition len (df : dataframe) : nat :=
  match df with
  | MainDashboardFrame rows => List.length rows
  | TeamSummaryFrame rows => List.length rows
  | PlayerComparisonFrame rows => List.length rows
  | ValueAnalysisFrame rows => List.length rows
  | PositionAnalysisFrame rows => List.length rows
  end.

(** A raised Python exception: whether it derives from [Exception] (and is
    caught by [except Exception]), its [str], and the text
    [traceback.format_exc()] gives for it. *)
Record exn : Type := {
  is_Exception : bool;
  str : string;
  format_exc : string
}.

(** What the run does, in order. *)
Inductive event : Type :=
  | Logged (l : level) (msg : string)
  | Queried (d : derivation)
  | Wrote (file : string) (df : dataframe)
  | Closed.

Record db_config : Type := {
  host : string;
  user : string;
  password : string;
  database : string
}.

(** [mysql.connector.connect]: raises [Error], or returns a connection whose
    [is_connected()] is the given flag. *)
Inductive connect_outcome : Type :=
  | ConnectRaises (e : string)
  | ConnectReturns (connected : bool).

Inductive connection : Type := Connection.

(** Everything outside the script: the configuration module, the database
    server and its two tables, the file system. *)
Record world : Type := {
  DB_CONFIG : db_config;
  mysql_connect : string -> string -> string -> string -> connect_outcome;
  player_merged_stats : list Stats.row;
  player_salaries : list Salaries.row;
  (** the collation of the text columns of the two tables *)
  table_collation : collation;
  (** [pd.read_sql] raising for a derivation's query *)
  read_sql_raises : derivation -> option exn;
  (** [DataFrame.to_csv] raising for a file *)
  to_csv_raises : string -> option exn;
  (** [connection.is_connected()] when the [finally] block runs *)
  is_connected_at_exit : bool
}.

(** *** Statements: a trace of events and a normal or exceptional result *)

Inductive result (A : Type) : Type :=
  | Ok (a : A)
  | Raise (e : exn).
Arguments Ok {A} a.
Arguments Raise {A} e.

Definition M (A : Type) : Type := list event -> result A * list event.

Definition ret {A : Type} (a : A) : M A := fun s => (Ok a, s).

Definition bind {A B : Type} (m : M A) (f : A -> M B) : M B :=
  fun s =>
    match m s with
    | (Ok a, s') => f a s'
    | (Raise e, s') => (Raise e, s')
    end.

Definition emit (e : event) : M unit := fun s => (Ok tt, s ++ [e]).

Definition raise {A : Type} (e : exn) : M A := fun s => (Raise e, s).

(** [try: body  except Exception as e: handler e]. *)
Definition try_except {A : Type} (body : M A) (handler : exn -> M A) : M A :=
  fun s =>
    match body s with
    | (Ok a, s') => (Ok a, s')
    | (Raise e, s') =>
        if is_Exception e then handler e s' else (Raise e, s')
    end.

(** [try: body  finally: cleanup]. *)
Definition try_finally {A : Type} (body : M A) (cleanup : M unit) : M A :=
  fun s =>
    match body s with
    | (r, s') =>
        match cleanup s' with
        | (Ok _, s'') => (r, s'')
        | (Raise e, s'') => (Raise e, s'')
        end
    end.

Declare Scope script_scope.
Notation "x <- m ;; k" := (bind m (fun x => k))
  (at level 61, m at next level, right associativity) : script_scope.
Notation "m ;; k" := (bind m (fun _ => k))
  (at level 61, right associativity) : script_scope.
Local Open Scope script_scope.

Definition logging (l : level) (msg : string) : M unit := emit (Logged l msg).

(** f-string helpers: [{n}] and [{n:,}]. *)
Definition fmt (n : nat) : string := NilEmpty.string_of_uint (Nat.to_uint n).

Fixpoint commas_rev (rev_digits : list ascii) (seen : nat) : list ascii :=
  match rev_digits with
  | [] => []
  | c :: l =>
      if Nat.eqb seen 3 then ","%char :: c :: commas_rev l 1
      else c :: commas_rev l (S seen)
  end.

Definition fmt_commas (n : nat) : string :=
  string_of_list_ascii
    (rev (commas_rev (rev (list_ascii_of_string (fmt n))) 0)).

Definition nl : string := String "010"%char EmptyString.

Definition rule : string :=
  "============================================================".

(** *** [connect_to_database] *)
Definition connect_to_database (w : world) (cfg : db_config)
    : M (option connection) :=
  match mysql_connect w (host cfg) (user cfg) (password cfg) (database cfg) with
  | ConnectReturns true =>
      logging INFO "Connected to MySQL database" ;;
      ret (Some Connection)
  | ConnectReturns false => ret None
  | ConnectRaises e =>
      logging ERROR ("Error connecting to MySQL: " ++ e)%string ;;
      ret None
  end.

(** *** [pd.read_sql], [DataFrame.to_csv], [connection.close] *)

(** The result set of a derivation's query on the server's tables.
    Warnings of the server are not raised by the connector. *)
Definition run_query (w : world) (d : derivation) : dataframe :=
  let stats := player_merged_stats w in
  let salaries := player_salaries w in
  let coll := table_collation w in
  match d with
  | MainDashboardData =>
      MainDashboardFrame (value (main_dashboard_query stats salaries))
  | TeamSummaryData =>
      TeamSummaryFrame (value (team_summary_query stats salaries))
  | PlayerComparisonData =>
      PlayerComparisonFrame (value (player_comparison_query stats salaries))
  | ValueAnalysisData =>
      ValueAnalysisFrame (value (value_analysis_query stats salaries))
  | PositionAnalysisData =>
      PositionAnalysisFrame (value (position_analysis_query stats salaries))
  end.

Definition read_sql (w : world) (d : derivation) (c : connection)
    : M dataframe :=
  emit (Queried d) ;;
  match read_sql_raises w d with
  | Some e => raise e
  | None => ret (run_query w d)
  end.

(** A write that raises leaves no finished file. *)
Definition to_csv (w : world) (df : dataframe) (file : string) : M unit :=
  match to_csv_raises w file with
  | Some e => raise e
  | None => emit (Wrote file df)
  end.

Definition close (c : connection) : M unit := emit Closed.

(** *** The five [create_*] functions *)

Definition create_main_dashboard_data (w : world) (c : connection)
    : M dataframe :=
  logging INFO "Fetching main dashboard data..." ;;
  df <- read_sql w MainDashboardData c ;;
  logging INFO ("Fetched " ++ fmt (len df) ++ " player-season records")%string ;;
  ret df.

Definition create_team_summary_data (w : world) (c : connection)
    : M dataframe :=
  logging INFO "Fetching team summary data..." ;;
  df <- read_sql w TeamSummaryData c ;;
  logging INFO ("Fetched " ++ fmt (len df) ++ " team-season records")%string ;;
  ret df.

Definition create_player_comparison_data (w : world) (c : connection)
    : M dataframe :=
  logging INFO "Fetching player comparison data..." ;;
  df <- read_sql w PlayerComparisonData c ;;
  logging INFO
    ("Fetched " ++ fmt (len df) ++ " player comparison records")%string ;;
  ret df.

Definition create_value_analysis_data (w : world) (c : connection)
    : M dataframe :=
  logging INFO "Fetching value analysis data..." ;;
  df <- read_sql w ValueAnalysisData c ;;
  logging INFO
    ("Fetched " ++ fmt (len df) ++ " value analysis records")%string ;;
  ret df.

Definition create_position_analysis_data (w : world) (c : connection)
    : M dataframe :=
  logging INFO "Fetching position analysis data..." ;;
  df <- read_sql w PositionAnalysisData c ;;
  logging INFO
    ("Fetched " ++ fmt (len df) ++ " position analysis records")%string ;;
  ret df.

(** *** [main] *)

(** The body of the [try] block. *)
Definition create_datasets (w : world) (c : connection) : M unit :=
  logging INFO rule ;;
  logging INFO "Creating Tableau-ready datasets from merged stats..." ;;
  logging INFO rule ;;
  main_df <- create_main_dashboard_data w c ;;
  to_csv w main_df "tableau_main_dashboard.csv" ;;
  logging INFO "✓ Created: tableau_main_dashboard.csv" ;;
  team_df <- create_team_summary_data w c ;;
  to_csv w team_df "tableau_team_summary.csv" ;;
  logging INFO "✓ Created: tableau_team_summary.csv" ;;
  comparison_df <- create_player_comparison_data w c ;;
  to_csv w comparison_df "tableau_player_comparison.csv" ;;
  logging INFO "✓ Created: tableau_player_comparison.csv" ;;
  value_df <- create_value_analysis_data w c ;;
  to_csv w value_df "tableau_value_analysis.csv" ;;
  logging INFO "✓ Created: tableau_value_analysis.csv" ;;
  position_df <- create_position_analysis_data w c ;;
  to_csv w position_df "tableau_position_analysis.csv" ;;
  logging INFO "✓ Created: tableau_position_analysis.csv" ;;
  logging INFO rule ;;
  logging INFO "TABLEAU DATA PREPARATION COMPLETE!" ;;
  logging INFO rule ;;
  logging INFO (nl ++ "Datasets created:")%string ;;
  logging INFO
    ("  1. tableau_main_dashboard.csv      - "
       ++ fmt_commas (len main_df) ++ " records")%string ;;
  logging INFO
    ("  2. tableau_team_summary.csv        - "
       ++ fmt_commas (len team_df) ++ " records")%string ;;
  logging INFO
    ("  3. tableau_player_comparison.csv   - "
       ++ fmt_commas (len comparison_df) ++ " records")%string ;;
  logging INFO
    ("  4. tableau_value_analysis.csv      - "
       ++ fmt_commas (len value_df) ++ " records")%string ;;
  logging INFO
    ("  5. tableau_position_analysis.csv   - "
       ++ fmt_commas (len position_df) ++ " records")%string ;;
  logging INFO (nl ++ "These files are ready to import into Tableau!")%string ;;
  logging INFO (nl ++ "New features in this update:")%string ;;
  logging INFO "  • Complete advanced metrics (PER, TS%, VORP, BPM, WS)" ;;
  logging INFO "  • Win shares and impact metrics" ;;
  logging INFO "  • Defensive and offensive ratings" ;;
  logging INFO "  • Award tracking and All-Star status" ;;
  logging INFO "  • Comprehensive value calculations".

(** The [except Exception as e] handler. *)
Definition log_failure (e : exn) : M unit :=
  logging ERROR ("Error creating datasets: " ++ str e)%string ;;
  logging ERROR (format_exc e).

(** The [finally] block. *)
Definition release (w : world) (c : connection) : M unit :=
  if is_connected_at_exit w then
    close c ;;
    logging INFO (nl ++ "Database connection closed")%string
  else ret tt.

Definition main (w : world) : M unit :=
  connection <- connect_to_database w (DB_CONFIG w) ;;
  match connection with
  | None => logging ERROR "Failed to connect to database"
  | Some c =>
      try_finally (try_except (create_datasets w c) log_failure) (release w c)
  end.

(** A run starts with an empty trace. *)
Definition run (w : world) : result unit * list event := main w [].

Definition trace (w : world) : list event := snd (run w).

(** *** Observations on a trace *)

Fixpoint files_written (t : list event) : list string :=
  match t with
  | [] => []
  | Wrote file _ :: t' => file :: files_written t'
  | _ :: t' => files_written t'
  end.

Fixpoint queries_run (t : list event) : list derivation :=
  match t with
  | [] => []
  | Queried d :: t' => d :: queries_run t'
  | _ :: t' => queries_run t'
  end.

Fixpoint close_count (t : list event) : nat :=
  match t with
  | [] => 0%nat
  | Closed :: t' => S (close_count t')
  | _ :: t' => close_count t'
  end.

(** What happens after the connection is closed. *)
Fixpoint after_close (t : list event) : list event :=
  match t with
  | [] => []
  | Closed :: t' => t'
  | _ :: t' => after_close t'
  end.

Fixpoint errors_logged (t : list event) : list string :=
  match t with
  | [] => []
  | Logged ERROR msg :: t' => msg :: errors_logged t'
  | _ :: t' => errors_logged t'
  end.

Local Close Scope script_scope.

(* ================================================================== *)
(** ** Specification-side definitions *)
(* ================================================================== *)

(** "Ordered bucket rules, first matching bucket wins": the reading of a
    bucketed field the specification gives, to be compared with the CASE
    expressions above. *)
Fixpoint first_match (buckets : list (tri * string)) (otherwise : string)
    : string :=
  match buckets with
  | [] => otherwise
  | (condition, label) :: rest =>
      if is_true condition then label else first_match rest otherwise
  end.

Definition labels (buckets : list (tri * string)) (otherwise : string)
    : list string :=
  map snd buckets ++ [otherwise].

(** The same reading as a relation: [label] belongs to the first bucket
    whose condition is TRUE, every bucket before it being skipped, or it is
    the ELSE label when no condition is TRUE. *)
Definition first_true_bucket (buckets : list (tri * string))
    (otherwise label : string) : Prop :=
  (exists skipped condition rest,
      buckets = skipped ++ (condition, label) :: rest /\
      Forall (fun b => is_true (fst b) = false) skipped /\
      is_true condition = true) \/
  (Forall (fun b => is_true (fst b) = false) buckets /\ label = otherwise).

(** A field is bucketed by a bucket list when it is the first match, the
    only label the relation picks, and one of the list's labels. *)
Definition bucketed_by (buckets : list (tri * string)) (otherwise : string)
    (field : string) : Prop :=
  field = first_match buckets otherwise /\
  (forall label, first_true_bucket buckets otherwise label <-> label = field) /\
  In field (labels buckets otherwise).

Definition salary_tier_buckets (salary_rank : num) : list (tri * string) :=
  [ (sql_le salary_rank (lit 10), "Top 10 (Supermax)");
    (sql_le salary_rank (lit 30), "Top 30 (Max)");
    (sql_le salary_rank (lit 50), "Top 50");
    (sql_le salary_rank (lit 100), "Top 100");
    (sql_le salary_rank (lit 200), "Top 200") ].

Definition scoring_tier_buckets (ppg : num) : list (tri * string) :=
  [ (sql_ge ppg (lit 25), "Elite Scorer (25+ PPG)");
    (sql_ge ppg (lit 20), "All-Star (20-25 PPG)");
    (sql_ge ppg (lit 15), "Starter (15-20 PPG)");
    (sql_ge ppg (lit 10), "Role Player (10-15 PPG)") ].

Definition impact_tier_buckets (vorp : num) : list (tri * string) :=
  [ (sql_ge vorp (lit 6.0), "Superstar (6+ VORP)");
    (sql_ge vorp (lit 4.0), "Star (4-6 VORP)");
    (sql_ge vorp (lit 2.0), "Above Average (2-4 VORP)");
    (sql_ge vorp (lit 0), "Average (0-2 VORP)") ].

Definition value_category_buckets (salary_rank vorp : num)
    : list (tri * string) :=
  [ (sql_and (sql_le salary_rank (lit 50)) (sql_ge vorp (lit 4.0)),
     "Star - Excellent Value");
    (sql_and (sql_le salary_rank (lit 50)) (sql_ge vorp (lit 2.0)),
     "Star - Fair Value");
    (sql_and (sql_le salary_rank (lit 50)) (sql_lt vorp (lit 2.0)),
     "Star - Overpaid");
    (sql_and (sql_gt salary_rank (lit 50)) (sql_ge vorp (lit 4.0)),
     "Hidden Gem");
    (sql_and (sql_gt salary_rank (lit 50)) (sql_ge vorp (lit 2.0)),
     "Good Value");
    (sql_and (sql_gt salary_rank (lit 50)) (sql_ge vorp (lit 0)),
     "Fair Value") ].

(** The trend buckets compare the current value with the previous one,
    a missing previous value counting as 0, at distance [step]. *)
Definition trend_buckets (step : Q) (up2 up1 down2 down1 : string)
    (current previous : num) : list (tri * string) :=
  [ (sql_gt current (sql_add (IFNULL previous 0) (lit step)), up2);
    (sql_gt current (IFNULL previous 0), up1);
    (sql_lt current (sql_sub (IFNULL previous 0) (lit step)), down2);
    (sql_lt current (IFNULL previous 0), down1) ].

Definition performance_trend_buckets : num -> num -> list (tri * string) :=
  trend_buckets 2 "Significantly Improved" "Improved"
    "Significantly Declined" "Declined".

Definition impact_trend_buckets : num -> num -> list (tri * string) :=
  trend_buckets 1 "Breakout" "Improving" "Regression" "Declining".

(** All thirteen previous-season fields of a comparison row are NULL. *)
Definition no_previous_fields (r : PlayerComparison.row) : Prop :=
  PlayerComparison.previous_season r = None /\
  PlayerComparison.previous_team r = None /\
  PlayerComparison.previous_salary r = None /\
  PlayerComparison.previous_salary_rank r = None /\
  PlayerComparison.previous_games r = None /\
  PlayerComparison.previous_ppg r = None /\
  PlayerComparison.previous_rpg r = None /\
  PlayerComparison.previous_apg r = None /\
  PlayerComparison.previous_PER r = None /\
  PlayerComparison.previous_TS_pct r = None /\
  PlayerComparison.previous_WS r = None /\
  PlayerComparison.previous_VORP r = None /\
  PlayerComparison.previous_BPM r = None.

(** The previous-season statistics of a comparison row are those of the
    stats row [p]. *)
Definition previous_fields_of (r : PlayerComparison.row) (p : Stats.row)
    : Prop :=
  PlayerComparison.previous_season r = Stats.season p /\
  PlayerComparison.previous_team r = Stats.team p /\
  PlayerComparison.previous_games r = Stats.games_played p /\
  PlayerComparison.previous_ppg r = Stats.pg_points p /\
  PlayerComparison.previous_rpg r = Stats.pg_rebounds p /\
  PlayerComparison.previous_apg r = Stats.pg_assists p /\
  PlayerComparison.previous_PER r = Stats.adv_player_efficiency_rating p /\
  PlayerComparison.previous_TS_pct r = Stats.adv_true_shooting_pct p /\
  PlayerComparison.previous_WS r = Stats.adv_win_shares p /\
  PlayerComparison.previous_VORP r = Stats.adv_value_over_replacement p /\
  PlayerComparison.previous_BPM r = Stats.adv_box_plus_minus p.

(** A strictly positive, non-null number. *)
Definition positive (a : num) : Prop := exists q, a = Some q /\ 0 < q.

(** Null, zero or negative. *)
Definition null_or_not_positive (a : num) : Prop :=
  match a with
  | None => True
  | Some q => q <= 0
  end.

(** Equality of nullable numbers up to the representation of rationals. *)
Definition num_eq (a b : num) : Prop :=
  match a, b with
  | Some x, Some y => x == y
  | None, None => True
  | _, _ => False
  end.

(** Two texts are the same under the collation: neither is NULL and their
    weights are equal. *)
Definition same_text {coll : collation} (a b : text) : Prop :=
  exists x y, a = Some x /\ b = Some y /\ weight x = weight y.

(** A stats row has no salary record: none for the same player and season
    under the collation. *)
Definition unsalaried {coll : collation} (pms : Stats.row)
    (salaries : list Salaries.row) : Prop :=
  forall ps, In ps salaries -> is_true (salary_join pms ps) = false.

(** An amount with at most three decimals (whole units, cents, mills). *)
Definition three_decimals (c : Q) : Prop :=
  exists z : Z, c * 1000 == inject_Z z.

(** The order of the five derivations in [main], their files, and the
    derivations completed before the first one that raises. *)
Definition derivations : list derivation :=
  [ MainDashboardData; TeamSummaryData; PlayerComparisonData;
    ValueAnalysisData; PositionAnalysisData ].

Definition csv_file (d : derivation) : string :=
  match d with
  | MainDashboardData => "tableau_main_dashboard.csv"
  | TeamSummaryData => "tableau_team_summary.csv"
  | PlayerComparisonData => "tableau_player_comparison.csv"
  | ValueAnalysisData => "tableau_value_analysis.csv"
  | PositionAnalysisData => "tableau_position_analysis.csv"
  end.

(** The exception a derivation raises, from its query or else its write. *)
Definition failure (w : world) (d : derivation) : option exn :=
  match read_sql_raises w d with
  | Some e => Some e
  | None => to_csv_raises w (csv_file d)
  end.

Fixpoint completed_before_failure (w : world) (ds : list derivation)
    : list derivation :=
  match ds with
  | [] => []
  | d :: ds' =>
      match failure w d with
      | Some _ => []
      | None => d :: completed_before_failure w ds'
      end
  end.

Fixpoint attempted (w : world) (ds : list derivation) : list derivation :=
  match ds with
  | [] => []
  | d :: ds' =>
      match failure w d with
      | Some _ => [d]
      | None => d :: attempted w ds'
      end
  end.

Fixpoint first_failure (w : world) (ds : list derivation) : option exn :=
  match ds with
  | [] => None
  | d :: ds' =>
      match failure w d with
      | Some e => Some e
      | None => first_failure w ds'
      end
  end.

(** [connect_to_database] hands a connection to [main]. *)
Definition connects (w : world) : bool :=
  match mysql_connect w (host (DB_CONFIG w)) (user (DB_CONFIG w))
          (password (DB_CONFIG w)) (database (DB_CONFIG w)) with
  | ConnectReturns true => true
  | _ => false
  end.

(** *** Thresholds of the bucketed fields, as disjoint ranges *)

(** The value of a nullable number is in a range. *)
Definition within (a : num) (range : Q -> Prop) : Prop :=
  exists q, a = Some q /\ range q.

(** Both values are there and related. *)
Definition within2 (a b : num) (range : Q -> Q -> Prop) : Prop :=
  exists x y, a = Some x /\ b = Some y /\ range x y.

Definition salary_tier_ranges (salary_rank : num) (label : string) : Prop :=
  (label = "Top 10 (Supermax)" <-> within salary_rank (fun k => k <= 10)) /\
  (label = "Top 30 (Max)" <-> within salary_rank (fun k => 10 < k <= 30)) /\
  (label = "Top 50" <-> within salary_rank (fun k => 30 < k <= 50)) /\
  (label = "Top 100" <-> within salary_rank (fun k => 50 < k <= 100)) /\
  (label = "Top 200" <-> within salary_rank (fun k => 100 < k <= 200)) /\
  (label = "Other" <->
   salary_rank = None \/ within salary_rank (fun k => 200 < k)).

Definition scoring_tier_ranges (ppg : num) (label : string) : Prop :=
  (label = "Elite Scorer (25+ PPG)" <-> within ppg (fun p => 25 <= p)) /\
  (label = "All-Star (20-25 PPG)" <-> within ppg (fun p => 20 <= p < 25)) /\
  (label = "Starter (15-20 PPG)" <-> within ppg (fun p => 15 <= p < 20)) /\
  (label = "Role Player (10-15 PPG)" <->
   within ppg (fun p => 10 <= p < 15)) /\
  (label = "Bench Player (<10 PPG)" <->
   ppg = None \/ within ppg (fun p => p < 10)).

Definition impact_tier_ranges (vorp : num) (label : string) : Prop :=
  (label = "Superstar (6+ VORP)" <-> within vorp (fun v => 6 <= v)) /\
  (label = "Star (4-6 VORP)" <-> within vorp (fun v => 4 <= v < 6)) /\
  (label = "Above Average (2-4 VORP)" <->
   within vorp (fun v => 2 <= v < 4)) /\
  (label = "Average (0-2 VORP)" <-> within vorp (fun v => 0 <= v < 2)) /\
  (label = "Below Average (<0 VORP)" <->
   vorp = None \/ within vorp (fun v => v < 0)).

Definition value_category_ranges (salary_rank vorp : num) (label : string)
    : Prop :=
  (label = "Star - Excellent Value" <->
   within2 salary_rank vorp (fun k v => k <= 50 /\ 4 <= v)) /\
  (label = "Star - Fair Value" <->
   within2 salary_rank vorp (fun k v => k <= 50 /\ 2 <= v < 4)) /\
  (label = "Star - Overpaid" <->
   within2 salary_rank vorp (fun k v => k <= 50 /\ v < 2)) /\
  (label = "Hidden Gem" <->
   within2 salary_rank vorp (fun k v => 50 < k /\ 4 <= v)) /\
  (label = "Good Value" <->
   within2 salary_rank vorp (fun k v => 50 < k /\ 2 <= v < 4)) /\
  (label = "Fair Value" <->
   within2 salary_rank vorp (fun k v => 50 < k /\ 0 <= v < 2)) /\
  (label = "Below Average" <->
   salary_rank = None \/ vorp = None \/
   within2 salary_rank vorp (fun k v => 50 < k /\ v < 0)).

(** A missing previous value counts as 0. *)
Definition or_zero (a : num) : Q :=
  match a with
  | Some q => q
  | None => 0
  end.

Definition trend_ranges (step : Q) (up2 up1 down2 down1 level : string)
    (current previous : num) (label : string) : Prop :=
  (label = up2 <->
   within current (fun c => or_zero previous + step < c)) /\
  (label = up1 <->
   within current
     (fun c => or_zero previous < c <= or_zero previous + step)) /\
  (label = down2 <->
   within current (fun c => c < or_zero previous - step)) /\
  (label = down1 <->
   within current
     (fun c => or_zero previous - step <= c < or_zero previous)) /\
  (label = level <->
   current = None \/ within current (fun c => c == or_zero previous)).

(** Two salary records are about the same player and season, under the
    collation. *)
Definition same_player_season {coll : collation} (a b : Salaries.row)
    : Prop :=
  same_text (Salaries.player_name a) (Salaries.player_name b) /\
  same_text (Salaries.season a) (Salaries.season b).

(** The salary table holds at most one record per player and season. *)
Definition one_salary_per_player_season {coll : collation}
    (salaries : list Salaries.row) : Prop :=
  ForallOrdPairs (fun a b => ~ same_player_season a b) salaries.

(** The stats rows the main dashboard asks for. *)
Definition ten_games (pms : Stats.row) : bool :=
  is_true (sql_ge (Stats.games_played pms) (lit 10)).

(** What the run does to the database and the file system: the trace
    without its log records. *)
Fixpoint io_events (t : list event) : list event :=
  match t with
  | [] => []
  | Logged _ _ :: t' => io_events t'
  | e :: t' => e :: io_events t'
  end.

(** The query of each derivation in turn, then the write of its result to
    its file, up to the first query or write that raises. *)
Fixpoint queries_and_writes (w : world) (ds : list derivation) : list event :=
  match ds with
  | [] => []
  | d :: ds' =>
      Queried d ::
      match read_sql_raises w d with
      | Some _ => []
      | None =>
          match to_csv_raises w (csv_file d) with
          | Some _ => []
          | None =>
              Wrote (csv_file d) (run_query w d) :: queries_and_writes w ds'
          end
      end
  end.

(** [ORDER BY k1 DESC, k2 DESC] in terms of the comparisons: [a] has the
    greater first key, or the same first key and a second key that is not
    smaller (NULL being the smallest). *)
Definition not_after {coll : collation} {A : Type} (k1 : A -> text)
    (k2 : A -> num) (a b : A) : Prop :=
  text_compare (k1 a) (k1 b) = Gt \/
  (text_compare (k1 a) (k1 b) = Eq /\ num_compare (k2 a) (k2 b) <> Lt).

(** What GROUP BY sees of a key: the weight of a text, NULL for NULL. *)
Definition key_weight {coll : collation} (a : text) : option string :=
  option_map weight a.

Definition key2_weight {coll : collation} (k : text * text)
    : option string * option string :=
  (key_weight (fst k), key_weight (snd k)).


(** The decimal numeral of a year, as season labels start with it. *)
Definition year_numeral (y : N) : string :=
  NilEmpty.string_of_uint (N.to_uint y).

(** The numbers [start], [start + 1], ..., [n] of them. *)
Fixpoint count_from (start : N) (n : nat) : list N :=
  match n with
  | O => []
  | S n' => start :: count_from (N.succ start) n'
  end.

(** The awards text mentions [pat]: it is there and a stretch of it matches
    [pat] as LIKE compares under the collation. *)
Definition mentions {coll : collation} (awards : text) (pat : string)
    : Prop :=
  exists before mid after,
    awards = Some (before ++ mid ++ after)%string /\ like_eqb pat mid = true.

(** An award flag is 1 when the awards text mentions the award and 0 when
    it does not, never NULL. *)
Definition flags {coll : collation} (awards : text) (pat : string)
    (flag : num) : Prop :=
  (flag = Some 1 <-> mentions awards pat) /\
  (flag = Some 0 <-> ~ mentions awards pat).

(* ================================================================== *)
(** ** Sample data *)
(* ================================================================== *)

(** Two collations: the binary one, which compares bytes, and one that
    ignores the case of the letters A to Z, as the server's default
    collations do. *)
Definition binary : collation :=
  {| weight := fun s => s; like_eqb := String.eqb |}.

Definition upper (c : ascii) : ascii :=
  let n := N_of_ascii c in
  if ((97 <=? n) && (n <=? 122))%N then ascii_of_N (n - 32) else c.

Fixpoint upper_case (s : string) : string :=
  match s with
  | EmptyString => EmptyString
  | String c s' => String (upper c) (upper_case s')
  end.

Definition case_insensitive : collation :=
  {| weight := upper_case;
     like_eqb := fun pat s => String.eqb (upper_case pat) (upper_case s) |}.

(** The sample runs below are under the case-insensitive collation. *)
#[global] Existing Instance case_insensitive.

Definition blank_stats : Stats.row :=
  {| Stats.player_name := None; Stats.season := None; Stats.team := None;
     Stats.position := None; Stats.age := None; Stats.games_played := None;
     Stats.games_started := None; Stats.games_started_percentage := None;
     Stats.awards := None; Stats.pg_minutes_played := None;
     Stats.pg_points := None; Stats.pg_rebounds := None;
     Stats.pg_assists := None; Stats.pg_steals := None;
     Stats.pg_blocks := None; Stats.pg_turnovers := None;
     Stats.pg_personal_fouls := None; Stats.pg_field_goal_pct := None;
     Stats.pg_three_point_pct := None; Stats.pg_free_throw_pct := None;
     Stats.pg_effective_fg_pct := None; Stats.pg_three_pointers := None;
     Stats.pg_three_point_attempts := None; Stats.total_points := None;
     Stats.total_rebounds := None; Stats.total_assists := None;
     Stats.total_steals := None; Stats.total_blocks := None;
     Stats.adv_player_efficiency_rating := None;
     Stats.adv_true_shooting_pct := None; Stats.adv_usage_pct := None;
     Stats.adv_offensive_rebound_pct := None;
     Stats.adv_defensive_rebound_pct := None;
     Stats.adv_total_rebound_pct := None; Stats.adv_assist_pct := None;
     Stats.adv_steal_pct := None; Stats.adv_block_pct := None;
     Stats.adv_turnover_pct := None; Stats.adv_offensive_win_shares := None;
     Stats.adv_defensive_win_shares := None; Stats.adv_win_shares := None;
     Stats.adv_win_shares_per_48 := None;
     Stats.adv_offensive_box_plus_minus := None;
     Stats.adv_defensive_box_plus_minus := None;
     Stats.adv_box_plus_minus := None;
     Stats.adv_value_over_replacement := None |}.

(** A stats row with the columns the derived fields read; the others are
    NULL. *)
Definition player (name season team : string) (position : text)
    (games ppg ws vorp : Q) : Stats.row :=
  {| Stats.player_name := Some name; Stats.season := Some season;
     Stats.team := Some team; Stats.position := position; Stats.age := None;
     Stats.games_played := Some games;
     Stats.games_started := None; Stats.games_started_percentage := None;
     Stats.awards := None; Stats.pg_minutes_played := None;
     Stats.pg_points := Some ppg; Stats.pg_rebounds := None;
     Stats.pg_assists := None; Stats.pg_steals := None;
     Stats.pg_blocks := None; Stats.pg_turnovers := None;
     Stats.pg_personal_fouls := None; Stats.pg_field_goal_pct := None;
     Stats.pg_three_point_pct := None; Stats.pg_free_throw_pct := None;
     Stats.pg_effective_fg_pct := None; Stats.pg_three_pointers := None;
     Stats.pg_three_point_attempts := None; Stats.total_points := None;
     Stats.total_rebounds := None; Stats.total_assists := None;
     Stats.total_steals := None; Stats.total_blocks := None;
     Stats.adv_player_efficiency_rating := None;
     Stats.adv_true_shooting_pct := None; Stats.adv_usage_pct := None;
     Stats.adv_offensive_rebound_pct := None;
     Stats.adv_defensive_rebound_pct := None;
     Stats.adv_total_rebound_pct := None; Stats.adv_assist_pct := None;
     Stats.adv_steal_pct := None; Stats.adv_block_pct := None;
     Stats.adv_turnover_pct := None; Stats.adv_offensive_win_shares := None;
     Stats.adv_defensive_win_shares := None; Stats.adv_win_shares := Some ws;
     Stats.adv_win_shares_per_48 := None;
     Stats.adv_offensive_box_plus_minus := None;
     Stats.adv_defensive_box_plus_minus := None;
     Stats.adv_box_plus_minus := None;
     Stats.adv_value_over_replacement := Some vorp |}.

Definition contract (name season : string) (amount rank : Q)
    : Salaries.row :=
  {| Salaries.player_name := Some name; Salaries.season := Some season;
     Salaries.salary := Some amount; Salaries.salary_formatted := None;
     Salaries.salary_rank := Some rank |}.

Definition guard_a_24 : Stats.row :=
  player "A" "2023-24" "BOS" (Some "PG") 30 20 5 3.
Definition guard_a_23 : Stats.row :=
  player "A" "2022-23" "BOS" (Some "PG") 60 18 4 2.
Definition wing_b_24 : Stats.row :=
  player "B" "2023-24" "BOS" (Some "SF") 70 12 3 1.
Definition unlisted_c_24 : Stats.row :=
  player "C" "2023-24" "NYK" None 50 9 1 0.
Definition veteran_d_22 : Stats.row :=
  player "D" "2021-22" "LAL" (Some "C") 45 11 2 1.

Definition a_contract_24 : Salaries.row := contract "A" "2023-24" 10000000 5.
Definition a_contract_23_zero : Salaries.row := contract "A" "2022-23" 0 400.
Definition a_contract_24_mills : Salaries.row :=
  contract "A" "2023-24" 1.0004 450.

Definition scoreless_e_24 : Stats.row :=
  player "E" "2023-24" "MIA" (Some "C") 12 0 1 0.
Definition e_contract_24 : Salaries.row := contract "E" "2023-24" 2000000 300.

Definition benched_a_23 : Stats.row :=
  player "A" "2022-23" "BOS" (Some "PG") 5 4 0 0.

(** Rows of the comparison join over the sample tables. *)
Definition paired_join : comparison_join :=
  {| curr := guard_a_24; curr_sal := Some a_contract_24;
     prev := Some guard_a_23; prev_sal := None |}.

Definition first_season_join : comparison_join :=
  {| curr := guard_a_24; curr_sal := Some a_contract_24_mills;
     prev := None; prev_sal := None |}.

Definition rookie_join : comparison_join :=
  {| curr := guard_a_24; curr_sal := Some a_contract_24;
     prev := None; prev_sal := None |}.

Definition error (msg : string) : exn :=
  {| is_Exception := true; str := msg; format_exc := "Traceback" |}.

Definition sample_config : db_config :=
  {| host := "localhost"; user := "nba"; password := "secret";
     database := "nba_stats" |}.

(** A healthy run. *)
Definition world_ok : world :=
  {| DB_CONFIG := sample_config;
     mysql_connect := fun _ _ _ _ => ConnectReturns true;
     player_merged_stats := [guard_a_24; guard_a_23; wing_b_24];
     player_salaries := [a_contract_24];
     table_collation := case_insensitive;
     read_sql_raises := fun _ => None;
     to_csv_raises := fun _ => None;
     is_connected_at_exit := true |}.

(** The server refuses the connection. *)
Definition world_refused : world :=
  {| DB_CONFIG := sample_config;
     mysql_connect := fun _ _ _ _ => ConnectRaises "Access denied";
     player_merged_stats := [guard_a_24];
     player_salaries := [a_contract_24];
     table_collation := case_insensitive;
     read_sql_raises := fun _ => None;
     to_csv_raises := fun _ => None;
     is_connected_at_exit := false |}.

(** Only the first query raises. *)
Definition world_first_query_fails : world :=
  {| DB_CONFIG := sample_config;
     mysql_connect := fun _ _ _ _ => ConnectReturns true;
     player_merged_stats := [guard_a_24];
     player_salaries := [a_contract_24];
     table_collation := case_insensitive;
     read_sql_raises :=
       fun d =>
         match d with
         | MainDashboardData => Some (error "Unknown column")
         | _ => None
         end;
     to_csv_raises := fun _ => None;
     is_connected_at_exit := true |}.

(** The third file cannot be written. *)
Definition world_third_write_fails : world :=
  {| DB_CONFIG := sample_config;
     mysql_connect := fun _ _ _ _ => ConnectReturns true;
     player_merged_stats := [guard_a_24];
     player_salaries := [a_contract_24];
     table_collation := case_insensitive;
     read_sql_raises := fun _ => None;
     to_csv_raises :=
       fun f =>
         if String.eqb f "tableau_player_comparison.csv"
         then Some (error "Permission denied")
         else None;
     is_connected_at_exit := true |}.

(** The server goes away during the second query. *)
Definition world_server_gone : world :=
  {| DB_CONFIG := sample_config;
     mysql_connect := fun _ _ _ _ => ConnectReturns true;
     player_merged_stats := [guard_a_24];
     player_salaries := [a_contract_24];
     table_collation := case_insensitive;
     read_sql_raises :=
       fun d =>
         match d with
         | MainDashboardData => None
         | _ => Some (error "MySQL server has gone away")
         end;
     to_csv_raises := fun _ => None;
     is_connected_at_exit := false |}.

(* ================================================================== *)
(** ** Basic facts about the SQL layer *)
(* ================================================================== *)

Lemma value_wbind {A B : Type} (m : W A) (f : A -> W B) :
  value (wbind m f) = value (f (value m)).
Proof.
  unfold wbind, value. destruct m as [a n]. simpl.
  destruct (f a). reflexivity.
Qed.

Lemma warnings_wbind {A B : Type} (m : W A) (f : A -> W B) :
  division_warnings (wbind m f)
  = (division_warnings m + division_warnings (f (value m)))%nat.
Proof.
  unfold wbind, value, division_warnings. destruct m as [a n]. simpl.
  destruct (f a). reflexivity.
Qed.

Section Warnings.
Context {A B : Type}.

Lemma value_wmap (f : A -> W B) (l : list A) :
  value (wmap f l) = map (fun x => value (f x)) l.
Proof.
  induction l as [|x l IH]; [reflexivity|].
  cbn [wmap]. rewrite !value_wbind. unfold wret at 1. cbn [value fst map].
  now rewrite IH.
Qed.

Lemma warnings_wmap (f : A -> W B) (l : list A) :
  division_warnings (wmap f l)
  = list_sum (map (fun x => division_warnings (f x)) l).
Proof.
  induction l as [|x l IH]; [reflexivity|].
  cbn [wmap map list_sum]. rewrite !warnings_wbind, IH.
  unfold wret, division_warnings. simpl. lia.
Qed.

Lemma warnings_wmap_zero (f : A -> W B) (l : list A) :
  (forall x, In x l -> division_warnings (f x) = 0%nat) ->
  division_warnings (wmap f l) = 0%nat.
Proof.
  intros H. rewrite warnings_wmap.
  induction l as [|x l IH]; [reflexivity|].
  simpl. rewrite (H x (or_introl eq_refl)), IH; [reflexivity|].
  intros y Hy. apply H. now right.
Qed.
End Warnings.

Section Ordering.
Context {A : Type} (before : A -> A -> bool).

Lemma insert_sorted_perm (x : A) (l : list A) :
  Permutation (insert_sorted before x l) (x :: l).
Proof.
  induction l as [|y l IH]; simpl; [reflexivity|].
  destruct (before x y); [reflexivity|].
  rewrite IH. apply perm_swap.
Qed.

Lemma order_by_perm (l : list A) : Permutation (order_by before l) l.
Proof.
  induction l as [|x l IH]; simpl; [reflexivity|].
  rewrite insert_sorted_perm. now constructor.
Qed.

Lemma in_order_by (x : A) (l : list A) :
  In x (order_by before l) <-> In x l.
Proof.
  split; apply Permutation_in;
    [apply order_by_perm | symmetry; apply order_by_perm].
Qed.
End Ordering.

Section Joins.
Context {L R : Type} (on : L -> R -> tri).

Lemma in_left_join (l : L) (o : option R) (left : list L)
    (right : list R) :
  In (l, o) (left_join on left right) <->
  In l left /\
  match o with
  | None => forall r, In r right -> is_true (on l r) = false
  | Some r => In r right /\ is_true (on l r) = true
  end.
Proof.
  unfold left_join. rewrite in_flat_map. split.
  - intros [l' [Hl' Hin]].
    destruct (filter (fun r => is_true (on l' r)) right) as [|m ms] eqn:E.
    + destruct Hin as [Heq|[]]. injection Heq as -> <-.
      split; [assumption|]. intros r Hr.
      destruct (is_true (on l r)) eqn:Er; [|reflexivity].
      assert (Hf : In r (filter (fun r => is_true (on l r)) right))
        by (apply filter_In; now split).
      rewrite E in Hf. destruct Hf.
    + apply in_map_iff in Hin. destruct Hin as [r [Heq Hr]].
      injection Heq as -> <-. rewrite <- E in Hr.
      apply filter_In in Hr. now split.
  - intros [Hl Ho]. exists l. split; [assumption|].
    destruct o as [r|].
    + destruct Ho as [Hr Hon].
      assert (Hf : In r (filter (fun r => is_true (on l r)) right))
        by (apply filter_In; now split).
      destruct (filter (fun r => is_true (on l r)) right) as [|m ms];
        [destruct Hf|].
      apply in_map_iff. now exists r.
    + destruct (filter (fun r => is_true (on l r)) right) as [|m ms] eqn:E;
        [now left|].
      assert (Hm : In m (filter (fun r => is_true (on l r)) right))
        by (rewrite E; now left).
      apply filter_In in Hm. destruct Hm as [Hm Hon].
      rewrite (Ho m Hm) in Hon. discriminate.
Qed.
End Joins.

Lemma in_where {A : Type} (p : A -> tri) (x : A) (l : list A) :
  In x (where_ p l) <-> In x l /\ is_true (p x) = true.
Proof. unfold where_. apply filter_In. Qed.

Section Grouping.
Context {K A : Type} (eqb : K -> K -> bool) (key : A -> K).
Hypothesis eqb_refl : forall k, eqb k k = true.

Lemma add_to_group_new (k : K) (x : A) (gs : list (K * list A)) :
  exists k' xs, In (k', xs) (add_to_group eqb k x gs) /\
                eqb k k' = true /\ In x xs.
Proof.
  induction gs as [|[k0 xs0] gs IH]; simpl.
  - exists k, [x]. repeat split; [now left | apply eqb_refl | now left].
  - destruct (eqb k k0) eqn:E.
    + exists k0, (xs0 ++ [x]). repeat split; [now left | assumption |].
      apply in_or_app. right. now left.
    + destruct IH as [k' [xs [Hin [Hk Hx]]]].
      exists k', xs. repeat split; [now right | assumption | assumption].
Qed.

Lemma add_to_group_old (k k1 : K) (x y : A) (xs : list A)
    (gs : list (K * list A)) :
  In (k1, xs) gs -> In y xs ->
  exists xs', In (k1, xs') (add_to_group eqb k x gs) /\ In y xs'.
Proof.
  induction gs as [|[k0 xs0] gs IH]; simpl; [intros []|].
  intros [Heq|Hin] Hy.
  - injection Heq as -> ->.
    destruct (eqb k k1).
    + exists (xs ++ [x]). split; [now left|]. apply in_or_app. now left.
    + exists xs. split; [now left | assumption].
  - destruct (eqb k k0).
    + exists xs. split; [now right | assumption].
    + destruct (IH Hin Hy) as [xs' [Hin' Hy']].
      exists xs'. split; [now right | assumption].
Qed.
End Grouping.

(* ================================================================== *)
(** ** The guarded ratios *)
(* ================================================================== *)

Lemma Qlt_bool_iff (x y : Q) : Qlt_bool x y = true <-> x < y.
Proof.
  unfold Qlt_bool. rewrite negb_true_iff, <- not_true_iff_false, Qle_bool_iff.
  split; [apply Qnot_le_lt | apply Qlt_not_le].
Qed.

Lemma is_true_and (a b : tri) :
  is_true (sql_and a b) = is_true a && is_true b.
Proof. destruct a as [[]|], b as [[]|]; reflexivity. Qed.

Lemma is_true_or (a b : tri) :
  is_true (sql_or a b) = is_true a || is_true b.
Proof. destruct a as [[]|], b as [[]|]; reflexivity. Qed.

Lemma is_true_gt_zero (a : num) :
  is_true (sql_gt a (lit 0)) = true <-> positive a.
Proof.
  unfold positive. destruct a as [x|]; simpl.
  - destruct (Qlt_bool 0 x) eqn:E.
    + apply Qlt_bool_iff in E. split; [|reflexivity]. intros _. now exists x.
    + split; [discriminate|]. intros [q [Hq Hpos]]. injection Hq as <-.
      apply Qlt_bool_iff in Hpos. congruence.
  - split; [discriminate|]. intros [q [Hq _]]. discriminate.
Qed.

Lemma sql_div_defined (x y : Q) :
  ~ y == 0 -> sql_div (Some x) (Some y) = (Some (x / y), 0%nat).
Proof.
  intros H. unfold sql_div. destruct (Qeq_bool y 0) eqn:E; [|reflexivity].
  apply Qeq_bool_iff in E. contradiction.
Qed.

Lemma positive_not_null (a : num) : positive a -> a <> None.
Proof. intros [q [-> _]]. discriminate. Qed.

Lemma ROUND_null (a : num) (d : nat) : ROUND a d = None <-> a = None.
Proof. destruct a; simpl; split; congruence. Qed.

Lemma value_wret {A : Type} (a : A) : value (wret a) = a.
Proof. reflexivity. Qed.

Lemma warnings_wret {A : Type} (a : A) : division_warnings (wret a) = 0%nat.
Proof. reflexivity. Qed.

Lemma wbind_pure {A B : Type} (a : A) (f : A -> W B) :
  wbind (a, 0%nat) f = f a.
Proof. unfold wbind. destruct (f a). reflexivity. Qed.

Lemma guard_both_positive (a b : num) :
  is_true (sql_and (sql_gt a (lit 0)) (sql_gt b (lit 0))) = true <->
  positive a /\ positive b.
Proof.
  rewrite is_true_and, andb_true_iff, !is_true_gt_zero. reflexivity.
Qed.

(** Dividing a non-null number by a positive one: no warning, and a
    non-null quotient. *)
Lemma guarded_quotient (a : num) (y : Q) (d : nat) (k : num -> num) :
  0 < y -> a <> None -> (forall x, x <> None -> k x <> None) ->
  division_warnings (wbind (sql_div a (Some y)) (fun q => wret (ROUND (k q) d)))
  = 0%nat /\
  value (wbind (sql_div a (Some y)) (fun q => wret (ROUND (k q) d))) <> None.
Proof.
  intros Hy Ha Hk. destruct a as [x|]; [|congruence].
  rewrite warnings_wbind, value_wbind, sql_div_defined
    by (intros E; rewrite E in Hy; now apply Qlt_irrefl in Hy).
  split; [reflexivity|].
  rewrite value_wret. cbn [value fst]. rewrite ROUND_null.
  apply Hk. discriminate.
Qed.

Ltac unguarded H :=
  rewrite warnings_wret, value_wret;
  split; [reflexivity|];
  split; [intros Hnull; now contradiction Hnull|];
  intros Hpos; apply H in Hpos; congruence.

Lemma points_per_million_spec (pg_points salary : num) :
  division_warnings (points_per_million pg_points salary) = 0%nat /\
  (value (points_per_million pg_points salary) <> None <->
   positive pg_points /\ positive salary).
Proof.
  unfold points_per_million.
  destruct (is_true (sql_and (sql_gt pg_points (lit 0))
                             (sql_gt salary (lit 0)))) eqn:E;
    [|unguarded guard_both_positive].
  apply guard_both_positive in E. destruct E as [Ha [s [-> Hs]]].
  unfold lit. rewrite sql_div_defined by (intros E; discriminate E).
  rewrite wbind_pure.
  assert (Hm : 0 < s / 1000000) by (apply Qlt_shift_div_l; lra).
  destruct (guarded_quotient pg_points _ 2 (fun q => q) Hm
              (positive_not_null _ Ha) (fun x H => H)) as [Hw Hv].
  split; [exact Hw|].
  split; [intros _; split; [assumption | now exists s] | intros _; exact Hv].
Qed.

Lemma salary_per_spec (d salary : num) :
  (division_warnings (salary_per_win_share d salary) = 0%nat /\
   (value (salary_per_win_share d salary) <> None <->
    positive d /\ positive salary)) /\
  (division_warnings (salary_per_vorp d salary) = 0%nat /\
   (value (salary_per_vorp d salary) <> None <->
    positive d /\ positive salary)).
Proof.
  unfold salary_per_win_share, salary_per_vorp.
  destruct (is_true (sql_and (sql_gt d (lit 0)) (sql_gt salary (lit 0))))
    eqn:E; [|split; unguarded guard_both_positive].
  apply guard_both_positive in E. destruct E as [[x [-> Hx]] Hs].
  destruct (guarded_quotient salary x 0 (fun q => q) Hx
              (positive_not_null _ Hs) (fun x H => H)) as [Hw Hv].
  assert (Hd : positive (Some x)) by now exists x.
  split; (split; [exact Hw|]); (split; [intros _; now split | intros _; exact Hv]).
Qed.

Lemma sql_mul_not_null (a b : num) :
  a <> None -> b <> None -> sql_mul a b <> None.
Proof. destruct a, b; simpl; congruence. Qed.

Lemma value_score_spec (vorp salary : num) :
  division_warnings (value_score vorp salary) = 0%nat /\
  (value (value_score vorp salary) <> None <->
   positive vorp /\ positive salary).
Proof.
  unfold value_score.
  destruct (is_true (sql_and (sql_gt vorp (lit 0)) (sql_gt salary (lit 0))))
    eqn:E; [|unguarded guard_both_positive].
  apply guard_both_positive in E. destruct E as [Hv [s [-> Hs]]].
  destruct (guarded_quotient (sql_mul vorp (lit 1000000)) s 2
              (fun q => sql_mul q (lit 100)) Hs) as [Hw Hn].
  - apply sql_mul_not_null; [now apply positive_not_null | discriminate].
  - intros x Hx. apply sql_mul_not_null; [assumption | discriminate].
  - split; [exact Hw|].
    split; [intros _; split; [assumption | now exists s] | intros _; exact Hn].
Qed.

Lemma payroll_per_spec (sum_salary sum_d : num) :
  division_warnings (payroll_per sum_salary sum_d) = 0%nat /\
  (value (payroll_per sum_salary sum_d) <> None <->
   positive sum_d /\ sum_salary <> None).
Proof.
  unfold payroll_per.
  destruct (is_true (sql_gt sum_d (lit 0))) eqn:E.
  - apply is_true_gt_zero in E. destruct E as [x [-> Hx]].
    destruct sum_salary as [s|].
    + destruct (guarded_quotient (Some s) x 0 (fun q => q) Hx) as [Hw Hv];
        [discriminate | auto |].
      split; [exact Hw|].
      split; [intros _; split; [now exists x | discriminate]
             | intros _; exact Hv].
    + split; [reflexivity|]. cbn. split; [intros H; now contradiction H|].
      intros [_ H]. now contradiction H.
  - rewrite warnings_wret, value_wret. split; [reflexivity|].
    split; [intros H; now contradiction H|].
    intros [H _]. apply is_true_gt_zero in H. congruence.
Qed.

(* ================================================================== *)
(** ** Rows of the five queries *)
(* ================================================================== *)

Section SelectOrder.
Context {A B : Type} (select : A -> W B) (before : B -> B -> bool).

Lemma in_select_order (r : B) (source : list A) :
  In r (value (wbind (wmap select source)
                 (fun rows => wret (order_by before rows)))) <->
  exists x, In x source /\ r = value (select x).
Proof.
  rewrite value_wbind, value_wret, in_order_by.
  rewrite value_wmap, in_map_iff.
  split; intros [x [H1 H2]]; exists x; auto.
Qed.

Lemma warnings_select_order (source : list A) :
  division_warnings (wbind (wmap select source)
                       (fun rows => wret (order_by before rows)))
  = division_warnings (wmap select source).
Proof.
  rewrite warnings_wbind, warnings_wret. lia.
Qed.
End SelectOrder.

Lemma in_stats_with_salary {coll : collation}
    (pms : Stats.row) (ps : option Salaries.row)
    (stats : list Stats.row) (salaries : list Salaries.row) :
  In (pms, ps) (stats_with_salary stats salaries) <->
  In pms stats /\
  match ps with
  | None => unsalaried pms salaries
  | Some s => In s salaries /\ is_true (salary_join pms s) = true
  end.
Proof. apply in_left_join. Qed.

Lemma in_main_dashboard {coll : collation}
    (r : MainDashboard.row) (stats : list Stats.row)
    (salaries : list Salaries.row) :
  In r (value (main_dashboard_query stats salaries)) <->
  exists pms ps,
    In (pms, ps) (stats_with_salary stats salaries) /\
    is_true (sql_ge (Stats.games_played pms) (lit 10)) = true /\
    r = value (main_dashboard_select (pms, ps)).
Proof.
  unfold main_dashboard_query.
  rewrite (in_select_order main_dashboard_select).
  split.
  - intros [[pms ps] [Hin Hr]]. apply in_where in Hin.
    exists pms, ps. tauto.
  - intros [pms [ps [Hin [Hg Hr]]]]. exists (pms, ps).
    split; [apply in_where; now split | assumption].
Qed.

Lemma in_value_analysis {coll : collation}
    (r : ValueAnalysis.row) (stats : list Stats.row)
    (salaries : list Salaries.row) :
  In r (value (value_analysis_query stats salaries)) <->
  exists pms ps,
    In (pms, ps) (stats_with_salary stats salaries) /\
    is_true (sql_ge (Stats.games_played pms) (lit 20)) = true /\
    col Salaries.salary ps <> None /\
    r = value (value_analysis_select (pms, ps)).
Proof.
  unfold value_analysis_query.
  rewrite (in_select_order value_analysis_select).
  assert (Hw : forall pms ps,
             is_true (value_analysis_where (pms, ps)) = true <->
             is_true (sql_ge (Stats.games_played pms) (lit 20)) = true /\
             col Salaries.salary ps <> None).
  { intros pms ps. unfold value_analysis_where.
    rewrite is_true_and, andb_true_iff. cbn [fst snd].
    destruct (col Salaries.salary ps); simpl; intuition congruence. }
  split.
  - intros [[pms ps] [Hin Hr]]. apply in_where in Hin.
    destruct Hin as [Hin Hp]. apply Hw in Hp.
    exists pms, ps. tauto.
  - intros [pms [ps [Hin [Hg [Hs Hr]]]]]. exists (pms, ps).
    split; [apply in_where; split; [assumption | now apply Hw] | assumption].
Qed.

Lemma in_team_summary {coll : collation}
    (r : TeamSummary.row) (stats : list Stats.row)
    (salaries : list Salaries.row) :
  In r (value (team_summary_query stats salaries)) <->
  exists g, In g (team_summary_groups stats salaries) /\
            r = value (team_summary_select g).
Proof.
  unfold team_summary_query. apply (in_select_order team_summary_select).
Qed.

Lemma in_position_analysis {coll : collation} (r : PositionAnalysis.row)
    (stats : list Stats.row) (salaries : list Salaries.row) :
  In r (value (position_analysis_query stats salaries)) <->
  exists g, In g (position_analysis_groups stats salaries) /\
            r = value (position_analysis_select g).
Proof.
  unfold position_analysis_query.
  apply (in_select_order position_analysis_select).
Qed.

Lemma in_player_comparison {coll : collation} (r : PlayerComparison.row)
    (stats : list Stats.row) (salaries : list Salaries.row) :
  In r (value (player_comparison_query stats salaries)) <->
  exists j, In j (comparison_joins stats salaries) /\
            is_true (sql_ge (Stats.games_played (curr j)) (lit 20)) = true /\
            r = value (player_comparison_select j).
Proof.
  unfold player_comparison_query.
  rewrite (in_select_order player_comparison_select).
  split.
  - intros [j [Hin Hr]]. apply in_where in Hin. exists j. tauto.
  - intros [j [Hin [Hg Hr]]]. exists j.
    split; [apply in_where; now split | assumption].
Qed.

(** The value of a row built under binds is the record itself. *)
Ltac row_value :=
  repeat (rewrite value_wbind); rewrite ?value_wret; cbn beta.

Lemma main_dashboard_row {coll : collation}
    (pms : Stats.row) (ps : option Salaries.row) :
  let r := value (main_dashboard_select (pms, ps)) in
  MainDashboard.player_name r = Stats.player_name pms /\
  MainDashboard.season r = Stats.season pms /\
  MainDashboard.salary r = col Salaries.salary ps /\
  MainDashboard.salary_formatted r = col Salaries.salary_formatted ps /\
  MainDashboard.salary_rank r = col Salaries.salary_rank ps /\
  MainDashboard.ppg r = Stats.pg_points pms /\
  MainDashboard.WS r = Stats.adv_win_shares pms /\
  MainDashboard.VORP r = Stats.adv_value_over_replacement pms /\
  MainDashboard.points_per_million r
  = value (points_per_million (Stats.pg_points pms)
             (col Salaries.salary ps)) /\
  MainDashboard.salary_per_win_share r
  = value (salary_per_win_share (Stats.adv_win_shares pms)
             (col Salaries.salary ps)) /\
  MainDashboard.salary_per_vorp r
  = value (salary_per_vorp (Stats.adv_value_over_replacement pms)
             (col Salaries.salary ps)) /\
  MainDashboard.salary_tier r = salary_tier (col Salaries.salary_rank ps) /\
  MainDashboard.scoring_tier r = scoring_tier (Stats.pg_points pms) /\
  MainDashboard.impact_tier r
  = impact_tier (Stats.adv_value_over_replacement pms).
Proof.
  cbv zeta. unfold main_dashboard_select. row_value.
  repeat split.
Qed.

Lemma value_analysis_row (pms : Stats.row) (ps : option Salaries.row) :
  let r := value (value_analysis_select (pms, ps)) in
  ValueAnalysis.player_name r = Stats.player_name pms /\
  ValueAnalysis.season r = Stats.season pms /\
  ValueAnalysis.salary r = col Salaries.salary ps /\
  ValueAnalysis.salary_rank r = col Salaries.salary_rank ps /\
  ValueAnalysis.pg_points r = Stats.pg_points pms /\
  ValueAnalysis.WS r = Stats.adv_win_shares pms /\
  ValueAnalysis.VORP r = Stats.adv_value_over_replacement pms /\
  ValueAnalysis.points_per_million r
  = value (points_per_million (Stats.pg_points pms)
             (col Salaries.salary ps)) /\
  ValueAnalysis.salary_per_WS r
  = value (salary_per_win_share (Stats.adv_win_shares pms)
             (col Salaries.salary ps)) /\
  ValueAnalysis.salary_per_VORP r
  = value (salary_per_vorp (Stats.adv_value_over_replacement pms)
             (col Salaries.salary ps)) /\
  ValueAnalysis.value_score r
  = value (value_score (Stats.adv_value_over_replacement pms)
             (col Salaries.salary ps)) /\
  ValueAnalysis.value_category r
  = value_category (col Salaries.salary_rank ps)
      (Stats.adv_value_over_replacement pms).
Proof.
  cbv zeta. unfold value_analysis_select. row_value.
  repeat split.
Qed.

Lemma team_summary_row {coll : collation}
    (key : text * text) (members : list joined) :
  let r := value (team_summary_select (key, members)) in
  TeamSummary.season r = fst key /\
  TeamSummary.team r = snd key /\
  TeamSummary.total_payroll r = SUM (ps_column Salaries.salary members) /\
  TeamSummary.payroll_per_WS r
  = value (payroll_per (SUM (ps_column Salaries.salary members))
             (SUM (pms_column Stats.adv_win_shares members))) /\
  TeamSummary.payroll_per_VORP r
  = value (payroll_per (SUM (ps_column Salaries.salary members))
             (SUM (pms_column Stats.adv_value_over_replacement members))).
Proof.
  cbv zeta. unfold team_summary_select. row_value.
  repeat split.
Qed.

Lemma positive_or_not (a : num) : positive a \/ null_or_not_positive a.
Proof.
  destruct a as [q|]; [|now right].
  destruct (Qlt_le_dec 0 q); [left; now exists q | now right].
Qed.

Lemma not_positive_iff (a : num) : ~ positive a <-> null_or_not_positive a.
Proof.
  split.
  - intros H. destruct (positive_or_not a); [contradiction | assumption].
  - intros H [q [-> Hq]]. simpl in H. lra.
Qed.

(** A ratio guarded on two positive operands is null exactly when one of
    them is null, zero or negative. *)
Lemma null_iff_an_operand_fails (v a b : num) :
  (v <> None <-> positive a /\ positive b) ->
  (v = None <-> null_or_not_positive a \/ null_or_not_positive b).
Proof.
  intros H. split.
  - intros Hv.
    destruct (positive_or_not a) as [Ha|Ha]; [|now left].
    destruct (positive_or_not b) as [Hb|Hb]; [|now right].
    exfalso. apply (proj2 H (conj Ha Hb)). exact Hv.
  - intros Hab. destruct v as [x|]; [|reflexivity]. exfalso.
    assert (Hx : Some x <> None) by discriminate.
    apply H in Hx. destruct Hx as [Ha Hb].
    destruct Hab as [Hn|Hn]; apply not_positive_iff in Hn; contradiction.
Qed.

Lemma null_iff_denominator_fails (v s d : num) :
  (v <> None <-> positive d /\ s <> None) ->
  (v = None <-> null_or_not_positive d \/ s = None).
Proof.
  intros H. split.
  - intros Hv.
    destruct (positive_or_not d) as [Hd|Hd]; [|now left].
    destruct s as [x|]; [|now right].
    exfalso. apply (proj2 H); [split; [assumption | discriminate] | exact Hv].
  - intros Hds. destruct v as [x|]; [|reflexivity]. exfalso.
    assert (Hx : Some x <> None) by discriminate.
    apply H in Hx. destruct Hx as [Hd Hs].
    destruct Hds as [Hn|Hn]; [apply not_positive_iff in Hn|]; contradiction.
Qed.

Lemma points_per_million_null (pg_points salary : num) :
  value (points_per_million pg_points salary) = None <->
  null_or_not_positive salary \/ null_or_not_positive pg_points.
Proof.
  rewrite or_comm.
  apply null_iff_an_operand_fails, (points_per_million_spec _ _).
Qed.

Lemma salary_per_win_share_null (ws salary : num) :
  value (salary_per_win_share ws salary) = None <->
  null_or_not_positive ws \/ null_or_not_positive salary.
Proof. apply null_iff_an_operand_fails, (salary_per_spec _ _). Qed.

Lemma salary_per_vorp_null (vorp salary : num) :
  value (salary_per_vorp vorp salary) = None <->
  null_or_not_positive vorp \/ null_or_not_positive salary.
Proof. apply null_iff_an_operand_fails, (salary_per_spec _ _). Qed.

Lemma value_score_null (vorp salary : num) :
  value (value_score vorp salary) = None <->
  null_or_not_positive salary \/ null_or_not_positive vorp.
Proof.
  rewrite or_comm.
  apply null_iff_an_operand_fails, (value_score_spec _ _).
Qed.

Lemma payroll_per_null (sum_salary sum_d : num) :
  value (payroll_per sum_salary sum_d) = None <->
  null_or_not_positive sum_d \/ sum_salary = None.
Proof. apply null_iff_denominator_fails, (payroll_per_spec _ _). Qed.

(** C2.  Amended: a derived ratio field is null exactly when its
    denominator source or its numerator source is null, zero or negative
    (for the two team ratios: when the summed denominator is null, zero or
    negative, or the payroll sum is null).  A null, zero or negative
    denominator therefore always gives a null ratio, but a positive
    denominator does not exclude one. *)
Theorem ratio_null_iff_an_operand_fails {coll : collation}
    (stats : list Stats.row) (salaries : list Salaries.row) :
  (forall r, In r (value (main_dashboard_query stats salaries)) ->
     (MainDashboard.points_per_million r = None <->
      null_or_not_positive (MainDashboard.salary r) \/
      null_or_not_positive (MainDashboard.ppg r)) /\
     (MainDashboard.salary_per_win_share r = None <->
      null_or_not_positive (MainDashboard.WS r) \/
      null_or_not_positive (MainDashboard.salary r)) /\
     (MainDashboard.salary_per_vorp r = None <->
      null_or_not_positive (MainDashboard.VORP r) \/
      null_or_not_positive (MainDashboard.salary r))) /\
  (forall r, In r (value (value_analysis_query stats salaries)) ->
     (ValueAnalysis.points_per_million r = None <->
      null_or_not_positive (ValueAnalysis.salary r) \/
      null_or_not_positive (ValueAnalysis.pg_points r)) /\
     (ValueAnalysis.salary_per_WS r = None <->
      null_or_not_positive (ValueAnalysis.WS r) \/
      null_or_not_positive (ValueAnalysis.salary r)) /\
     (ValueAnalysis.salary_per_VORP r = None <->
      null_or_not_positive (ValueAnalysis.VORP r) \/
      null_or_not_positive (ValueAnalysis.salary r)) /\
     (ValueAnalysis.value_score r = None <->
      null_or_not_positive (ValueAnalysis.salary r) \/
      null_or_not_positive (ValueAnalysis.VORP r))) /\
  (forall r, In r (value (team_summary_query stats salaries)) ->
     exists key members,
       In (key, members) (team_summary_groups stats salaries) /\
       r = value (team_summary_select (key, members)) /\
       (TeamSummary.payroll_per_WS r = None <->
        null_or_not_positive
          (SUM (pms_column Stats.adv_win_shares members)) \/
        TeamSummary.total_payroll r = None) /\
       (TeamSummary.payroll_per_VORP r = None <->
        null_or_not_positive
          (SUM (pms_column Stats.adv_value_over_replacement members)) \/
        TeamSummary.total_payroll r = None)).
Proof.
  split; [|split].
  - intros r Hr. apply in_main_dashboard in Hr.
    destruct Hr as [pms [ps [_ [_ ->]]]].
    destruct (main_dashboard_row pms ps)
      as (_ & _ & Hs & _ & _ & Hp & Hw & Hv & H1 & H2 & H3 & _).
    rewrite Hs, Hp, Hw, Hv, H1, H2, H3.
    split; [apply points_per_million_null|].
    split; [apply salary_per_win_share_null | apply salary_per_vorp_null].
  - intros r Hr. apply in_value_analysis in Hr.
    destruct Hr as [pms [ps [_ [_ [_ ->]]]]].
    destruct (value_analysis_row pms ps)
      as (_ & _ & Hs & _ & Hp & Hw & Hv & H1 & H2 & H3 & H4 & _).
    rewrite Hs, Hp, Hw, Hv, H1, H2, H3, H4.
    split; [apply points_per_million_null|].
    split; [apply salary_per_win_share_null|].
    split; [apply salary_per_vorp_null | apply value_score_null].
  - intros r Hr. apply in_team_summary in Hr.
    destruct Hr as [[key members] [Hg ->]].
    exists key, members. split; [assumption|]. split; [reflexivity|].
    destruct (team_summary_row key members) as (_ & _ & Hs & H1 & H2).
    rewrite Hs, H1, H2.
    split; apply payroll_per_null.
Qed.

(** C2, as stated, fails: a player with positive win shares and scoring
    but no salary record has a null salary per win share, and a player who
    scores nothing has null points per million whatever the salary. *)
Lemma positive_denominator_null_ratio :
  (In (value (main_dashboard_select (guard_a_24, None)))
      (value (main_dashboard_query [guard_a_24] [])) /\
   positive (MainDashboard.WS (value (main_dashboard_select (guard_a_24, None)))) /\
   MainDashboard.salary_per_win_share
     (value (main_dashboard_select (guard_a_24, None))) = None) /\
  (In (value (main_dashboard_select (scoreless_e_24, Some e_contract_24)))
      (value (main_dashboard_query [scoreless_e_24] [e_contract_24])) /\
   positive (MainDashboard.salary
               (value (main_dashboard_select
                         (scoreless_e_24, Some e_contract_24)))) /\
   MainDashboard.points_per_million
     (value (main_dashboard_select (scoreless_e_24, Some e_contract_24)))
   = None).
Proof.
  split; (split; [vm_compute; left; reflexivity|]);
    (split; [|reflexivity]).
  - exists 5. split; [reflexivity | reflexivity].
  - exists 2000000. split; [reflexivity | reflexivity].
Qed.

(* ================================================================== *)
(** ** Division by zero *)
(* ================================================================== *)

Lemma main_dashboard_select_warnings {coll : collation} (j : joined) :
  division_warnings (main_dashboard_select j) = 0%nat.
Proof.
  destruct j as [pms ps]. unfold main_dashboard_select.
  rewrite !warnings_wbind, warnings_wret.
  rewrite (proj1 (points_per_million_spec _ _)).
  rewrite (proj1 (proj1 (salary_per_spec _ _))).
  rewrite (proj1 (proj2 (salary_per_spec _ _))).
  reflexivity.
Qed.

Lemma value_analysis_select_warnings (j : joined) :
  division_warnings (value_analysis_select j) = 0%nat.
Proof.
  destruct j as [pms ps]. unfold value_analysis_select.
  rewrite !warnings_wbind, warnings_wret.
  rewrite (proj1 (points_per_million_spec _ _)).
  rewrite (proj1 (proj1 (salary_per_spec _ _))).
  rewrite (proj1 (proj2 (salary_per_spec _ _))).
  rewrite (proj1 (value_score_spec _ _)).
  reflexivity.
Qed.

Lemma team_summary_select_warnings {coll : collation}
    (g : (text * text) * list joined) :
  division_warnings (team_summary_select g) = 0%nat.
Proof.
  destruct g as [key members]. unfold team_summary_select.
  rewrite !warnings_wbind, warnings_wret.
  rewrite !(proj1 (payroll_per_spec _ _)).
  reflexivity.
Qed.

Lemma position_analysis_select_warnings {coll : collation}
    (g : (text * text) * list joined) :
  division_warnings (position_analysis_select g) = 0%nat.
Proof. destruct g as [key members]. reflexivity. Qed.

(** The percentage change divides by the previous salary as it is. *)
Lemma salary_change_pct_warnings (current previous : num) :
  division_warnings (salary_change_pct current previous)
  = match current, previous with
    | Some _, Some p => if Qeq_bool p 0 then 1%nat else 0%nat
    | _, _ => 0%nat
    end.
Proof.
  unfold salary_change_pct. rewrite warnings_wbind, warnings_wret.
  destruct current as [c|], previous as [p|]; cbn [IFNULL sql_sub sql_bin];
    try reflexivity.
  - unfold sql_div. destruct (Qeq_bool p 0); reflexivity.
Qed.

Lemma player_comparison_select_warnings (j : comparison_join) :
  division_warnings (player_comparison_select j) = 0%nat <->
  ~ (col Salaries.salary (curr_sal j) <> None /\
     num_eq (col Salaries.salary (prev_sal j)) (Some 0)).
Proof.
  unfold player_comparison_select.
  rewrite warnings_wbind, warnings_wret, salary_change_pct_warnings.
  destruct (col Salaries.salary (curr_sal j)) as [c|],
           (col Salaries.salary (prev_sal j)) as [p|]; cbn [num_eq].
  - destruct (Qeq_bool p 0) eqn:E.
    + apply Qeq_bool_iff in E. split; [discriminate|].
      intros H. exfalso. apply H. split; [discriminate | assumption].
    + split; [|reflexivity]. intros _ [_ H].
      apply Qeq_bool_iff in H. congruence.
  - split; [|reflexivity]. intros _ [_ []].
  - split; [|reflexivity]. intros _ [H _]. now apply H.
  - split; [|reflexivity]. intros _ [H _]. now apply H.
Qed.

Lemma list_sum_zero (l : list nat) :
  list_sum l = 0%nat <-> forall n, In n l -> n = 0%nat.
Proof.
  induction l as [|x l IH]; simpl.
  - split; [intros _ n [] | reflexivity].
  - split.
    + intros H n [<-|Hn]; [lia|]. apply IH; [lia | assumption].
    + intros H. rewrite (H x (or_introl eq_refl)).
      apply IH. intros n Hn. apply H. now right.
Qed.

Lemma player_comparison_row (j : comparison_join) :
  let r := value (player_comparison_select j) in
  PlayerComparison.player_name r = Stats.player_name (curr j) /\
  PlayerComparison.current_season r = Stats.season (curr j) /\
  PlayerComparison.current_salary r = col Salaries.salary (curr_sal j) /\
  PlayerComparison.current_salary_formatted r
  = col Salaries.salary_formatted (curr_sal j) /\
  PlayerComparison.current_salary_rank r
  = col Salaries.salary_rank (curr_sal j) /\
  PlayerComparison.previous_salary r = col Salaries.salary (prev_sal j) /\
  PlayerComparison.salary_change r
  = salary_change (col Salaries.salary (curr_sal j))
      (col Salaries.salary (prev_sal j)) /\
  PlayerComparison.salary_change_pct r
  = value (salary_change_pct (col Salaries.salary (curr_sal j))
             (col Salaries.salary (prev_sal j))) /\
  PlayerComparison.performance_trend r
  = performance_trend (Stats.pg_points (curr j))
      (col Stats.pg_points (prev j)) /\
  PlayerComparison.impact_trend r
  = impact_trend (Stats.adv_value_over_replacement (curr j))
      (col Stats.adv_value_over_replacement (prev j)) /\
  PlayerComparison.current_ppg r = Stats.pg_points (curr j) /\
  PlayerComparison.previous_ppg r = col Stats.pg_points (prev j) /\
  PlayerComparison.current_VORP r
  = Stats.adv_value_over_replacement (curr j) /\
  PlayerComparison.previous_VORP r
  = col Stats.adv_value_over_replacement (prev j).
Proof.
  cbv zeta. unfold player_comparison_select. row_value.
  repeat split.
Qed.

(** C3.  Amended: each of the six guarded ratio fields is computed only
    under a guard that makes its denominator strictly positive (otherwise it
    is null), so the main-dashboard, team-summary, value-analysis and
    position-analysis queries never divide by zero, whatever the two tables
    hold.  The player-comparison query does: its percentage change divides
    by the previous salary without a guard, and it divides by zero exactly
    when some row has a current salary and a previous salary of 0. *)
Theorem guarded_ratios_never_divide_by_zero {coll : collation}
    (stats : list Stats.row) (salaries : list Salaries.row) :
  (division_warnings (main_dashboard_query stats salaries) = 0%nat /\
   division_warnings (team_summary_query stats salaries) = 0%nat /\
   division_warnings (value_analysis_query stats salaries) = 0%nat /\
   division_warnings (position_analysis_query stats salaries) = 0%nat) /\
  (forall numerator denominator : num,
     (value (points_per_million numerator denominator) <> None ->
      positive denominator) /\
     (value (salary_per_win_share denominator numerator) <> None ->
      positive denominator) /\
     (value (salary_per_vorp denominator numerator) <> None ->
      positive denominator) /\
     (value (value_score numerator denominator) <> None ->
      positive denominator) /\
     (value (payroll_per numerator denominator) <> None ->
      positive denominator)) /\
  (division_warnings (player_comparison_query stats salaries) = 0%nat <->
   forall r, In r (value (player_comparison_query stats salaries)) ->
     ~ (PlayerComparison.current_salary r <> None /\
        num_eq (PlayerComparison.previous_salary r) (Some 0))).
Proof.
  split; [|split].
  - unfold main_dashboard_query, team_summary_query, value_analysis_query,
      position_analysis_query.
    rewrite !warnings_select_order.
    repeat split; apply warnings_wmap_zero; intros x _.
    + apply main_dashboard_select_warnings.
    + apply team_summary_select_warnings.
    + apply value_analysis_select_warnings.
    + apply position_analysis_select_warnings.
  - intros n d.
    split; [intros H; now apply points_per_million_spec in H|].
    split; [intros H; now apply salary_per_spec in H|].
    split; [intros H; now apply salary_per_spec in H|].
    split; [intros H; now apply value_score_spec in H|].
    intros H; now apply payroll_per_spec in H.
  - unfold player_comparison_query at 1.
    rewrite warnings_select_order, warnings_wmap, list_sum_zero.
    split.
    + intros H r Hr. apply in_player_comparison in Hr.
      destruct Hr as [j [Hj [Hg ->]]].
      destruct (player_comparison_row j) as (_ & _ & Hc & _ & _ & Hp & _).
      rewrite Hc, Hp. apply player_comparison_select_warnings.
      apply H. apply in_map_iff. exists j.
      split; [reflexivity | apply in_where; now split].
    + intros H n Hn. apply in_map_iff in Hn.
      destruct Hn as [j [<- Hj]]. apply in_where in Hj.
      destruct Hj as [Hj Hg].
      apply player_comparison_select_warnings.
      destruct (player_comparison_row j) as (_ & _ & Hc & _ & _ & Hp & _).
      rewrite <- Hc, <- Hp. apply H. apply in_player_comparison.
      exists j. repeat split; assumption.
Qed.

(** C3, as stated, fails: with a previous salary of 0 the player-comparison
    query evaluates a division by zero. *)
Lemma comparison_divides_by_zero :
  division_warnings
    (player_comparison_query [guard_a_24; guard_a_23]
       [a_contract_24; a_contract_23_zero]) = 1%nat /\
  map PlayerComparison.previous_salary
    (value (player_comparison_query [guard_a_24; guard_a_23]
              [a_contract_24; a_contract_23_zero]))
  = [Some 0; None] /\
  map PlayerComparison.salary_change_pct
    (value (player_comparison_query [guard_a_24; guard_a_23]
              [a_contract_24; a_contract_23_zero]))
  = [None; Some (-100.0)].
Proof. vm_compute. repeat split. Qed.

(* ================================================================== *)
(** ** Bucketed fields *)
(* ================================================================== *)

(** First match wins: the relation picks the computed label and no other. *)
Lemma first_true_bucket_iff (buckets : list (tri * string))
    (otherwise label : string) :
  first_true_bucket buckets otherwise label <->
  label = first_match buckets otherwise.
Proof.
  unfold first_true_bucket.
  induction buckets as [|[c l] bs IH]; cbn [first_match].
  - split.
    + intros [(sk & c & rest & H & _)|[_ H]]; [|exact H].
      destruct sk; discriminate H.
    + intros ->. right. split; [constructor | reflexivity].
  - destruct (is_true c) eqn:E.
    + split.
      * intros [(sk & c' & rest & H & Hsk & _)|[Hall _]].
        -- destruct sk as [|b sk]; [injection H as _ ->; reflexivity|].
           injection H as <- _. inversion Hsk as [|? ? Hb _].
           cbn [fst] in Hb. congruence.
        -- inversion Hall as [|? ? Hb _]. cbn [fst] in Hb. congruence.
      * intros ->. left. exists [], c, bs.
        repeat split; [constructor | assumption].
    + rewrite <- IH. split.
      * intros [(sk & c' & rest & H & Hsk & Hc)|[Hall Hl]].
        -- destruct sk as [|b sk].
           ++ injection H as <- _ _. congruence.
           ++ injection H as _ ->. left. exists sk, c', rest.
              inversion Hsk. repeat split; assumption.
        -- right. inversion Hall. now split.
      * intros [(sk & c' & rest & -> & Hsk & Hc)|[Hall Hl]].
        -- left. exists ((c, l) :: sk), c', rest.
           repeat split; [constructor; assumption | assumption].
        -- right. split; [constructor; assumption | assumption].
Qed.

Lemma first_match_label (buckets : list (tri * string)) (otherwise : string) :
  In (first_match buckets otherwise) (labels buckets otherwise).
Proof.
  unfold labels. induction buckets as [|[c l] bs IH]; simpl.
  - now left.
  - destruct (is_true c); [now left | now right].
Qed.

Lemma first_match_bucketed (buckets : list (tri * string))
    (otherwise : string) :
  bucketed_by buckets otherwise (first_match buckets otherwise).
Proof.
  split; [reflexivity|].
  split; [intros label; apply first_true_bucket_iff | apply first_match_label].
Qed.

Lemma salary_tier_first_match (salary_rank : num) :
  salary_tier salary_rank
  = first_match (salary_tier_buckets salary_rank) "Other".
Proof. reflexivity. Qed.

Lemma scoring_tier_first_match (ppg : num) :
  scoring_tier ppg
  = first_match (scoring_tier_buckets ppg) "Bench Player (<10 PPG)".
Proof. reflexivity. Qed.

Lemma impact_tier_first_match (vorp : num) :
  impact_tier vorp
  = first_match (impact_tier_buckets vorp) "Below Average (<0 VORP)".
Proof. reflexivity. Qed.

Lemma value_category_first_match (salary_rank vorp : num) :
  value_category salary_rank vorp
  = first_match (value_category_buckets salary_rank vorp) "Below Average".
Proof. reflexivity. Qed.

Lemma performance_trend_first_match (current previous : num) :
  performance_trend current previous
  = first_match (performance_trend_buckets current previous) "Stable".
Proof. reflexivity. Qed.

Lemma impact_trend_first_match (current previous : num) :
  impact_trend current previous
  = first_match (impact_trend_buckets current previous) "Consistent".
Proof. reflexivity. Qed.

Lemma Qle_bool_true (x y : Q) : x <= y -> Qle_bool x y = true.
Proof. apply Qle_bool_iff. Qed.

Lemma star_excellent_value (rank vorp : Q) :
  rank == 5 -> vorp == 6.0 ->
  value_category (Some rank) (Some vorp) = "Star - Excellent Value".
Proof.
  intros Hr Hv. unfold value_category, sql_and, sql_le, sql_ge, sql_cmp, lit.
  rewrite (Qle_bool_true rank 50) by (rewrite Hr; lra).
  rewrite (Qle_bool_true 4.0 vorp) by (rewrite Hv; lra).
  reflexivity.
Qed.

(** C6.  In every output row each bucketed field carries exactly one label
    of its bucket list: the label of the first bucket, in the encoded order,
    whose condition is TRUE, or the ELSE label.  A value-analysis row with
    value over replacement 6.0 and salary rank 5 is "Star - Excellent
    Value". *)
Theorem bucketed_fields_first_match {coll : collation} (stats : list Stats.row)
    (salaries : list Salaries.row) :
  (forall r, In r (value (main_dashboard_query stats salaries)) ->
     bucketed_by (salary_tier_buckets (MainDashboard.salary_rank r))
       "Other" (MainDashboard.salary_tier r) /\
     bucketed_by (scoring_tier_buckets (MainDashboard.ppg r))
       "Bench Player (<10 PPG)" (MainDashboard.scoring_tier r) /\
     bucketed_by (impact_tier_buckets (MainDashboard.VORP r))
       "Below Average (<0 VORP)" (MainDashboard.impact_tier r)) /\
  (forall r, In r (value (player_comparison_query stats salaries)) ->
     bucketed_by
       (performance_trend_buckets (PlayerComparison.current_ppg r)
          (PlayerComparison.previous_ppg r))
       "Stable" (PlayerComparison.performance_trend r) /\
     bucketed_by
       (impact_trend_buckets (PlayerComparison.current_VORP r)
          (PlayerComparison.previous_VORP r))
       "Consistent" (PlayerComparison.impact_trend r)) /\
  (forall r, In r (value (value_analysis_query stats salaries)) ->
     bucketed_by
       (value_category_buckets (ValueAnalysis.salary_rank r)
          (ValueAnalysis.VORP r))
       "Below Average" (ValueAnalysis.value_category r) /\
     (forall rank vorp,
        ValueAnalysis.salary_rank r = Some rank -> rank == 5 ->
        ValueAnalysis.VORP r = Some vorp -> vorp == 6.0 ->
        ValueAnalysis.value_category r = "Star - Excellent Value")).
Proof.
  split; [|split].
  - intros r Hr. apply in_main_dashboard in Hr.
    destruct Hr as [pms [ps [_ [_ ->]]]].
    destruct (main_dashboard_row pms ps)
      as (_ & _ & _ & _ & Hk & Hp & _ & Hv & _ & _ & _ & H1 & H2 & H3).
    rewrite Hk, Hp, Hv, H1, H2, H3.
    rewrite salary_tier_first_match, scoring_tier_first_match,
      impact_tier_first_match.
    split; [|split]; apply first_match_bucketed.
  - intros r Hr. apply in_player_comparison in Hr.
    destruct Hr as [j [_ [_ ->]]].
    destruct (player_comparison_row j)
      as (_ & _ & _ & _ & _ & _ & _ & _ & H1 & H2 & Hp & Hq & Hv & Hw).
    rewrite Hp, Hq, Hv, Hw, H1, H2.
    rewrite performance_trend_first_match, impact_trend_first_match.
    split; apply first_match_bucketed.
  - intros r Hr. apply in_value_analysis in Hr.
    destruct Hr as [pms [ps [_ [_ [_ ->]]]]].
    destruct (value_analysis_row pms ps)
      as (_ & _ & _ & Hk & _ & _ & Hv & _ & _ & _ & _ & H1).
    rewrite Hk, Hv, H1, value_category_first_match.
    split; [apply first_match_bucketed|].
    intros rank vorp -> Hrank -> Hvorp.
    rewrite <- value_category_first_match.
    now apply star_excellent_value.
Qed.

(** The row of the claim: rank 5 and value over replacement 6.0. *)
Example star_excellent_value_row :
  map (fun r => (ValueAnalysis.player_name r, ValueAnalysis.value_category r))
    (value (value_analysis_query
              [player "S" "2023-24" "DEN" (Some "C") 70 26 15 6.0]
              [contract "S" "2023-24" 47000000 5]))
  = [(Some "S", "Star - Excellent Value")].
Proof. reflexivity. Qed.

(** C10.  A main-dashboard row without a salary rank is in tier "Other",
    the tier of every row ranked beyond 200. *)
Theorem unranked_salary_tier_is_other {coll : collation}
    (stats : list Stats.row)
    (salaries : list Salaries.row) (r : MainDashboard.row) :
  In r (value (main_dashboard_query stats salaries)) ->
  MainDashboard.salary_rank r = None ->
  MainDashboard.salary_tier r = "Other" /\
  (forall r' rank,
     In r' (value (main_dashboard_query stats salaries)) ->
     MainDashboard.salary_rank r' = Some rank -> 200 < rank ->
     MainDashboard.salary_tier r' = MainDashboard.salary_tier r).
Proof.
  intros Hr Hnull.
  assert (Htier : forall x,
             In x (value (main_dashboard_query stats salaries)) ->
             MainDashboard.salary_tier x
             = salary_tier (MainDashboard.salary_rank x)).
  { intros x Hx. apply in_main_dashboard in Hx.
    destruct Hx as [pms [ps [_ [_ ->]]]].
    destruct (main_dashboard_row pms ps)
      as (_ & _ & _ & _ & Hk & _ & _ & _ & _ & _ & _ & H1 & _).
    now rewrite Hk, H1. }
  assert (Hother : MainDashboard.salary_tier r = "Other")
    by (rewrite (Htier r Hr), Hnull; reflexivity).
  split; [exact Hother|].
  intros r' rank Hr' Hrank Hbeyond.
  rewrite Hother, (Htier r' Hr'), Hrank.
  unfold salary_tier, sql_le, sql_cmp, lit.
  assert (Hno : forall bound, bound <= 200 -> Qle_bool rank bound = false).
  { intros bound Hb. apply not_true_iff_false. rewrite Qle_bool_iff. lra. }
  rewrite !Hno by lra. reflexivity.
Qed.

Lemma unranked_salary_tier_is_other_witness :
  In (value (main_dashboard_select (guard_a_24, None)))
     (value (main_dashboard_query [guard_a_24; guard_a_23] [])) /\
  MainDashboard.salary_rank (value (main_dashboard_select (guard_a_24, None)))
  = None /\
  MainDashboard.salary_tier (value (main_dashboard_select (guard_a_24, None)))
  = "Other".
Proof.
  assert (Hin : In (value (main_dashboard_select (guard_a_24, None)))
                  (value (main_dashboard_query [guard_a_24; guard_a_23] [])))
    by (vm_compute; left; reflexivity).
  split; [exact Hin|]. split; [reflexivity|].
  exact (proj1 (unranked_salary_tier_is_other _ _ _ Hin eq_refl)).
Defined.

(* ================================================================== *)
(** ** Year-over-year comparison *)
(* ================================================================== *)

Lemma same_text_refl {coll : collation} (a : text) (s : string) :
  a = Some s -> same_text a (Some s).
Proof. intros ->. now exists s, s. Qed.

Lemma same_text_sym {coll : collation} (a b : text) :
  same_text a b -> same_text b a.
Proof. intros (x & y & Ha & Hb & Hw). now exists y, x. Qed.

Lemma same_text_trans {coll : collation} (a b c : text) :
  same_text a b -> same_text b c -> same_text a c.
Proof.
  intros (x & y & Ha & Hb & Hw) (y' & z & Hb' & Hc & Hw').
  exists x, z. repeat split; [assumption..|]. congruence.
Qed.

Lemma same_text_not_null {coll : collation} (a b : text) :
  same_text a b -> a <> None /\ b <> None.
Proof. intros (x & y & -> & -> & _). split; discriminate. Qed.

(** [a = b] is TRUE exactly for two texts that are the same under the
    collation. *)
Lemma text_eq_true {coll : collation} (a b : text) :
  is_true (text_eq a b) = true <-> same_text a b.
Proof.
  unfold same_text. destruct a as [x|], b as [y|]; simpl;
    try (split; [discriminate | intros (x' & y' & H1 & H2 & _); discriminate]).
  destruct (String.eqb_spec (weight x) (weight y)) as [Heq|Hne].
  - split; [intros _; now exists x, y | reflexivity].
  - split; [discriminate|]. intros (x' & y' & H1 & H2 & Hw). congruence.
Qed.

Lemma text_lit_eq_true {coll : collation} (a : text) (s : string) :
  is_true (text_lit_eq a s) = true <-> same_text a (Some s).
Proof. unfold text_lit_eq. apply text_eq_true. Qed.

Lemma salary_join_true {coll : collation} (pms : Stats.row)
    (ps : Salaries.row) :
  is_true (salary_join pms ps) = true <->
  same_text (Stats.player_name pms) (Salaries.player_name ps) /\
  same_text (Stats.season pms) (Salaries.season ps).
Proof.
  unfold salary_join.
  now rewrite is_true_and, andb_true_iff, !text_eq_true.
Qed.

Lemma previous_season_join_true {coll : collation} (c : joined)
    (p : Stats.row) :
  is_true (previous_season_join c p) = true <->
  same_text (Stats.player_name (fst c)) (Stats.player_name p) /\
  ((same_text (Stats.season (fst c)) (Some "2023-24") /\
    same_text (Stats.season p) (Some "2022-23")) \/
   (same_text (Stats.season (fst c)) (Some "2024-25") /\
    same_text (Stats.season p) (Some "2023-24"))).
Proof.
  unfold previous_season_join.
  rewrite is_true_and, andb_true_iff, is_true_or, orb_true_iff.
  rewrite !is_true_and, !andb_true_iff, !text_lit_eq_true, text_eq_true.
  reflexivity.
Qed.

Lemma in_comparison_joins {coll : collation}
    (j : comparison_join) (stats : list Stats.row)
    (salaries : list Salaries.row) :
  In j (comparison_joins stats salaries) <->
  In (curr j) stats /\
  match curr_sal j with
  | None => unsalaried (curr j) salaries
  | Some s => In s salaries /\ is_true (salary_join (curr j) s) = true
  end /\
  match prev j with
  | None =>
      forall p, In p stats ->
        is_true (previous_season_join (curr j, curr_sal j) p) = false
  | Some p =>
      In p stats /\
      is_true (previous_season_join (curr j, curr_sal j) p) = true
  end /\
  match prev_sal j with
  | None =>
      forall s, In s salaries ->
        is_true (previous_salary_join ((curr j, curr_sal j), prev j) s)
        = false
  | Some s =>
      In s salaries /\
      is_true (previous_salary_join ((curr j, curr_sal j), prev j) s) = true
  end.
Proof.
  unfold comparison_joins. rewrite in_map_iff. split.
  - intros [[[[c cs] p] ps] [<- Hin]]. cbn [fst snd curr curr_sal prev prev_sal].
    apply in_left_join in Hin. destruct Hin as [Hin Hps].
    apply in_left_join in Hin. destruct Hin as [Hin Hp].
    apply in_stats_with_salary in Hin. destruct Hin as [Hc Hcs].
    repeat split; assumption.
  - intros (Hc & Hcs & Hp & Hps).
    exists (((curr j, curr_sal j), prev j), prev_sal j).
    split; [now destruct j|].
    apply in_left_join. split; [|assumption].
    apply in_left_join. split; [|assumption].
    apply in_stats_with_salary. now split.
Qed.

(** Without a previous-season row there is no previous-season salary. *)
Lemma no_previous_row_no_previous_salary {coll : collation}
    (j : comparison_join)
    (stats : list Stats.row) (salaries : list Salaries.row) :
  In j (comparison_joins stats salaries) ->
  prev j = None -> prev_sal j = None.
Proof.
  intros Hj Hp. apply in_comparison_joins in Hj.
  destruct Hj as (_ & _ & _ & Hs). rewrite Hp in Hs.
  destruct (prev_sal j) as [s|]; [|reflexivity].
  destruct Hs as [_ Hs]. unfold previous_salary_join in Hs.
  rewrite is_true_and, andb_true_iff, !text_eq_true in Hs.
  destruct Hs as [Hn _]. now apply same_text_not_null in Hn.
Qed.

Lemma player_comparison_previous_fields (j : comparison_join) :
  let r := value (player_comparison_select j) in
  PlayerComparison.previous_season r = col Stats.season (prev j) /\
  PlayerComparison.previous_team r = col Stats.team (prev j) /\
  PlayerComparison.previous_salary r = col Salaries.salary (prev_sal j) /\
  PlayerComparison.previous_salary_rank r
  = col Salaries.salary_rank (prev_sal j) /\
  PlayerComparison.previous_games r = col Stats.games_played (prev j) /\
  PlayerComparison.previous_ppg r = col Stats.pg_points (prev j) /\
  PlayerComparison.previous_rpg r = col Stats.pg_rebounds (prev j) /\
  PlayerComparison.previous_apg r = col Stats.pg_assists (prev j) /\
  PlayerComparison.previous_PER r
  = col Stats.adv_player_efficiency_rating (prev j) /\
  PlayerComparison.previous_TS_pct r
  = col Stats.adv_true_shooting_pct (prev j) /\
  PlayerComparison.previous_WS r = col Stats.adv_win_shares (prev j) /\
  PlayerComparison.previous_VORP r
  = col Stats.adv_value_over_replacement (prev j) /\
  PlayerComparison.previous_BPM r = col Stats.adv_box_plus_minus (prev j).
Proof.
  cbv zeta. unfold player_comparison_select. row_value.
  repeat split.
Qed.

(** C8.  A comparison row carries previous-season fields only for the two
    listed pairings: a row with a previous season is a "2023-24" row paired
    with a "2022-23" stats row of the same player, or a "2024-25" row paired
    with a "2023-24" one; for any other current season every
    previous-season field is NULL.  Players and seasons are the same as [=]
    finds them so, under the collation of the columns. *)
Theorem previous_season_only_for_listed_pairs {coll : collation}
    (stats : list Stats.row) (salaries : list Salaries.row)
    (r : PlayerComparison.row) :
  In r (value (player_comparison_query stats salaries)) ->
  (PlayerComparison.previous_season r <> None ->
   ((same_text (PlayerComparison.current_season r) (Some "2023-24") /\
     same_text (PlayerComparison.previous_season r) (Some "2022-23")) \/
    (same_text (PlayerComparison.current_season r) (Some "2024-25") /\
     same_text (PlayerComparison.previous_season r) (Some "2023-24"))) /\
   exists p,
     In p stats /\
     same_text (PlayerComparison.player_name r) (Stats.player_name p) /\
     previous_fields_of r p) /\
  (~ same_text (PlayerComparison.current_season r) (Some "2023-24") ->
   ~ same_text (PlayerComparison.current_season r) (Some "2024-25") ->
   no_previous_fields r).
Proof.
  intros Hr. apply in_player_comparison in Hr.
  destruct Hr as [j [Hj [_ ->]]].
  pose proof (no_previous_row_no_previous_salary j stats salaries Hj) as Hsal.
  apply in_comparison_joins in Hj. destruct Hj as (_ & _ & Hp & _).
  destruct (player_comparison_row j) as (Hname & Hseason & _).
  destruct (player_comparison_previous_fields j)
    as (F1 & F2 & F3 & F4 & F5 & F6 & F7 & F8 & F9 & F10 & F11 & F12 & F13).
  unfold previous_fields_of, no_previous_fields.
  rewrite Hname, Hseason, F1, F2, F3, F4, F5, F6, F7, F8, F9, F10, F11,
    F12, F13.
  destruct (prev j) as [p|].
  - destruct Hp as [Hin Hon]. apply previous_season_join_true in Hon.
    cbn [fst] in Hon. destruct Hon as [Hn Hpair]. cbn [col].
    split.
    + intros _. split; [exact Hpair|].
      exists p. repeat split; assumption.
    + intros H1 H2. exfalso. destruct Hpair as [[H _]|[H _]]; contradiction.
  - rewrite (Hsal eq_refl). cbn [col]. split; [intros Hne; now elim Hne|].
    intros _ _. repeat split.
Qed.

Lemma previous_season_only_for_listed_pairs_witness :
  In (value (player_comparison_select paired_join))
     (value (player_comparison_query [guard_a_24; guard_a_23]
               [a_contract_24])) /\
  PlayerComparison.previous_season
    (value (player_comparison_select paired_join)) = Some "2022-23" /\
  exists p,
    In p [guard_a_24; guard_a_23] /\
    same_text
      (PlayerComparison.player_name
         (value (player_comparison_select paired_join)))
      (Stats.player_name p) /\
    previous_fields_of (value (player_comparison_select paired_join)) p.
Proof.
  assert (Hin : In (value (player_comparison_select paired_join))
                  (value (player_comparison_query [guard_a_24; guard_a_23]
                            [a_contract_24])))
    by (vm_compute; left; reflexivity).
  split; [exact Hin|]. split; [reflexivity|].
  refine (proj2 (proj1 (previous_season_only_for_listed_pairs _ _ _ Hin) _)).
  discriminate.
Defined.

(** Under a collation that ignores case, a row is paired with the
    previous-season row of the player whatever the case of the two names;
    under the binary collation it is not. *)
Example previous_season_pairs_names_up_to_case :
  let stats :=
    [player "Luka Doncic" "2023-24" "DAL" (Some "PG") 70 33 12 8;
     player "LUKA DONCIC" "2022-23" "DAL" (Some "PG") 66 32 10 7] in
  map PlayerComparison.previous_season
    (value (player_comparison_query (coll := case_insensitive) stats []))
  = [Some "2022-23"; None] /\
  map PlayerComparison.previous_season
    (value (player_comparison_query (coll := binary) stats []))
  = [None; None].
Proof. split; reflexivity. Qed.

(* ================================================================== *)
(** ** Salary changes with a missing previous salary *)
(* ================================================================== *)

Lemma Qfloor_unique (x : Q) (n : Z) :
  inject_Z n <= x -> x < inject_Z (n + 1) -> Qfloor x = n.
Proof.
  intros Hle Hlt.
  assert (H1 : (n <= Qfloor x)%Z).
  { rewrite <- (Qfloor_Z n). now apply Qfloor_resp_le. }
  assert (H2 : (Qfloor x < n + 1)%Z).
  { rewrite Zlt_Qlt. eapply Qle_lt_trans; [apply Qfloor_le | exact Hlt]. }
  lia.
Qed.

Lemma round_half_away_Z (z : Z) : round_half_away (inject_Z z) = z.
Proof.
  unfold round_half_away.
  destruct (Qle_bool 0 (inject_Z z)).
  - apply Qfloor_unique; rewrite ?inject_Z_plus;
      change (inject_Z 1) with 1; generalize (inject_Z z); intros q; lra.
  - assert (H : Qfloor (- inject_Z z + (1 # 2)) = (- z)%Z).
    { apply Qfloor_unique; rewrite ?inject_Z_plus, ?inject_Z_opp;
        change (inject_Z 1) with 1; generalize (inject_Z z); intros q; lra. }
    rewrite H. lia.
Qed.

Lemma round_half_away_comp (x y : Q) :
  x == y -> round_half_away x = round_half_away y.
Proof.
  intros H. unfold round_half_away.
  rewrite (Qleb_comp 0 0 (Qeq_refl 0) x y H).
  rewrite (Qfloor_comp (x + (1 # 2)) (y + (1 # 2)))
    by (rewrite H; reflexivity).
  rewrite (Qfloor_comp (- x + (1 # 2)) (- y + (1 # 2)))
    by (rewrite H; reflexivity).
  reflexivity.
Qed.

Lemma pow10_positive (d : nat) : 0 < pow10 d.
Proof.
  unfold pow10. change 0 with (inject_Z 0). rewrite <- Zlt_Qlt.
  apply Z.pow_pos_nonneg; lia.
Qed.

(** ROUND leaves a number with no more than [d] decimals as it is. *)
Lemma round_q_exact (x : Q) (d : nat) (z : Z) :
  x * pow10 d == inject_Z z -> round_q x d == x.
Proof.
  intros H. unfold round_q.
  rewrite (round_half_away_comp _ _ H), round_half_away_Z, <- H.
  pose proof (pow10_positive d) as Hp.
  field. lra.
Qed.

Lemma comparison_salary_defaults (c : Q) :
  salary_change (Some c) None = Some (c - 0) /\
  value (salary_change_pct (Some c) None)
  = Some (round_q ((c - 1) / 1 * 100) 1).
Proof.
  split; [reflexivity|].
  unfold salary_change_pct. cbn [IFNULL sql_sub sql_bin].
  rewrite sql_div_defined by (intros E; discriminate E).
  reflexivity.
Qed.

(** C9.  Amended: when the previous salary is null and the current salary
    is [c], the salary change is [c] (the missing value counts as 0) while
    the percentage change is ROUND((c - 1) / 1 * 100, 1) (the missing value
    counts as 1); the rounding to one decimal changes nothing when [c]
    has at most three decimals. *)
Theorem missing_previous_salary_defaults {coll : collation}
    (stats : list Stats.row)
    (salaries : list Salaries.row) (r : PlayerComparison.row) (c : Q) :
  In r (value (player_comparison_query stats salaries)) ->
  PlayerComparison.previous_salary r = None ->
  PlayerComparison.current_salary r = Some c ->
  PlayerComparison.salary_change r = salary_change (Some c) (Some 0) /\
  num_eq (PlayerComparison.salary_change r) (Some c) /\
  PlayerComparison.salary_change_pct r
  = value (salary_change_pct (Some c) (Some 1)) /\
  num_eq (PlayerComparison.salary_change_pct r)
    (Some (round_q ((c - 1) / 1 * 100) 1)) /\
  (three_decimals c ->
   num_eq (PlayerComparison.salary_change_pct r)
     (Some ((c - 1) / 1 * 100))).
Proof.
  intros Hr Hprev Hcur. apply in_player_comparison in Hr.
  destruct Hr as [j [_ [_ ->]]].
  destruct (player_comparison_row j)
    as (_ & _ & Hc & _ & _ & Hp & Hchange & Hpct & _).
  rewrite Hc in Hcur. rewrite Hp in Hprev.
  rewrite Hchange, Hpct, Hcur, Hprev.
  destruct (comparison_salary_defaults c) as [H0 H1].
  split; [exact H0|].
  split; [rewrite H0; cbn [num_eq]; ring|].
  split; [reflexivity|].
  rewrite H1. cbn [num_eq].
  split; [reflexivity|].
  intros [z Hz]. apply (round_q_exact _ 1 (z + - 1000)).
  unfold pow10. rewrite inject_Z_plus, <- Hz.
  change (inject_Z (10 ^ Z.of_nat 1)) with 10.
  change (inject_Z (- 1000)) with (- (1000)).
  field.
Qed.

Lemma missing_previous_salary_defaults_witness :
  In (value (player_comparison_select rookie_join))
     (value (player_comparison_query [guard_a_24] [a_contract_24])) /\
  num_eq (PlayerComparison.salary_change
            (value (player_comparison_select rookie_join)))
    (Some 10000000) /\
  num_eq (PlayerComparison.salary_change_pct
            (value (player_comparison_select rookie_join)))
    (Some 999999900).
Proof.
  assert (Hin : In (value (player_comparison_select rookie_join))
                  (value (player_comparison_query [guard_a_24]
                            [a_contract_24])))
    by (vm_compute; left; reflexivity).
  destruct (missing_previous_salary_defaults _ _ _ 10000000 Hin
              eq_refl eq_refl) as (_ & H1 & _ & _ & H2).
  split; [exact Hin|]. split; [exact H1|].
  assert (H3 : three_decimals 10000000)
    by (exists 10000000000%Z; reflexivity).
  apply H2 in H3.
  destruct (PlayerComparison.salary_change_pct
              (value (player_comparison_select rookie_join))) as [q|];
    [|exact H3].
  cbn [num_eq] in *. rewrite H3. reflexivity.
Defined.

(** C9, as stated, fails: the percentage change is rounded to one decimal,
    so with a current salary of 1.0004 it is 0.0 and not 0.04. *)
Lemma percentage_change_is_rounded :
  In (value (player_comparison_select first_season_join))
     (value (player_comparison_query [guard_a_24] [a_contract_24_mills])) /\
  PlayerComparison.previous_salary
    (value (player_comparison_select first_season_join)) = None /\
  PlayerComparison.current_salary
    (value (player_comparison_select first_season_join)) = Some 1.0004 /\
  num_eq (PlayerComparison.salary_change_pct
            (value (player_comparison_select first_season_join)))
    (Some 0) /\
  ~ num_eq (PlayerComparison.salary_change_pct
              (value (player_comparison_select first_season_join)))
      (Some ((1.0004 - 1) / 1 * 100)).
Proof.
  split; [vm_compute; left; reflexivity|].
  split; [reflexivity|]. split; [reflexivity|].
  split; [vm_compute; reflexivity|].
  vm_compute. discriminate.
Qed.

(* ================================================================== *)
(** ** Rows without a salary record *)
(* ================================================================== *)

(** A left join keeps every left row. *)
Lemma left_join_total {L R : Type} (on : L -> R -> tri) (l : L)
    (left : list L) (right : list R) :
  In l left -> exists o, In (l, o) (left_join on left right).
Proof.
  intros Hl.
  destruct (filter (fun r => is_true (on l r)) right) as [|m ms] eqn:E.
  - exists None. apply in_left_join. split; [assumption|]. intros r Hr.
    destruct (is_true (on l r)) eqn:Er; [|reflexivity].
    assert (Hf : In r (filter (fun r => is_true (on l r)) right))
      by (apply filter_In; now split).
    rewrite E in Hf. destruct Hf.
  - exists (Some m). apply in_left_join. split; [assumption|].
    assert (Hf : In m (filter (fun r => is_true (on l r)) right))
      by (rewrite E; now left).
    now apply filter_In in Hf.
Qed.

Section GroupBy.
Context {K A : Type} (eqb : K -> K -> bool) (key : A -> K).
Hypothesis eqb_refl : forall k, eqb k k = true.

Lemma fold_groups_keep (rows : list A) (gs : list (K * list A))
    (k : K) (xs : list A) (y : A) :
  In (k, xs) gs -> In y xs ->
  exists xs',
    In (k, xs')
      (fold_left (fun gs x => add_to_group eqb (key x) x gs) rows gs) /\
    In y xs'.
Proof.
  revert gs xs. induction rows as [|x rows IH]; intros gs xs Hin Hy.
  - exists xs. now split.
  - cbn [fold_left].
    destruct (add_to_group_old eqb (key x) k x y xs gs Hin Hy)
      as [xs' [Hin' Hy']].
    exact (IH _ _ Hin' Hy').
Qed.

Lemma group_by_member (rows : list A) (x : A) :
  In x rows ->
  exists k xs, In (k, xs) (group_by eqb key rows) /\
               eqb (key x) k = true /\ In x xs.
Proof.
  unfold group_by. generalize (@nil (K * list A)) as gs.
  induction rows as [|y rows IH]; intros gs Hx; [destruct Hx|].
  cbn [fold_left]. destruct Hx as [->|Hx].
  - destruct (add_to_group_new eqb eqb_refl (key x) x gs)
      as [k [xs [Hin [Hk Hxs]]]].
    destruct (fold_groups_keep rows _ k xs x Hin Hxs) as [xs' [Hin' Hx']].
    exists k, xs'. repeat split; assumption.
  - apply IH. exact Hx.
Qed.
End GroupBy.

(** GROUP BY takes two keys for one exactly when their weights agree. *)
Lemma key_eqb_eq {coll : collation} (a b : text) :
  key_eqb a b = true <-> key_weight a = key_weight b.
Proof.
  destruct a as [x|], b as [y|]; simpl;
    try (split; [discriminate | congruence]); [|tauto].
  rewrite String.eqb_eq. split; congruence.
Qed.

Lemma key2_eqb_eq {coll : collation} (a b : text * text) :
  key2_eqb a b = true <-> key2_weight a = key2_weight b.
Proof.
  unfold key2_eqb, key2_weight. rewrite andb_true_iff, !key_eqb_eq.
  split; [intros [-> ->]; reflexivity|].
  intros H. injection H as -> ->. now split.
Qed.

Lemma key2_eqb_refl {coll : collation} (a : text * text) :
  key2_eqb a a = true.
Proof. now apply key2_eqb_eq. Qed.

Lemma position_analysis_row {coll : collation} (key : text * text)
    (members : list joined) :
  let r := value (position_analysis_select (key, members)) in
  PositionAnalysis.position r = fst key /\
  PositionAnalysis.season r = snd key.
Proof. cbv zeta. split; reflexivity. Qed.

Lemma position_analysis_where_true (j : joined) :
  is_true (position_analysis_where j) = true <->
  is_true (sql_ge (Stats.games_played (fst j)) (lit 40)) = true /\
  Stats.position (fst j) <> None.
Proof.
  unfold position_analysis_where. rewrite is_true_and, andb_true_iff.
  destruct (Stats.position (fst j)); simpl; intuition congruence.
Qed.

(** C7.  Amended: a player-season that passes a query's own row filter and
    has no salary record is kept.  The main-dashboard and player-comparison
    queries emit its row with NULL salary fields; the team-summary and
    position-analysis queries keep it as a member of its group's row (for
    the position analysis the row filter also asks for a non-null
    position); the value-analysis query alone leaves it out, and emits no
    row with a NULL salary.  A salary record is one for the same player and
    season as [=] finds them so under the collation of the columns, and a
    group's row carries the team, position and season of its key, which
    GROUP BY takes for the player-season's own under that collation. *)
Theorem missing_salary_keeps_the_row {coll : collation}
    (stats : list Stats.row) (salaries : list Salaries.row)
    (pms : Stats.row) :
  In pms stats -> unsalaried pms salaries ->
  (is_true (sql_ge (Stats.games_played pms) (lit 10)) = true ->
   (exists r,
      In r (value (main_dashboard_query stats salaries)) /\
      r = value (main_dashboard_select (pms, None)) /\
      MainDashboard.player_name r = Stats.player_name pms /\
      MainDashboard.season r = Stats.season pms /\
      MainDashboard.salary r = None /\
      MainDashboard.salary_formatted r = None /\
      MainDashboard.salary_rank r = None) /\
   (exists r key members,
      In r (value (team_summary_query stats salaries)) /\
      r = value (team_summary_select (key, members)) /\
      In (pms, None) members /\
      key_weight (TeamSummary.season r) = key_weight (Stats.season pms) /\
      key_weight (TeamSummary.team r) = key_weight (Stats.team pms))) /\
  (is_true (sql_ge (Stats.games_played pms) (lit 20)) = true ->
   exists r,
     In r (value (player_comparison_query stats salaries)) /\
     PlayerComparison.player_name r = Stats.player_name pms /\
     PlayerComparison.current_season r = Stats.season pms /\
     PlayerComparison.current_salary r = None /\
     PlayerComparison.current_salary_formatted r = None /\
     PlayerComparison.current_salary_rank r = None) /\
  (is_true (sql_ge (Stats.games_played pms) (lit 40)) = true ->
   Stats.position pms <> None ->
   exists r key members,
     In r (value (position_analysis_query stats salaries)) /\
     r = value (position_analysis_select (key, members)) /\
     In (pms, None) members /\
     key_weight (PositionAnalysis.position r)
     = key_weight (Stats.position pms) /\
     key_weight (PositionAnalysis.season r)
     = key_weight (Stats.season pms)) /\
  (forall r,
     In r (value (value_analysis_query stats salaries)) ->
     ValueAnalysis.salary r <> None /\
     ~ (same_text (ValueAnalysis.player_name r) (Stats.player_name pms) /\
        same_text (ValueAnalysis.season r) (Stats.season pms))).
Proof.
  intros Hin Hnone.
  assert (Hj : In (pms, None) (stats_with_salary stats salaries))
    by (apply in_stats_with_salary; now split).
  split; [|split; [|split]].
  - intros Hg. split.
    + exists (value (main_dashboard_select (pms, None))).
      split; [apply in_main_dashboard; exists pms, None; now repeat split|].
      split; [reflexivity|].
      destruct (main_dashboard_row pms None) as (H1 & H2 & H3 & H4 & H5 & _).
      now rewrite H1, H2, H3, H4, H5.
    + assert (Hw : In (pms, None)
                     (where_ team_summary_where
                        (stats_with_salary stats salaries)))
        by (apply in_where; now split).
      destruct (group_by_member key2_eqb team_summary_key key2_eqb_refl
                  _ _ Hw) as [k [xs [Hgrp [Hk Hx]]]].
      apply key2_eqb_eq in Hk. cbn [team_summary_key fst] in Hk.
      exists (value (team_summary_select (k, xs))), k, xs.
      split; [apply in_team_summary; eexists; split; [exact Hgrp|reflexivity]|].
      split; [reflexivity|]. split; [assumption|].
      destruct (team_summary_row k xs) as (H1 & H2 & _).
      rewrite H1, H2. injection Hk as Hk1 Hk2. now split.
  - intros Hg.
    destruct (left_join_total previous_season_join (pms, None)
                (stats_with_salary stats salaries) stats Hj) as [p Hp].
    destruct (left_join_total previous_salary_join ((pms, None), p)
                _ salaries Hp) as [s Hs].
    exists (value (player_comparison_select
                     {| curr := pms; curr_sal := None; prev := p;
                        prev_sal := s |})).
    split.
    + apply in_player_comparison. eexists. split; [|split; [|reflexivity]].
      * unfold comparison_joins. apply in_map_iff.
        exists (((pms, None), p), s). split; [reflexivity | exact Hs].
      * exact Hg.
    + destruct (player_comparison_row
                  {| curr := pms; curr_sal := None; prev := p;
                     prev_sal := s |}) as (H1 & H2 & H3 & H4 & H5 & _).
      now rewrite H1, H2, H3, H4, H5.
  - intros Hg Hpos.
    assert (Hw : In (pms, None)
                   (where_ position_analysis_where
                      (stats_with_salary stats salaries))).
    { apply in_where. split; [assumption|].
      apply position_analysis_where_true. now split. }
    destruct (group_by_member key2_eqb position_analysis_key key2_eqb_refl
                _ _ Hw) as [k [xs [Hgrp [Hk Hx]]]].
    apply key2_eqb_eq in Hk. cbn [position_analysis_key fst] in Hk.
    exists (value (position_analysis_select (k, xs))), k, xs.
    split; [apply in_position_analysis; eexists;
            split; [exact Hgrp | reflexivity]|].
    split; [reflexivity|]. split; [assumption|].
    destruct (position_analysis_row k xs) as (H1 & H2).
    rewrite H1, H2. injection Hk as Hk1 Hk2. now split.
  - intros r Hr. apply in_value_analysis in Hr.
    destruct Hr as [p [ps [Hj' [_ [Hsal ->]]]]].
    destruct (value_analysis_row p ps) as (H1 & H2 & H3 & _).
    rewrite H1, H2, H3. split; [assumption|].
    intros [Hn Hs].
    destruct ps as [s|]; [|now apply Hsal].
    apply in_stats_with_salary in Hj'. destruct Hj' as [_ [Hs_in Hon]].
    specialize (Hnone s Hs_in).
    apply salary_join_true in Hon. destruct Hon as [Hn' Hs'].
    assert (Hyes : is_true (salary_join pms s) = true).
    { apply salary_join_true. split.
      - exact (same_text_trans _ _ _ (same_text_sym _ _ Hn) Hn').
      - exact (same_text_trans _ _ _ (same_text_sym _ _ Hs) Hs'). }
    congruence.
Qed.

Lemma missing_salary_keeps_the_row_witness :
  In wing_b_24 [guard_a_24; wing_b_24] /\
  unsalaried wing_b_24 [a_contract_24] /\
  (exists r,
     In r (value (main_dashboard_query [guard_a_24; wing_b_24]
                    [a_contract_24])) /\
     MainDashboard.player_name r = Some "B" /\
     MainDashboard.salary r = None) /\
  (exists r,
     In r (value (position_analysis_query [guard_a_24; wing_b_24]
                    [a_contract_24])) /\
     key_weight (PositionAnalysis.position r) = Some "SF") /\
  (forall r,
     In r (value (value_analysis_query [guard_a_24; wing_b_24]
                    [a_contract_24])) ->
     ValueAnalysis.player_name r <> Some "B").
Proof.
  assert (Hin : In wing_b_24 [guard_a_24; wing_b_24]) by (right; now left).
  assert (Hnone : unsalaried wing_b_24 [a_contract_24])
    by (intros ps [<-|[]]; reflexivity).
  destruct (missing_salary_keeps_the_row _ _ _ Hin Hnone)
    as (H10 & _ & H40 & Hvalue).
  split; [exact Hin|]. split; [exact Hnone|].
  split; [|split].
  - destruct (proj1 (H10 eq_refl)) as [r (Hr & _ & Hn & _ & Hs & _)].
    exists r. repeat split; assumption.
  - destruct (H40 eq_refl) as [r [key [members (Hr & _ & _ & Hp & _)]]];
      [discriminate|].
    exists r. split; assumption.
  - intros r Hr Hname. destruct (Hvalue r Hr) as [_ Hnot].
    apply Hnot. split; [now apply same_text_refl|].
    apply in_value_analysis in Hr.
    destruct Hr as [p [ps [Hj [_ [_ ->]]]]].
    apply in_stats_with_salary in Hj. destruct Hj as [Hp _].
    destruct (value_analysis_row p ps) as (_ & H2 & _). rewrite H2.
    destruct Hp as [<-|[<-|[]]]; now apply same_text_refl.
Defined.

(** Under a collation that ignores case, the salary record of "luka doncic"
    is the record of "Luka Doncic", whose row carries the salary; under the
    binary collation the row has none. *)
Example salary_record_found_up_to_case :
  let stats := [player "Luka Doncic" "2023-24" "DAL" (Some "PG") 70 33 12 8] in
  let salaries := [contract "luka doncic" "2023-24" 40000000 9] in
  map MainDashboard.salary
    (value (main_dashboard_query (coll := case_insensitive) stats salaries))
  = [Some 40000000] /\
  map MainDashboard.salary
    (value (main_dashboard_query (coll := binary) stats salaries))
  = [None].
Proof. split; vm_compute; reflexivity. Qed.

(** C7, as stated, fails twice.  A player-season with 50 games, no position
    and no salary record passes the games filter of the position analysis
    and still has no row there; and the team-summary row of a team with one
    salaried and one unsalaried player carries the salaried player's
    payroll, not NULL salary fields. *)
Lemma salary_absence_counterexample :
  (is_true (sql_ge (Stats.games_played unlisted_c_24) (lit 40)) = true /\
   unsalaried unlisted_c_24 [] /\
   value (position_analysis_query [unlisted_c_24] []) = []) /\
  (is_true (sql_ge (Stats.games_played wing_b_24) (lit 10)) = true /\
   unsalaried wing_b_24 [a_contract_24] /\
   map (fun r => (TeamSummary.team r, TeamSummary.roster_count r,
                  TeamSummary.total_payroll r))
     (value (team_summary_query [guard_a_24; wing_b_24] [a_contract_24]))
   = [(Some "BOS", Some 2, Some 10000000)]).
Proof.
  split; (split; [reflexivity|]); split.
  - intros ps [].
  - reflexivity.
  - intros ps [<-|[]]; reflexivity.
  - vm_compute. reflexivity.
Qed.

(* ================================================================== *)
(** ** The orchestrator *)
(* ================================================================== *)

(** Runs [main] symbolically: the queries' results and the formatted
    numbers stay folded. *)
Ltac run_main :=
  cbv -[run_query fmt fmt_commas len String.append nl rule].

Ltac next_fault :=
  match goal with
  | |- context [match ?f ?d with Some _ => _ | None => _ end] =>
      let e := fresh "e" in
      destruct (f d) as [e|] eqn:?; [destruct e as [[|] ? ?]|]; run_main
  end.

(** C4.  When the connection cannot be opened, [main] logs the failure and
    returns: no query is run, no file is written, nothing is closed. *)
Theorem connection_failure_aborts (w : world) :
  connects w = false ->
  fst (run w) = Ok tt /\
  In "Failed to connect to database" (errors_logged (trace w)) /\
  queries_run (trace w) = [] /\
  files_written (trace w) = [] /\
  close_count (trace w) = 0%nat.
Proof.
  destruct w as [cfg connect stats salaries coll rq tc alive].
  unfold connects, trace, run, main, connect_to_database.
  cbn [DB_CONFIG mysql_connect].
  destruct (connect (host cfg) (user cfg) (password cfg) (database cfg))
    as [e|[|]]; [| discriminate |]; intros _; run_main;
    repeat split; auto.
Qed.

Lemma connection_failure_aborts_witness :
  connects world_refused = false /\
  run world_refused
  = (Ok tt,
     [Logged ERROR "Error connecting to MySQL: Access denied";
      Logged ERROR "Failed to connect to database"]) /\
  files_written (trace world_refused) = [].
Proof.
  split; [reflexivity|]. split; [reflexivity|].
  exact (proj1 (proj2 (proj2 (proj2
           (connection_failure_aborts world_refused eq_refl))))).
Defined.

(** C1.  Amended: there is one handler around all five derivations.  The
    first derivation that raises (from its query or from its CSV write)
    ends the sequence: its failure is caught and logged when it is an
    [Exception], the derivations after it are not run, and the files
    written are those of the derivations before it. *)
Theorem first_failure_ends_the_sequence (w : world) :
  connects w = true ->
  files_written (trace w)
  = map csv_file (completed_before_failure w derivations) /\
  queries_run (trace w) = attempted w derivations /\
  match first_failure w derivations with
  | None => fst (run w) = Ok tt /\ errors_logged (trace w) = []
  | Some e =>
      if is_Exception e
      then fst (run w) = Ok tt /\
           errors_logged (trace w)
           = [("Error creating datasets: " ++ str e)%string; format_exc e]
      else fst (run w) = Raise e /\ errors_logged (trace w) = []
  end.
Proof.
  destruct w as [cfg connect stats salaries coll rq tc alive].
  unfold connects, trace, run, main, connect_to_database.
  cbn [DB_CONFIG mysql_connect].
  destruct (connect (host cfg) (user cfg) (password cfg) (database cfg))
    as [e|[|]]; try discriminate; intros _.
  destruct alive; run_main; repeat next_fault; repeat split; reflexivity.
Qed.

Lemma first_failure_ends_the_sequence_witness :
  connects world_third_write_fails = true /\
  files_written (trace world_third_write_fails)
  = ["tableau_main_dashboard.csv"; "tableau_team_summary.csv"] /\
  queries_run (trace world_third_write_fails)
  = [MainDashboardData; TeamSummaryData; PlayerComparisonData].
Proof.
  split; [reflexivity|].
  destruct (first_failure_ends_the_sequence world_third_write_fails eq_refl)
    as (Hfiles & Hqueries & _).
  split; [exact Hfiles | exact Hqueries].
Defined.

(** C1, as stated, fails: when only the first query raises, none of the
    four other derivations fails, yet none of them runs and no file is
    written. *)
Lemma later_derivations_do_not_run :
  connects world_first_query_fails = true /\
  map (failure world_first_query_fails) derivations
  = [Some (error "Unknown column"); None; None; None; None] /\
  fst (run world_first_query_fails) = Ok tt /\
  errors_logged (trace world_first_query_fails)
  = ["Error creating datasets: Unknown column"; "Traceback"] /\
  queries_run (trace world_first_query_fails) = [MainDashboardData] /\
  files_written (trace world_first_query_fails) = [].
Proof. vm_compute. repeat split. Qed.

(** C5.  Amended: once connected, [main] closes the connection at most
    once, as its last action but for the log line that reports it, and on
    every path: after all five derivations, after a caught failure, and
    while an exception that is not an [Exception] propagates.  It closes
    it exactly once when the connection is still connected at that point;
    when [is_connected()] is false there, [close()] is not called. *)
Theorem connection_closed_if_still_connected (w : world) :
  connects w = true ->
  close_count (trace w) = (if is_connected_at_exit w then 1 else 0)%nat /\
  after_close (trace w)
  = (if is_connected_at_exit w
     then [Logged INFO (nl ++ "Database connection closed")%string]
     else []).
Proof.
  destruct w as [cfg connect stats salaries coll rq tc alive].
  unfold connects, trace, run, main, connect_to_database.
  cbn [DB_CONFIG mysql_connect].
  destruct (connect (host cfg) (user cfg) (password cfg) (database cfg))
    as [e|[|]]; try discriminate; intros _.
  destruct alive; run_main; repeat next_fault; split; reflexivity.
Qed.

Lemma connection_closed_if_still_connected_witness :
  connects world_ok = true /\
  is_connected_at_exit world_ok = true /\
  close_count (trace world_ok) = 1%nat /\
  List.length (files_written (trace world_ok)) = 5%nat.
Proof.
  split; [reflexivity|]. split; [reflexivity|].
  split; [|vm_compute; reflexivity].
  exact (proj1 (connection_closed_if_still_connected world_ok eq_refl)).
Defined.

(** C5, as stated, fails: the connection was opened, the server went away
    during the second query, and [main] ends without calling [close()]. *)
Lemma lost_connection_is_not_closed :
  connects world_server_gone = true /\
  is_connected_at_exit world_server_gone = false /\
  fst (run world_server_gone) = Ok tt /\
  files_written (trace world_server_gone) = ["tableau_main_dashboard.csv"] /\
  close_count (trace world_server_gone) = 0%nat.
Proof. vm_compute. repeat split. Qed.

(* ================================================================== *)
(** ** Scenarios of the specification *)
(* ================================================================== *)

Lemma sql_ge_true (a : num) (bound : Q) :
  is_true (sql_ge a (lit bound)) = true <->
  exists g, a = Some g /\ bound <= g.
Proof.
  destruct a as [g|]; simpl.
  - destruct (Qle_bool bound g) eqn:E.
    + apply Qle_bool_iff in E. split; [intros _; now exists g | reflexivity].
    + split; [discriminate|]. intros [x [Hx Hle]]. injection Hx as <-.
      apply Qle_bool_iff in Hle. congruence.
  - split; [discriminate|]. intros [x [Hx _]]. discriminate.
Qed.

Lemma main_dashboard_games {coll : collation}
    (pms : Stats.row) (ps : option Salaries.row) :
  MainDashboard.games_played (value (main_dashboard_select (pms, ps)))
  = Stats.games_played pms.
Proof. unfold main_dashboard_select. row_value. reflexivity. Qed.

(** X1.  The main dashboard keeps exactly the player-seasons with at least
    10 games: every row has 10 games or more, and every stats row with 10
    games or more has a row. *)
Theorem main_dashboard_games_boundary {coll : collation}
    (stats : list Stats.row) (salaries : list Salaries.row) :
  (forall r, In r (value (main_dashboard_query stats salaries)) ->
     exists g, MainDashboard.games_played r = Some g /\ 10 <= g) /\
  (forall pms g, In pms stats -> Stats.games_played pms = Some g ->
     10 <= g ->
     exists r, In r (value (main_dashboard_query stats salaries)) /\
               MainDashboard.player_name r = Stats.player_name pms /\
               MainDashboard.season r = Stats.season pms /\
               MainDashboard.games_played r = Some g).
Proof.
  split.
  - intros r Hr. apply in_main_dashboard in Hr.
    destruct Hr as [pms [ps [_ [Hg ->]]]].
    rewrite main_dashboard_games. now apply sql_ge_true.
  - intros pms g Hin Hgames Hle.
    destruct (left_join_total salary_join pms stats salaries Hin)
      as [ps Hj].
    exists (value (main_dashboard_select (pms, ps))).
    split.
    + apply in_main_dashboard. exists pms, ps.
      split; [exact Hj|]. split; [|reflexivity].
      apply sql_ge_true. now exists g.
    + destruct (main_dashboard_row pms ps) as (H1 & H2 & _).
      now rewrite H1, H2, main_dashboard_games.
Qed.

(** Ten games are enough, nine are not. *)
Example ten_games_in_nine_out :
  map MainDashboard.player_name
    (value (main_dashboard_query
              [player "Ten" "2023-24" "BOS" None 10 5 1 0;
               player "Nine" "2023-24" "BOS" None 9 5 1 0] []))
  = [Some "Ten"].
Proof. reflexivity. Qed.

(** The scenario of the specification: 30 games at 20.0 points per game on
    a salary of 10,000,000 give 2.0 points per million and the tier
    "All-Star (20-25 PPG)". *)
Example twenty_points_on_ten_million :
  map (fun r => (MainDashboard.player_name r,
                 MainDashboard.points_per_million r,
                 MainDashboard.scoring_tier r))
    (value (main_dashboard_query [guard_a_24] [a_contract_24]))
  = [(Some "A", Some 2.00, "All-Star (20-25 PPG)")].
Proof. vm_compute. reflexivity. Qed.

Lemma player_comparison_vorp (j : comparison_join) :
  let r := value (player_comparison_select j) in
  PlayerComparison.current_VORP r
  = Stats.adv_value_over_replacement (curr j) /\
  PlayerComparison.previous_VORP r
  = col Stats.adv_value_over_replacement (prev j) /\
  PlayerComparison.impact_trend r
  = impact_trend (Stats.adv_value_over_replacement (curr j))
      (col Stats.adv_value_over_replacement (prev j)).
Proof.
  cbv zeta. unfold player_comparison_select. row_value.
  repeat split.
Qed.

(** X3.  A missing previous value over replacement counts as zero: with a
    current value above 1 (3.0 in the specification's scenario) the impact
    trend is "Breakout". *)
Theorem breakout_without_previous_season {coll : collation}
    (stats : list Stats.row)
    (salaries : list Salaries.row) (r : PlayerComparison.row) (v : Q) :
  In r (value (player_comparison_query stats salaries)) ->
  PlayerComparison.previous_VORP r = None ->
  PlayerComparison.current_VORP r = Some v ->
  1 < v ->
  PlayerComparison.impact_trend r = "Breakout".
Proof.
  intros Hr Hprev Hcur Hv. apply in_player_comparison in Hr.
  destruct Hr as [j [_ [_ ->]]].
  destruct (player_comparison_vorp j) as (Hc & Hp & Ht).
  rewrite Hc in Hcur. rewrite Hp in Hprev. rewrite Ht, Hcur, Hprev.
  unfold impact_trend, sql_gt, sql_cmp, sql_add, sql_bin, IFNULL, lit.
  assert (E : Qlt_bool (0 + 1) v = true) by (apply Qlt_bool_iff; lra).
  cbn [is_true]. now rewrite E.
Qed.

Lemma breakout_without_previous_season_witness :
  In (value (player_comparison_select rookie_join))
     (value (player_comparison_query [guard_a_24] [a_contract_24])) /\
  PlayerComparison.current_VORP (value (player_comparison_select rookie_join))
  = Some 3 /\
  PlayerComparison.impact_trend (value (player_comparison_select rookie_join))
  = "Breakout".
Proof.
  assert (Hin : In (value (player_comparison_select rookie_join))
                  (value (player_comparison_query [guard_a_24]
                            [a_contract_24])))
    by (vm_compute; left; reflexivity).
  split; [exact Hin|]. split; [reflexivity|].
  apply (breakout_without_previous_season _ _ _ 3 Hin);
    [reflexivity | reflexivity | reflexivity].
Defined.

(* ================================================================== *)
(** ** Thresholds of the bucketed fields *)
(* ================================================================== *)

Lemma Qle_bool_false (x y : Q) : Qle_bool x y = false <-> y < x.
Proof.
  rewrite <- not_true_iff_false, Qle_bool_iff.
  split; [apply Qnot_le_lt | apply Qlt_not_le].
Qed.

Lemma Qlt_bool_false (x y : Q) : Qlt_bool x y = false <-> y <= x.
Proof.
  rewrite <- not_true_iff_false, Qlt_bool_iff.
  split; [apply Qnot_lt_le | apply Qle_not_lt].
Qed.

(** Turns the outcomes of the boolean comparisons into order facts. *)
Ltac order_facts :=
  repeat match goal with
    | H : Qle_bool _ _ = true |- _ => apply Qle_bool_iff in H
    | H : Qle_bool _ _ = false |- _ => apply Qle_bool_false in H
    | H : Qlt_bool _ _ = true |- _ => apply Qlt_bool_iff in H
    | H : Qlt_bool _ _ = false |- _ => apply Qlt_bool_false in H
    end.

(** Opens a hypothesis "the value lies in ..." down to its order facts. *)
Ltac open_range H :=
  repeat match type of H with
    | _ \/ _ => destruct H as [H|H]
    | exists _, _ => let q := fresh "q" in destruct H as [q H]
    | Some _ = Some _ /\ _ =>
        let E := fresh "E" in destruct H as [E H]; injection E as <-
    | None = Some _ /\ _ => let E := fresh "E" in destruct H as [E H];
                            discriminate E
    end.

(** Decides one direction of "label = ... <-> the value lies in ...". *)
Ltac settle H :=
  unfold within, within2 in *;
  first
    [ reflexivity
    | discriminate H
    | solve [open_range H; first [discriminate H | exfalso; lra]]
    | solve [repeat eexists; first [reflexivity | lra | split; lra]]
    | solve [left; reflexivity]
    | solve [right; left; reflexivity]
    | solve [right; repeat eexists; first [lra | split; lra]]
    | solve [right; right; repeat eexists; first [lra | split; lra]]
    | exfalso; lra ].

Ltac thresholds :=
  repeat match goal with
    | |- context [Qle_bool ?a ?b] =>
        let E := fresh "E" in destruct (Qle_bool a b) eqn:E
    | |- context [Qlt_bool ?a ?b] =>
        let E := fresh "E" in destruct (Qlt_bool a b) eqn:E
    end;
  order_facts; cbn [is_true sql_and];
  repeat split; intros H; settle H.

Lemma salary_tier_in_range (salary_rank : num) :
  salary_tier_ranges salary_rank (salary_tier salary_rank).
Proof.
  unfold salary_tier_ranges, salary_tier, sql_le, sql_cmp, lit.
  destruct salary_rank as [k|]; cbn [is_true]; thresholds.
Qed.

Lemma scoring_tier_in_range (ppg : num) :
  scoring_tier_ranges ppg (scoring_tier ppg).
Proof.
  unfold scoring_tier_ranges, scoring_tier, sql_ge, sql_cmp, lit.
  destruct ppg as [p|]; cbn [is_true]; thresholds.
Qed.

Lemma impact_tier_in_range (vorp : num) :
  impact_tier_ranges vorp (impact_tier vorp).
Proof.
  unfold impact_tier_ranges, impact_tier, sql_ge, sql_cmp, lit.
  destruct vorp as [v|]; cbn [is_true]; thresholds.
Qed.

Lemma value_category_in_range (salary_rank vorp : num) :
  value_category_ranges salary_rank vorp (value_category salary_rank vorp).
Proof.
  unfold value_category_ranges, value_category, sql_le, sql_ge, sql_lt,
    sql_gt, sql_cmp, lit.
  destruct salary_rank as [k|], vorp as [v|]; cbn [is_true sql_and];
    thresholds.
Qed.

Lemma performance_trend_in_range (current previous : num) :
  trend_ranges 2 "Significantly Improved" "Improved"
    "Significantly Declined" "Declined" "Stable" current previous
    (performance_trend current previous).
Proof.
  unfold trend_ranges, performance_trend, sql_gt, sql_lt, sql_add, sql_sub,
    sql_bin, sql_cmp, lit.
  destruct previous as [p|], current as [c|];
    cbn [IFNULL or_zero is_true]; thresholds.
Qed.

Lemma impact_trend_in_range (current previous : num) :
  trend_ranges 1 "Breakout" "Improving" "Regression" "Declining"
    "Consistent" current previous (impact_trend current previous).
Proof.
  unfold trend_ranges, impact_trend, sql_gt, sql_lt, sql_add, sql_sub,
    sql_bin, sql_cmp, lit.
  destruct previous as [p|], current as [c|];
    cbn [IFNULL or_zero is_true]; thresholds.
Qed.

(** X4.  In every main-dashboard row the three tiers follow the documented
    ranges: the salary tier by rank (up to 10, 30, 50, 100, 200, beyond or
    no rank), the scoring tier by points per game (from 25, 20, 15, 10,
    below or none) and the impact tier by value over replacement (from 6,
    4, 2, 0, below or none); the ranges of a field are disjoint. *)
Theorem main_dashboard_tiers_follow_ranges {coll : collation}
    (stats : list Stats.row) (salaries : list Salaries.row) :
  Forall
    (fun r =>
       salary_tier_ranges (MainDashboard.salary_rank r)
         (MainDashboard.salary_tier r) /\
       scoring_tier_ranges (MainDashboard.ppg r)
         (MainDashboard.scoring_tier r) /\
       impact_tier_ranges (MainDashboard.VORP r)
         (MainDashboard.impact_tier r))
    (value (main_dashboard_query stats salaries)).
Proof.
  apply Forall_forall. intros r Hr. apply in_main_dashboard in Hr.
  destruct Hr as [pms [ps [_ [_ ->]]]].
  destruct (main_dashboard_row pms ps)
    as (_ & _ & _ & _ & Hk & Hp & _ & Hv & _ & _ & _ & H1 & H2 & H3).
  rewrite Hk, Hp, Hv, H1, H2, H3.
  split; [apply salary_tier_in_range|].
  split; [apply scoring_tier_in_range | apply impact_tier_in_range].
Qed.

(** X5.  In every value-analysis row the value category follows the
    documented crossing of salary rank (up to 50, beyond) and value over
    replacement (from 4, from 2, from 0 or below 2); a row whose rank or
    value over replacement is missing is "Below Average". *)
Theorem value_category_follows_ranges {coll : collation}
    (stats : list Stats.row) (salaries : list Salaries.row) :
  Forall
    (fun r =>
       value_category_ranges (ValueAnalysis.salary_rank r)
         (ValueAnalysis.VORP r) (ValueAnalysis.value_category r))
    (value (value_analysis_query stats salaries)).
Proof.
  apply Forall_forall. intros r Hr. apply in_value_analysis in Hr.
  destruct Hr as [pms [ps [_ [_ [_ ->]]]]].
  destruct (value_analysis_row pms ps)
    as (_ & _ & _ & Hk & _ & _ & Hv & _ & _ & _ & _ & H1).
  rewrite Hk, Hv, H1. apply value_category_in_range.
Qed.

(** X6.  In every comparison row the two trends follow the change against
    the previous season, a missing previous value counting as 0: more than
    2 points (1 of value over replacement) up or down is the strong label,
    any smaller change the weak one, and no change, or a missing current
    value, is "Stable" ("Consistent"). *)
Theorem trends_follow_ranges {coll : collation} (stats : list Stats.row)
    (salaries : list Salaries.row) :
  Forall
    (fun r =>
       trend_ranges 2 "Significantly Improved" "Improved"
         "Significantly Declined" "Declined" "Stable"
         (PlayerComparison.current_ppg r) (PlayerComparison.previous_ppg r)
         (PlayerComparison.performance_trend r) /\
       trend_ranges 1 "Breakout" "Improving" "Regression" "Declining"
         "Consistent"
         (PlayerComparison.current_VORP r) (PlayerComparison.previous_VORP r)
         (PlayerComparison.impact_trend r))
    (value (player_comparison_query stats salaries)).
Proof.
  apply Forall_forall. intros r Hr. apply in_player_comparison in Hr.
  destruct Hr as [j [_ [_ ->]]].
  destruct (player_comparison_row j)
    as (_ & _ & _ & _ & _ & _ & _ & _ & H1 & H2 & Hp & Hq & Hv & Hw).
  rewrite Hp, Hq, Hv, Hw, H1, H2.
  split; [apply performance_trend_in_range | apply impact_trend_in_range].
Qed.

(* ================================================================== *)
(** ** Which rows a query returns *)
(* ================================================================== *)

(** X7.  The value analysis is an inner join in effect: its rows are
    exactly those built from a stats row with at least 20 games and a
    salary record of the same player and season whose salary is not
    null, the record being one the join condition accepts under the
    collation of the columns. *)
Theorem value_analysis_is_an_inner_join {coll : collation}
    (stats : list Stats.row)
    (salaries : list Salaries.row) (r : ValueAnalysis.row) :
  In r (value (value_analysis_query stats salaries)) <->
  exists pms ps,
    In pms stats /\ In ps salaries /\
    is_true (salary_join pms ps) = true /\
    within (Stats.games_played pms) (fun g => 20 <= g) /\
    Salaries.salary ps <> None /\
    r = value (value_analysis_select (pms, Some ps)).
Proof.
  rewrite in_value_analysis. split.
  - intros [pms [[ps|] [Hj [Hg [Hs Hr]]]]]; [|now contradiction Hs].
    apply in_stats_with_salary in Hj. destruct Hj as [Hp [Hps Hon]].
    exists pms, ps. apply sql_ge_true in Hg. now repeat split.
  - intros [pms [ps (Hp & Hps & Hon & Hg & Hs & Hr)]].
    exists pms, (Some ps).
    split; [apply in_stats_with_salary; now split|].
    split; [now apply sql_ge_true|]. now split.
Qed.

(** X8.  The salary fields of a main-dashboard row come from a salary
    record of the same player and the same season, as [=] finds them so
    under the collation of the columns: a row never carries the salary of
    another player or of another year. *)
Theorem salary_fields_come_from_the_matching_record {coll : collation}
    (stats : list Stats.row) (salaries : list Salaries.row) :
  Forall
    (fun r =>
       (MainDashboard.salary r <> None \/
        MainDashboard.salary_formatted r <> None \/
        MainDashboard.salary_rank r <> None) ->
       exists ps,
         In ps salaries /\
         same_text (MainDashboard.player_name r) (Salaries.player_name ps) /\
         same_text (MainDashboard.season r) (Salaries.season ps) /\
         MainDashboard.salary r = Salaries.salary ps /\
         MainDashboard.salary_formatted r = Salaries.salary_formatted ps /\
         MainDashboard.salary_rank r = Salaries.salary_rank ps)
    (value (main_dashboard_query stats salaries)).
Proof.
  apply Forall_forall. intros r Hr. apply in_main_dashboard in Hr.
  destruct Hr as [pms [ps [Hj [_ ->]]]].
  destruct (main_dashboard_row pms ps) as (H1 & H2 & H3 & H4 & H5 & _).
  rewrite H1, H2, H3, H4, H5.
  apply in_stats_with_salary in Hj. destruct Hj as [_ Hps].
  destruct ps as [s|]; cbn [col].
  - intros _. destruct Hps as [Hs Hon]. apply salary_join_true in Hon.
    destruct Hon as [Hn Hy]. exists s. now repeat split.
  - intros [H|[H|H]]; now contradiction H.
Qed.

Lemma filter_none {A : Type} (f : A -> bool) (l : list A) :
  Forall (fun x => f x = false) l -> filter f l = [].
Proof.
  induction 1 as [|x l Hx _ IH]; [reflexivity|].
  cbn [filter]. now rewrite Hx.
Qed.

Lemma at_most_one_salary {coll : collation}
    (salaries : list Salaries.row) (pms : Stats.row) :
  one_salary_per_player_season salaries ->
  (List.length (filter (fun ps => is_true (salary_join pms ps)) salaries)
   <= 1)%nat.
Proof.
  induction 1 as [|a l Ha _ IH]; [cbn; lia|].
  cbn [filter]. destruct (is_true (salary_join pms a)) eqn:E; [|exact IH].
  rewrite filter_none; [cbn; lia|].
  apply Forall_forall. intros b Hb.
  destruct (is_true (salary_join pms b)) eqn:Eb; [|reflexivity].
  exfalso. rewrite Forall_forall in Ha. apply (Ha b Hb).
  apply salary_join_true in E, Eb.
  destruct E as [Hn Hs]. destruct Eb as [Hn' Hs'].
  split; [exact (same_text_trans _ _ _ (same_text_sym _ _ Hn) Hn')|].
  exact (same_text_trans _ _ _ (same_text_sym _ _ Hs) Hs').
Qed.

(** The rows one stats row contributes to the filtered join. *)
Lemma main_dashboard_source_cons {coll : collation}
    (pms : Stats.row) (stats : list Stats.row) (salaries : list Salaries.row) :
  where_ main_dashboard_where (stats_with_salary (pms :: stats) salaries)
  = (if ten_games pms
     then match filter (fun ps => is_true (salary_join pms ps)) salaries with
          | [] => [(pms, None)]
          | ms => map (fun ps => (pms, Some ps)) ms
          end
     else [])
    ++ where_ main_dashboard_where (stats_with_salary stats salaries).
Proof.
  unfold where_, stats_with_salary, left_join. cbn [flat_map].
  rewrite filter_app. f_equal.
  unfold ten_games, main_dashboard_where.
  destruct (filter (fun ps => is_true (salary_join pms ps)) salaries)
    as [|m ms].
  - cbn [filter fst]. now destruct (is_true _).
  - generalize (m :: ms). intros l.
    destruct (is_true (sql_ge (Stats.games_played pms) (lit 10))) eqn:E.
    + induction l as [|x l IH]; [reflexivity|].
      cbn [map filter fst]. rewrite E. now f_equal.
    + induction l as [|x l IH]; [reflexivity|].
      cbn [map filter fst]. now rewrite E.
Qed.

Lemma main_dashboard_length {coll : collation} (stats : list Stats.row)
    (salaries : list Salaries.row) :
  List.length (value (main_dashboard_query stats salaries))
  = List.length (where_ main_dashboard_where
                   (stats_with_salary stats salaries)).
Proof.
  unfold main_dashboard_query.
  rewrite value_wbind, value_wret, value_wmap.
  rewrite (Permutation_length (order_by_perm _ _)).
  apply length_map.
Qed.

(** X9.  The main dashboard returns at least one row for every stats row
    with 10 games or more, and exactly one when the salary table holds at
    most one record per player and season, two records being for the same
    player and season when [=] finds them so under the collation of the
    columns; a duplicated salary record duplicates the row. *)
Theorem main_dashboard_row_count {coll : collation} (stats : list Stats.row)
    (salaries : list Salaries.row) :
  (List.length (filter ten_games stats)
   <= List.length (value (main_dashboard_query stats salaries)))%nat /\
  (one_salary_per_player_season salaries ->
   List.length (value (main_dashboard_query stats salaries))
   = List.length (filter ten_games stats)).
Proof.
  rewrite main_dashboard_length. split.
  - induction stats as [|pms stats IH]; [cbn; lia|].
    rewrite main_dashboard_source_cons, length_app. cbn [filter].
    destruct (ten_games pms); [|exact IH].
    destruct (filter (fun ps => is_true (salary_join pms ps)) salaries);
      cbn [List.length map]; lia.
  - intros Hone. induction stats as [|pms stats IH]; [reflexivity|].
    rewrite main_dashboard_source_cons, length_app, IH. cbn [filter].
    destruct (ten_games pms); [|reflexivity].
    pose proof (at_most_one_salary salaries pms Hone) as Hle.
    destruct (filter (fun ps => is_true (salary_join pms ps)) salaries)
      as [|m [|m' ms]]; cbn [List.length map] in *; lia.
Qed.

(** Two records for one player and season give two rows, also when the
    two spell the name in different case. *)
Example duplicated_salary_record_duplicates_the_row :
  List.length
    (value (main_dashboard_query [guard_a_24]
              [a_contract_24; a_contract_24]))
  = 2%nat /\
  List.length
    (value (main_dashboard_query [guard_a_24]
              [a_contract_24; contract "a" "2023-24" 9000000 7]))
  = 2%nat.
Proof. split; reflexivity. Qed.

(** X10.  The games filter of the comparison applies to the current season
    only: a player with 20 games or more this season is paired with the
    previous season's stats row whatever the games played then. *)
Theorem previous_season_needs_no_minimum_games {coll : collation}
    (stats : list Stats.row)
    (salaries : list Salaries.row) (c p : Stats.row) (name : string) :
  In c stats -> In p stats ->
  Stats.player_name c = Some name -> Stats.player_name p = Some name ->
  (Stats.season c = Some "2023-24" /\ Stats.season p = Some "2022-23") \/
  (Stats.season c = Some "2024-25" /\ Stats.season p = Some "2023-24") ->
  within (Stats.games_played c) (fun g => 20 <= g) ->
  exists r,
    In r (value (player_comparison_query stats salaries)) /\
    PlayerComparison.player_name r = Some name /\
    PlayerComparison.current_season r = Stats.season c /\
    PlayerComparison.current_games r = Stats.games_played c /\
    previous_fields_of r p.
Proof.
  intros Hc Hp Hnc Hnp Hpair Hg.
  destruct (left_join_total salary_join c stats salaries Hc) as [cs Hcs].
  assert (Hcp : In ((c, cs), Some p)
                  (left_join previous_season_join
                     (stats_with_salary stats salaries) stats)).
  { apply in_left_join. split; [exact Hcs|]. split; [exact Hp|].
    apply previous_season_join_true. cbn [fst].
    split; [now exists name, name|].
    destruct Hpair as [[H1 H2]|[H1 H2]]; [left | right];
      split; now apply same_text_refl. }
  destruct (left_join_total previous_salary_join _ _ salaries Hcp)
    as [s Hs].
  exists (value (player_comparison_select
                   {| curr := c; curr_sal := cs; prev := Some p;
                      prev_sal := s |})).
  split.
  - apply in_player_comparison. eexists. split; [|split; [|reflexivity]].
    + unfold comparison_joins. apply in_map_iff.
      exists (((c, cs), Some p), s). split; [reflexivity | exact Hs].
    + now apply sql_ge_true.
  - destruct (player_comparison_row
                {| curr := c; curr_sal := cs; prev := Some p;
                   prev_sal := s |}) as (H1 & H2 & _).
    destruct (player_comparison_previous_fields
                {| curr := c; curr_sal := cs; prev := Some p;
                   prev_sal := s |})
      as (F1 & F2 & _ & _ & F5 & F6 & F7 & F8 & F9 & F10 & F11 & F12 & F13).
    unfold previous_fields_of.
    rewrite H1, H2, F1, F2, F5, F6, F7, F8, F9, F10, F11, F12, F13.
    cbn [col curr]. repeat split; try assumption.
    unfold player_comparison_select. row_value. reflexivity.
Qed.

Lemma previous_season_needs_no_minimum_games_witness :
  Stats.games_played benched_a_23 = Some 5 /\
  exists r,
    In r (value (player_comparison_query [guard_a_24; benched_a_23]
                   [a_contract_24])) /\
    PlayerComparison.current_season r = Some "2023-24" /\
    PlayerComparison.previous_games r = Some 5.
Proof.
  split; [reflexivity|].
  destruct (previous_season_needs_no_minimum_games
              [guard_a_24; benched_a_23] [a_contract_24]
              guard_a_24 benched_a_23 "A")
    as [r (Hr & _ & Hs & _ & Hf)].
  - now left.
  - right. now left.
  - reflexivity.
  - reflexivity.
  - left. split; reflexivity.
  - exists 30. split; [reflexivity | discriminate].
  - exists r. split; [exact Hr|]. split; [exact Hs|].
    destruct Hf as (_ & _ & Hgames & _). exact Hgames.
Defined.

(* ================================================================== *)
(** ** The external actions of a run *)
(* ================================================================== *)

(** X11.  A connected run performs these external actions and no other, in
    this order: for each derivation in turn its query and then the write of
    that query's result to the derivation's file, stopping at the first
    query or write that raises, and at the end [close()] if the connection
    is still connected. *)
Theorem run_queries_then_writes_then_closes (w : world) :
  connects w = true ->
  io_events (trace w)
  = queries_and_writes w derivations
    ++ (if is_connected_at_exit w then [Closed] else []).
Proof.
  destruct w as [cfg connect stats salaries coll rq tc alive].
  unfold connects, trace, run, main, connect_to_database.
  cbn [DB_CONFIG mysql_connect].
  destruct (connect (host cfg) (user cfg) (password cfg) (database cfg))
    as [e|[|]]; try discriminate; intros _.
  destruct alive; run_main; repeat next_fault; reflexivity.
Qed.

Lemma run_queries_then_writes_then_closes_witness :
  connects world_third_write_fails = true /\
  map (fun e => match e with
                | Wrote file _ => file
                | Queried _ => "query"
                | Closed => "close"
                | Logged _ _ => "log"
                end)
    (io_events (trace world_third_write_fails))
  = ["query"; "tableau_main_dashboard.csv";
     "query"; "tableau_team_summary.csv"; "query"; "close"].
Proof.
  split; [reflexivity|].
  rewrite (run_queries_then_writes_then_closes world_third_write_fails
             eq_refl).
  reflexivity.
Defined.

(* ================================================================== *)
(** ** The order of the rows *)
(* ================================================================== *)

Lemma text_compare_antisym {coll : collation} (a b : text) :
  text_compare a b = CompOpp (text_compare b a).
Proof.
  destruct a, b; cbn; try reflexivity. apply String.compare_antisym.
Qed.

Lemma num_compare_antisym (a b : num) :
  num_compare a b = CompOpp (num_compare b a).
Proof.
  destruct a, b; cbn; try reflexivity. symmetry. apply Qcompare_antisym.
Qed.

Section OrderBy.
Context {A : Type} (k1 : A -> text) (k2 : A -> num).

Lemma desc_desc_not_after {coll : collation} (a b : A) :
  desc_desc k1 k2 a b = true <-> not_after k1 k2 a b.
Proof.
  unfold desc_desc, not_after.
  destruct (text_compare (k1 a) (k1 b));
    [destruct (num_compare (k2 a) (k2 b))|..];
    intuition congruence.
Qed.

(** Of two rows, one may stand before the other. *)
Lemma desc_desc_total {coll : collation} (a b : A) :
  desc_desc k1 k2 a b = false -> desc_desc k1 k2 b a = true.
Proof.
  unfold desc_desc.
  rewrite (text_compare_antisym (k1 b)), (num_compare_antisym (k2 b)).
  destruct (text_compare (k1 a) (k1 b));
    destruct (num_compare (k2 a) (k2 b)); cbn; congruence.
Qed.

Lemma insert_sorted_sorted {coll : collation} (x : A) (l : list A) :
  Sorted (not_after k1 k2) l ->
  Sorted (not_after k1 k2) (insert_sorted (desc_desc k1 k2) x l).
Proof.
  induction 1 as [|y l Hl IH Hy]; cbn [insert_sorted].
  - repeat constructor.
  - destruct (desc_desc k1 k2 x y) eqn:E.
    + constructor; [now constructor|].
      constructor. now apply desc_desc_not_after.
    + constructor; [exact IH|].
      apply desc_desc_total, desc_desc_not_after in E.
      destruct l as [|z l]; cbn [insert_sorted].
      * now constructor.
      * destruct (desc_desc k1 k2 x z); constructor; [exact E|].
        now inversion Hy.
Qed.

Lemma order_by_sorted {coll : collation} (l : list A) :
  Sorted (not_after k1 k2) (order_by (desc_desc k1 k2) l).
Proof.
  induction l as [|x l IH]; [constructor|].
  cbn [order_by fold_right]. now apply insert_sorted_sorted.
Qed.
End OrderBy.

Lemma query_sorted {coll : collation}
    {A B : Type} (select : A -> W B) (k1 : B -> text)
    (k2 : B -> num) (source : list A) :
  Sorted (not_after k1 k2)
    (value (wbind (wmap select source)
              (fun rows => wret (order_by (desc_desc k1 k2) rows)))).
Proof. rewrite value_wbind, value_wret. apply order_by_sorted. Qed.

(** X12.  The rows of each query come in the order its ORDER BY asks for:
    by season, latest first, and within a season by the second key
    (salary, total value over replacement, change of value over
    replacement, value score, average value over replacement), greatest
    first and NULL last. *)
Theorem rows_are_ordered {coll : collation} (stats : list Stats.row)
    (salaries : list Salaries.row) :
  Sorted (not_after MainDashboard.season MainDashboard.salary)
    (value (main_dashboard_query stats salaries)) /\
  Sorted (not_after TeamSummary.season TeamSummary.total_VORP)
    (value (team_summary_query stats salaries)) /\
  Sorted (not_after PlayerComparison.current_season
            PlayerComparison.vorp_change)
    (value (player_comparison_query stats salaries)) /\
  Sorted (not_after ValueAnalysis.season ValueAnalysis.value_score)
    (value (value_analysis_query stats salaries)) /\
  Sorted (not_after PositionAnalysis.season PositionAnalysis.avg_VORP)
    (value (position_analysis_query stats salaries)).
Proof. repeat split; apply query_sorted. Qed.

(* ================================================================== *)
(** ** Groups *)
(* ================================================================== *)

Section Groups.
Context {K B A : Type} (eqb : K -> K -> bool) (norm : K -> B) (key : A -> K).
Hypothesis eqb_norm : forall a b, eqb a b = true <-> norm a = norm b.





End Groups.




(** Under a collation that ignores case, "BOS" and "bos" are one team with
    one row; under the binary collation they are two. *)
Example team_rows_up_to_case :
  let stats :=
    [player "A" "2023-24" "BOS" (Some "PG") 30 20 5 3;
     player "B" "2023-24" "bos" (Some "SF") 70 12 3 1] in
  map (fun r => (TeamSummary.team r, TeamSummary.roster_count r))
    (value (team_summary_query (coll := case_insensitive) stats []))
  = [(Some "BOS", Some 2)] /\
  map (fun r => (TeamSummary.team r, TeamSummary.roster_count r))
    (value (team_summary_query (coll := binary) stats []))
  = [(Some "BOS", Some 1); (Some "bos", Some 1)].
Proof. split; vm_compute; reflexivity. Qed.


(* ================================================================== *)
(** ** Salary aggregates of a group *)
(* ================================================================== *)

Lemma non_null_nil {A : Type} (l : list (option A)) :
  non_null l = [] <-> Forall (fun a => a = None) l.
Proof.
  induction l as [|[x|] l IH]; cbn [non_null].
  - split; [constructor | reflexivity].
  - split; [discriminate|]. intros H. inversion H. discriminate.
  - rewrite IH. split; [now constructor | intros H; now inversion H].
Qed.

Lemma agg_null (f : Q -> list Q -> Q) (l : list num) :
  agg f l = None <-> Forall (fun a => a = None) l.
Proof.
  rewrite <- non_null_nil. unfold agg.
  destruct (non_null l); split; congruence.
Qed.

Lemma fold_min_bound (xs : list Q) (x : Q) :
  fold_left Qmin xs x <= x /\
  Forall (fun y => fold_left Qmin xs x <= y) xs.
Proof.
  revert x. induction xs as [|y xs IH]; intros x; cbn [fold_left].
  - split; [apply Qle_refl | constructor].
  - destruct (IH (Qmin x y)) as [H1 H2].
    assert (Hx : Qmin x y <= x /\ Qmin x y <= y).
    { unfold Qmin. destruct (Qle_bool x y) eqn:E.
      - apply Qle_bool_iff in E. split; [apply Qle_refl | exact E].
      - apply Qle_bool_false in E. split; [lra | apply Qle_refl]. }
    split; [lra|]. constructor; [lra | exact H2].
Qed.

Lemma fold_max_bound (xs : list Q) (x : Q) :
  x <= fold_left Qmax xs x /\
  Forall (fun y => y <= fold_left Qmax xs x) xs.
Proof.
  revert x. induction xs as [|y xs IH]; intros x; cbn [fold_left].
  - split; [apply Qle_refl | constructor].
  - destruct (IH (Qmax x y)) as [H1 H2].
    assert (Hx : x <= Qmax x y /\ y <= Qmax x y).
    { unfold Qmax. destruct (Qle_bool x y) eqn:E.
      - apply Qle_bool_iff in E. split; [exact E | apply Qle_refl].
      - apply Qle_bool_false in E. split; [apply Qle_refl | lra]. }
    split; [lra|]. constructor; [lra | exact H2].
Qed.

(** MIN and MAX bound every non-null value of the column. *)
Lemma min_max_bound (l : list num) (lo hi : Q) :
  MIN l = Some lo -> MAX l = Some hi ->
  Forall (fun a => forall s, a = Some s -> lo <= s <= hi) l.
Proof.
  unfold MIN, MAX, agg. intros Hlo Hhi.
  assert (H : Forall (fun s => lo <= s <= hi) (non_null l)).
  { destruct (non_null l) as [|x xs]; [discriminate|].
    injection Hlo as <-. injection Hhi as <-.
    destruct (fold_min_bound xs x) as [L1 L2].
    destruct (fold_max_bound xs x) as [U1 U2].
    constructor; [now split|].
    rewrite Forall_forall in *. intros s Hs. split; auto. }
  clear Hlo Hhi. induction l as [|[x|] l IH]; cbn [non_null] in H.
  - constructor.
  - inversion H; subst. constructor; [|now apply IH].
    intros s E. now injection E as <-.
  - constructor; [discriminate | now apply IH].
Qed.

(** X15.  The four salary aggregates of a team-summary row are null
    together, exactly when no player of the group has a salary; otherwise
    the minimum and the maximum salary bound the salary of every player of
    the group. *)
Theorem team_salary_aggregates {coll : collation} (stats : list Stats.row)
    (salaries : list Salaries.row) :
  Forall
    (fun g =>
       let r := value (team_summary_select g) in
       let paid := ps_column Salaries.salary (snd g) in
       (TeamSummary.total_payroll r = None <->
        Forall (fun s => s = None) paid) /\
       (TeamSummary.avg_salary r = None <->
        TeamSummary.total_payroll r = None) /\
       (TeamSummary.max_salary r = None <->
        TeamSummary.total_payroll r = None) /\
       (TeamSummary.min_salary r = None <->
        TeamSummary.total_payroll r = None) /\
       (forall lo hi,
          TeamSummary.min_salary r = Some lo ->
          TeamSummary.max_salary r = Some hi ->
          Forall (fun a => forall s, a = Some s -> lo <= s <= hi) paid))
    (team_summary_groups stats salaries).
Proof.
  apply Forall_forall. intros [key members] _. cbv zeta. cbn [snd].
  unfold team_summary_select. row_value.
  cbn [TeamSummary.total_payroll TeamSummary.avg_salary
         TeamSummary.max_salary TeamSummary.min_salary].
  unfold SUM, AVG, MAX, MIN. rewrite ROUND_null, !agg_null.
  repeat split; try tauto.
  intros lo hi. apply min_max_bound.
Qed.

(* ================================================================== *)
(** ** Season year and award flags *)
(* ================================================================== *)

Lemma in_count_from (y start : N) (n : nat) :
  (start <= y < start + N.of_nat n)%N -> In y (count_from start n).
Proof.
  revert start. induction n as [|n IH]; intros start H; [lia|].
  cbn [count_from]. destruct (N.eq_dec start y) as [->|Hne]; [now left|].
  right. apply IH. lia.
Qed.

Lemma substring_of_four (s rest : string) :
  String.length s = 4%nat -> String.substring 0 4 (s ++ rest) = s.
Proof.
  destruct s as [|a [|b [|c [|d [|e s]]]]]; try discriminate.
  intros _. cbn. now destruct rest.
Qed.

Lemma four_digit_years :
  forallb
    (fun y =>
       Nat.eqb (String.length (year_numeral y)) 4 &&
       N.eqb (leading_digits (year_numeral y) 0) y)
    (count_from 1000 (N.to_nat 9000))
  = true.
Proof. vm_compute. reflexivity. Qed.

Lemma season_year_of_label (y : N) (rest : string) :
  (1000 <= y <= 9999)%N ->
  season_year_of (Some (year_numeral y ++ rest)%string)
  = Some (inject_Z (Z.of_N y)).
Proof.
  intros Hy.
  pose proof four_digit_years as H. rewrite forallb_forall in H.
  specialize (H y (in_count_from y 1000 (N.to_nat 9000)
                     ltac:(rewrite N2Nat.id; lia))).
  apply andb_true_iff in H. destruct H as [Hlen Hnum].
  apply Nat.eqb_eq in Hlen. apply N.eqb_eq in Hnum.
  unfold season_year_of. cbn [option_map].
  now rewrite substring_of_four, Hnum.
Qed.

Lemma main_dashboard_season_year {coll : collation} (pms : Stats.row)
    (ps : option Salaries.row) :
  MainDashboard.season_year (value (main_dashboard_select (pms, ps)))
  = season_year_of (Stats.season pms).
Proof. unfold main_dashboard_select. row_value. reflexivity. Qed.

(** X16.  The season year of a main-dashboard row is the year its season
    label starts with: a label made of a four-digit year and any suffix
    (such as 2023 and -24) gives that year; no season gives no year. *)
Theorem season_year_is_the_starting_year {coll : collation}
    (stats : list Stats.row) (salaries : list Salaries.row) :
  Forall
    (fun r =>
       (forall y rest,
          (1000 <= y <= 9999)%N ->
          MainDashboard.season r = Some (year_numeral y ++ rest)%string ->
          MainDashboard.season_year r = Some (inject_Z (Z.of_N y))) /\
       (MainDashboard.season r = None ->
        MainDashboard.season_year r = None))
    (value (main_dashboard_query stats salaries)).
Proof.
  apply Forall_forall. intros r Hr. apply in_main_dashboard in Hr.
  destruct Hr as [pms [ps [_ [_ ->]]]].
  destruct (main_dashboard_row pms ps) as (_ & H2 & _).
  rewrite H2, main_dashboard_season_year. split.
  - intros y rest Hy ->. now apply season_year_of_label.
  - now intros ->.
Qed.

(** The label of the sample season. *)
Example season_2023_24 :
  (year_numeral 2023 ++ "-24")%string = "2023-24" /\
  season_year_of (Some "2023-24") = Some 2023.
Proof. split; reflexivity. Qed.

Lemma some_prefix_spec (m : string -> bool) (s : string) :
  some_prefix m s = true <->
  exists mid rest, s = (mid ++ rest)%string /\ m mid = true.
Proof.
  revert m. induction s as [|c s IH]; intros m; cbn [some_prefix];
    rewrite orb_true_iff.
  - split.
    + intros [H|H]; [|discriminate]. now exists "", "".
    + intros (mid & rest & Hs & Hm). left.
      destruct mid; [exact Hm | discriminate Hs].
  - rewrite IH. split.
    + intros [H|(mid & rest & Hs & Hm)].
      * now exists "", (String c s).
      * exists (String c mid), rest. split; [cbn; now rewrite Hs | exact Hm].
    + intros (mid & rest & Hs & Hm). destruct mid as [|a mid].
      * left. exact Hm.
      * right. cbn in Hs. injection Hs as -> ->. now exists mid, rest.
Qed.

(** LIKE with a wildcard on both sides finds the pattern anywhere: a
    stretch of the text matches it. *)
Lemma contains_spec {coll : collation} (pat s : string) :
  contains pat s = true <->
  exists before mid after,
    s = (before ++ mid ++ after)%string /\ like_eqb pat mid = true.
Proof.
  induction s as [|c s IH]; cbn [contains];
    rewrite orb_true_iff, some_prefix_spec.
  - split.
    + intros [(mid & rest & Hs & Hm)|H]; [|discriminate].
      now exists "", mid, rest.
    + intros (before & mid & after & Hs & Hm). left.
      destruct before; [|discriminate]. now exists mid, after.
  - rewrite IH. split.
    + intros [(mid & rest & Hs & Hm)|(before & mid & after & Hs & Hm)].
      * now exists "", mid, rest.
      * exists (String c before), mid, after.
        split; [cbn; now rewrite Hs | exact Hm].
    + intros (before & mid & after & Hs & Hm).
      destruct before as [|b before].
      * left. now exists mid, after.
      * right. cbn in Hs. injection Hs as _ Hs. now exists before, mid, after.
Qed.

Lemma award_flag_flags {coll : collation} (awards : text) (pat : string) :
  flags awards pat (award_flag awards pat).
Proof.
  unfold flags, award_flag, mentions, like_contains, lit.
  destruct awards as [a|]; cbn [option_map is_true].
  - destruct (contains pat a) eqn:E.
    + apply contains_spec in E. destruct E as (b & m & c & -> & Hm).
      split; split; try discriminate.
      * intros _. now exists b, m, c.
      * reflexivity.
      * intros H. exfalso. apply H. now exists b, m, c.
    + assert (Hno : ~ exists b m c,
                        Some a = Some (b ++ m ++ c)%string /\
                        like_eqb pat m = true).
      { intros (b & m & c & H & Hm). injection H as ->.
        assert (Hc : contains pat (b ++ m ++ c)%string = true)
          by (apply contains_spec; now exists b, m, c).
        congruence. }
      split; split; try discriminate; try tauto; reflexivity.
  - assert (Hno : ~ exists b m c,
                      @None string = Some (b ++ m ++ c)%string /\
                      like_eqb pat m = true)
      by (intros (b & m & c & H & _); discriminate).
    split; split; try discriminate; try tauto; reflexivity.
Qed.

(** Under a collation that ignores case, LIKE finds MVP in lower case too;
    under the binary collation it does not. *)
Example award_found_up_to_case :
  award_flag (coll := case_insensitive) (Some "mvp-1,as") "MVP" = Some 1 /\
  award_flag (coll := binary) (Some "mvp-1,as") "MVP" = Some 0 /\
  award_flag (coll := binary) (Some "MVP-1,AS") "MVP" = Some 1.
Proof. repeat split. Qed.

(** X17.  The four award flags of a main-dashboard row are 1 or 0, never
    null: 1 exactly when the awards text is there and contains MVP, AS,
    NBA1 or DPOY respectively, anywhere in it, a stretch of the text being
    the pattern when LIKE finds it so under the collation of the column. *)
Theorem award_flags_follow_the_awards_text {coll : collation}
    (stats : list Stats.row) (salaries : list Salaries.row) :
  Forall
    (fun r =>
       flags (MainDashboard.awards r) "MVP"
         (MainDashboard.is_mvp_candidate r) /\
       flags (MainDashboard.awards r) "AS" (MainDashboard.is_allstar r) /\
       flags (MainDashboard.awards r) "NBA1"
         (MainDashboard.is_all_nba_first r) /\
       flags (MainDashboard.awards r) "DPOY"
         (MainDashboard.is_dpoy_candidate r))
    (value (main_dashboard_query stats salaries)).
Proof.
  apply Forall_forall. intros r Hr. apply in_main_dashboard in Hr.
  destruct Hr as [pms [ps [_ [_ ->]]]].
  unfold main_dashboard_select. row_value.
  cbn [MainDashboard.awards MainDashboard.is_mvp_candidate
         MainDashboard.is_allstar MainDashboard.is_all_nba_first
         MainDashboard.is_dpoy_candidate].
  repeat split; apply award_flag_flags.
Qed.

(* ================================================================== *)
(** ** Rounding *)
(* ================================================================== *)

Lemma round_half_away_error (y : Q) :
  y - (1 # 2) <= inject_Z (round_half_away y) <= y + (1 # 2).
Proof.
  unfold round_half_away. destruct (Qle_bool 0 y).
  - pose proof (Qfloor_le (y + (1 # 2))) as H1.
    pose proof (Qlt_floor (y + (1 # 2))) as H2.
    rewrite inject_Z_plus in H2. change (inject_Z 1) with 1 in H2.
    revert H1 H2. generalize (inject_Z (Qfloor (y + (1 # 2)))).
    intros f H1 H2. split; lra.
  - pose proof (Qfloor_le (- y + (1 # 2))) as H1.
    pose proof (Qlt_floor (- y + (1 # 2))) as H2.
    rewrite inject_Z_plus in H2. change (inject_Z 1) with 1 in H2.
    rewrite inject_Z_opp.
    revert H1 H2. generalize (inject_Z (Qfloor (- y + (1 # 2)))).
    intros f H1 H2. split; lra.
Qed.

(** ROUND to [d] decimals moves a number by at most half a unit of the
    last decimal. *)
Lemma round_q_error (x : Q) (d : nat) :
  x - (1 # 2) / pow10 d <= round_q x d <= x + (1 # 2) / pow10 d.
Proof.
  pose proof (pow10_positive d) as Hp.
  pose proof (round_half_away_error (x * pow10 d)) as [H1 H2].
  unfold round_q.
  revert H1 H2. generalize (inject_Z (round_half_away (x * pow10 d))).
  generalize dependent (pow10 d). intros p Hp r H1 H2.
  split.
  - apply (Qmult_le_r _ _ p Hp).
    setoid_replace ((x - (1 # 2) / p) * p) with (x * p - (1 # 2))
      by (field; lra).
    setoid_replace (r / p * p) with r by (field; lra).
    exact H1.
  - apply (Qmult_le_r _ _ p Hp).
    setoid_replace ((x + (1 # 2) / p) * p) with (x * p + (1 # 2))
      by (field; lra).
    setoid_replace (r / p * p) with r by (field; lra).
    exact H2.
Qed.

Lemma points_per_million_value (p s : Q) :
  0 < p -> 0 < s ->
  value (points_per_million (Some p) (Some s))
  = Some (round_q (p / (s / 1000000)) 2).
Proof.
  intros Hp Hs. unfold points_per_million.
  assert (E : is_true (sql_and (sql_gt (Some p) (lit 0))
                         (sql_gt (Some s) (lit 0))) = true).
  { apply guard_both_positive. split; [now exists p | now exists s]. }
  rewrite E. unfold lit.
  rewrite sql_div_defined by (intros H; discriminate H).
  rewrite wbind_pure.
  assert (Hm : 0 < s / 1000000) by (apply Qlt_shift_div_l; lra).
  rewrite sql_div_defined by (intros H; rewrite H in Hm; lra).
  reflexivity.
Qed.

(** X2.  For a main-dashboard row with positive points per game and a
    positive salary, the points per million are the points per game
    divided by the salary in millions, rounded to two decimals: they
    differ from the exact quotient by 0.005 at most. *)
Theorem points_per_million_is_the_rounded_quotient {coll : collation}
    (stats : list Stats.row) (salaries : list Salaries.row) :
  Forall
    (fun r =>
       forall p s,
         MainDashboard.ppg r = Some p -> MainDashboard.salary r = Some s ->
         0 < p -> 0 < s ->
         exists v,
           MainDashboard.points_per_million r = Some v /\
           v = round_q (p / (s / 1000000)) 2 /\
           p / (s / 1000000) - 0.005 <= v <= p / (s / 1000000) + 0.005)
    (value (main_dashboard_query stats salaries)).
Proof.
  apply Forall_forall. intros r Hr. apply in_main_dashboard in Hr.
  destruct Hr as [pms [ps [_ [_ ->]]]].
  destruct (main_dashboard_row pms ps)
    as (_ & _ & Hs & _ & _ & Hp & _ & _ & H1 & _).
  rewrite Hs, Hp, H1. intros p s -> -> Hpos Hsal.
  exists (round_q (p / (s / 1000000)) 2).
  split; [now apply points_per_million_value|]. split; [reflexivity|].
  pose proof (round_q_error (p / (s / 1000000)) 2) as H.
  assert (E : (1 # 2) / pow10 2 == 0.005) by reflexivity.
  rewrite E in H. exact H.
Qed.

(** X18.  The comparison keeps every player-season with 20 games or more
    as a current season, whether or not the player has a salary record or
    a previous season: each such stats row has a comparison row of its
    player, season and games. *)
Theorem comparison_keeps_every_current_season {coll : collation}
    (stats : list Stats.row) (salaries : list Salaries.row) :
  Forall
    (fun c =>
       within (Stats.games_played c) (fun g => 20 <= g) ->
       exists r,
         In r (value (player_comparison_query stats salaries)) /\
         PlayerComparison.player_name r = Stats.player_name c /\
         PlayerComparison.current_season r = Stats.season c /\
         PlayerComparison.current_team r = Stats.team c /\
         PlayerComparison.current_games r = Stats.games_played c)
    stats.
Proof.
  apply Forall_forall. intros c Hc Hg.
  destruct (left_join_total salary_join c stats salaries Hc) as [cs Hcs].
  destruct (left_join_total previous_season_join (c, cs)
              (stats_with_salary stats salaries) stats Hcs) as [p Hp].
  destruct (left_join_total previous_salary_join ((c, cs), p)
              _ salaries Hp) as [s Hs].
  exists (value (player_comparison_select
                   {| curr := c; curr_sal := cs; prev := p;
                      prev_sal := s |})).
  split.
  - apply in_player_comparison. eexists. split; [|split; [|reflexivity]].
    + unfold comparison_joins. apply in_map_iff.
      exists (((c, cs), p), s). split; [reflexivity | exact Hs].
    + now apply sql_ge_true.
  - unfold player_comparison_select. row_value. repeat split.
Qed.
